(** * diamonds-base: the RPC deployment scripts and the diamond-cut core

    A shallow embedding of the TypeScript command scripts
    (deploy-rpc, upgrade-rpc, verify-rpc, status-rpc, verify-diamond)
    and of the reconciliation core they drive.

    Conventions of the embedding
    - [process.env] is a finite map from variable names to strings.
    - An optional field [x?: T] is an [option T]; [undefined] is [None].
    - JavaScript truthiness and the [||] operator are written out
      ([truthy], [or_else], [or_default]).
    - A JavaScript number is a [number]: NaN, an infinity, or the exact
      rational value of the literal it was read from.  The scripts only
      test, compare and print numbers.  Values beyond the precision or
      the range of a double (a numeral of more than 53 bits, an exponent
      past 308, a quotient that is not a double) are kept exact here,
      where JavaScript rounds them; nothing below is stated of such
      values.
    - Console output, constructor calls and calls into the deployer are
      recorded, in order, in a trace of [event]s; [process.exit] and a
      thrown exception end a run with [Exited] and [Thrown].
    - Colours, emoji and separator rules of the console output are dropped,
      as are elapsed times and the lines of the debug logger; every other
      line that carries data is kept. *)

From Stdlib Require Import QArith Ascii String.
From stdpp Require Import gmap strings list fin_maps.

Close Scope Q_scope.

(* ===================================================================== *)
(** ** JavaScript values                                                  *)
(* ===================================================================== *)

Module JS.

Inductive number :=
| NaN
| Infinity (negative : bool)
| Finite (q : Q).

Definition of_Z (z : Z) : number := Finite (inject_Z z).

(** [a < b] on numbers: any comparison with NaN is false. *)
Definition lt (a b : number) : bool :=
  match a, b with
  | NaN, _ | _, NaN => false
  | Infinity na, Infinity nb => na && negb nb
  | Infinity na, Finite _ => na
  | Finite _, Infinity nb => negb nb
  | Finite x, Finite y =>
      match Qcompare x y with Lt => true | _ => false end
  end.

(** Truthiness, the test behind [!x], [x && y], [x || y] and [if (x)]. *)
Class Truthy (A : Type) := truthy : A → bool.
#[export] Hint Mode Truthy ! : typeclass_instances.

#[export] Instance truthy_bool : Truthy bool := λ b, b.
#[export] Instance truthy_string : Truthy string :=
  λ s, match s with EmptyString => false | String _ _ => true end.
#[export] Instance truthy_number : Truthy number :=
  λ n, match n with
       | NaN => false
       | Infinity _ => true
       | Finite q => negb (Qeq_bool q 0)
       end.
#[export] Instance truthy_option {A} `{Truthy A} : Truthy (option A) :=
  λ o, match o with None => false | Some a => truthy a end.

Definition falsy {A} `{Truthy A} (a : A) : bool := negb (truthy a).

(** [a || b] where both sides may be undefined. *)
Definition or_else {A} `{Truthy A} (a b : option A) : option A :=
  if truthy a then a else b.

(** [a || d] where the right-hand side is a plain value. *)
Definition or_default {A} `{Truthy A} (a : option A) (d : A) : A :=
  match a with
  | Some x => if truthy x then x else d
  | None => d
  end.

(** *** parseInt and parseFloat

    Both skip leading white space, read the longest prefix that is a
    numeral and ignore the rest; without such a prefix the result is
    NaN. *)

Definition is_space (c : ascii) : bool :=
  let n := nat_of_ascii c in
  (n =? 32)%nat || ((9 <=? n)%nat && (n <=? 13)%nat).

Fixpoint skip_space (s : string) : string :=
  match s with
  | String c r => if is_space c then skip_space r else s
  | EmptyString => s
  end.

Definition digit_val (c : ascii) : option Z :=
  let n := nat_of_ascii c in
  if (48 <=? n)%nat && (n <=? 57)%nat then Some (Z.of_nat (n - 48))
  else if (97 <=? n)%nat && (n <=? 102)%nat then Some (Z.of_nat (n - 87))
  else if (65 <=? n)%nat && (n <=? 70)%nat then Some (Z.of_nat (n - 55))
  else None.

(** Reads digits of the given radix; returns how many were read, their
    value (continuing from [acc]) and the unread rest. *)
Fixpoint read_digits (radix : Z) (s : string) (count : nat) (acc : Z)
  : nat * Z * string :=
  match s with
  | String c r =>
      match digit_val c with
      | Some d =>
          if (d <? radix)%Z
          then read_digits radix r (S count) (acc * radix + d)%Z
          else (count, acc, s)
      | None => (count, acc, s)
      end
  | EmptyString => (count, acc, s)
  end.

Definition read_sign (s : string) : bool * string :=
  match s with
  | String "-" r => (true, r)
  | String "+" r => (false, r)
  | _ => (false, s)
  end.

Definition signed (negative : bool) (z : Z) : Z :=
  if negative then (- z)%Z else z.

(** [parseInt(s)] with no radix argument. *)
Definition parseInt (s : string) : number :=
  let '(neg, s1) := read_sign (skip_space s) in
  let '(radix, s2) :=
    match s1 with
    | String "0" (String "x" r) | String "0" (String "X" r) => (16%Z, r)
    | _ => (10%Z, s1)
    end in
  let '(count, v, _) := read_digits radix s2 0 0%Z in
  match count with
  | O => NaN
  | S _ => of_Z (signed neg v)
  end.

(** The optional exponent part [e±ddd]; it is read only when at least
    one digit follows. *)
Definition read_exponent (s : string) : Z :=
  match s with
  | String c r =>
      if (c =? "e")%char || (c =? "E")%char then
        let '(eneg, r1) := read_sign r in
        let '(count, v, _) := read_digits 10 r1 0 0%Z in
        match count with O => 0%Z | S _ => signed eneg v end
      else 0%Z
  | EmptyString => 0%Z
  end.

(** The value [m * 10^e] as a reduced fraction. *)
Definition decimal (m e : Z) : Q :=
  Qred (if (0 <=? e)%Z then inject_Z (m * 10 ^ e)
        else Qmake m (Z.to_pos (10 ^ (- e)))).

Definition parseFloat (s : string) : number :=
  let '(neg, s1) := read_sign (skip_space s) in
  if String.prefix "Infinity" s1 then Infinity neg
  else
    let '(ni, vi, s2) := read_digits 10 s1 0 0%Z in
    let '(nf, v, s3) :=
      match s2 with
      | String "." r =>
          let '(nf, v, r') := read_digits 10 r 0 vi in
          match ni, nf with
          | O, O => (O, vi, s2)
          | _, _ => (nf, v, r')
          end
      | _ => (O, vi, s2)
      end in
    match ni, nf with
    | O, O => NaN
    | _, _ => Finite (decimal (signed neg v) (read_exponent s3 - Z.of_nat nf))
    end.

End JS.

Export JS.

(* ===================================================================== *)
(** ** Runs of a script                                                   *)
(* ===================================================================== *)

(** The deployer configuration record of [setup/RPCDiamondDeployer].  The
    scripts fill [rpcUrl] and [privateKey] through non-null assertions
    ([process.env.RPC_URL!]), so both can be undefined at run time. *)
Module Setup.

Record RPCDiamondDeployerConfig := {
  diamondName : option string;
  rpcUrl : option string;
  privateKey : option string;
  networkName : option string;
  chainId : Z;
  verbose : option bool;
  gasLimitMultiplier : option number;
  maxRetries : option number;
  retryDelayMs : option number;
  configFilePath : option string;
  deploymentsPath : option string;
  writeDeployedDiamondData : option bool
}.

(** The overrides object handed to [createConfigFromHardhat]. *)
Record Overrides := {
  o_verbose : option bool;
  o_gasLimitMultiplier : option number;
  o_maxRetries : option number;
  o_retryDelayMs : option number
}.

Inductive DeploymentStatus :=
| NOT_DEPLOYED | IN_PROGRESS | COMPLETED | UPGRADE_AVAILABLE.

End Setup.

(** One piece of a template string. *)
Inductive fragment :=
| Str (s : string)
| Num (n : number)
| Undefined
| StackOf (err : string).

Definition message := list fragment.

Definition show_string (o : option string) : fragment :=
  match o with Some s => Str s | None => Undefined end.

Definition show_number (o : option number) : fragment :=
  match o with Some n => Num n | None => Undefined end.

(** What a run does to the outside, in order. *)
Inductive event :=
| ConsoleLog (m : message)
| ConsoleError (m : message)
| CreateConfigFromHardhat (diamond network : option string) (o : Setup.Overrides)
| NewJsonRpcProvider (url : option string)
| QueryNetwork
| GetInstance (cfg : Setup.RPCDiamondDeployerConfig)
| ValidateConfiguration
| GetDiamond
| GetNetworkInfo
| DeployDiamond
| Routine (name : string)
| GetContractAt (name : string) (address : option string)
| HreRunVerify (address : option string) (constructorArguments : list (option string)).

(** The answer of a collaborator: a value or a thrown error. *)
Inductive answer (A : Type) :=
| Answers (a : A)
| Throws (err : string).
Arguments Answers {A} a.
Arguments Throws {A} err.

Inductive outcome (A : Type) :=
| Returned (a : A)
| Exited (code : Z)
| Thrown (err : string).
Arguments Returned {A} a.
Arguments Exited {A} code.
Arguments Thrown {A} err.

Definition script (A : Type) : Type := list event * outcome A.

Definition trace {A} (r : script A) : list event := r.1.
Definition result {A} (r : script A) : outcome A := r.2.

#[export] Instance script_ret : MRet script := λ A a, ([], Returned a).

#[export] Instance script_bind : MBind script := λ A B f m,
  match m.2 with
  | Returned a => (m.1 ++ (f a).1, (f a).2)
  | Exited c => (m.1, Exited c)
  | Thrown e => (m.1, Thrown e)
  end.

Definition emit (e : event) : script unit := ([e], Returned tt).
Definition log (m : message) : script unit := emit (ConsoleLog m).
Definition error (m : message) : script unit := emit (ConsoleError m).

(** [process.exit(code)]: nothing runs after it, not even a handler. *)
Definition exit {A} (code : Z) : script A := ([], Exited code).

Definition throw {A} (err : string) : script A := ([], Thrown err).

(** [try { m } catch (error) { h error }] *)
Definition try_catch {A} (m : script A) (h : string → script A) : script A :=
  match m.2 with
  | Thrown e => (m.1 ++ (h e).1, (h e).2)
  | _ => m
  end.

(** A call into a collaborator: recorded, then it answers or throws. *)
Definition call {A} (e : event) (a : answer A) : script A :=
  match a with
  | Answers v => ([e], Returned v)
  | Throws err => ([e], Thrown err)
  end.

(** [xs.forEach(f)] *)
Fixpoint for_each {A} (xs : list A) (f : A → script unit) : script unit :=
  match xs with
  | [] => mret tt
  | x :: r => f x ;; for_each r f
  end.

Definition when (c : bool) (m : script unit) : script unit :=
  if c then m else mret tt.

(** [if (c) errors.push(msg)] *)
Definition push_if (c : bool) (msg : string) (errors : list string) : list string :=
  if c then errors ++ [msg] else errors.

(** [process.env] *)
Abbreviation Env := (gmap string string).

(** Prints the collected validation errors and leaves; shared by the
    [validateOptions] of every script. *)
Definition report_errors (errors : list string) : script unit :=
  if (0 <? length errors)%nat then
    error [Str "Validation errors:"] ;;
    for_each errors (λ e, error [Str "  - "; Str e]) ;;
    exit 1
  else mret tt.

(** What [report_errors] prints for a non-empty list: the heading, then
    one line for each error. *)
Definition surfaced (errors : list string) : list event :=
  ConsoleError [Str "Validation errors:"]
  :: map (λ e, ConsoleError [Str "  - "; Str e]) errors.

(** Every event of the run satisfies [P]. *)
Definition always (P : event → Prop) {A} (m : script A) : Prop :=
  Forall P (trace m).

(** One finding of a validation: the message when the check fails. *)
Definition finding (failed : bool) (msg : string) : list string :=
  if failed then [msg] else [].

(* ===================================================================== *)
(** ** Objects and Maps that keep insertion order                         *)
(* ===================================================================== *)

(** A JavaScript object or [Map] holds each key once and is walked in the
    order the keys were first inserted. *)
Module Ordered.

Fixpoint get `{EqDecision K} {V} (m : list (K * V)) (key : K) : option V :=
  match m with
  | [] => None
  | (k, v) :: r => if decide (k = key) then Some v else get r key
  end.

(** Overwrites in place when the key is present, appends otherwise. *)
Fixpoint set `{EqDecision K} {V} (m : list (K * V)) (key : K) (v : V)
    : list (K * V) :=
  match m with
  | [] => [(key, v)]
  | (k, old) :: r =>
      if decide (k = key) then (k, v) :: r else (k, old) :: set r key v
  end.

End Ordered.

(* ===================================================================== *)
(** ** The deployer the scripts drive                                     *)
(* ===================================================================== *)

(** [setup/RPCDiamondDeployer] and the diamond object it hands out are
    used by the scripts through the calls below.  Each call is given by
    its answer, so that the scripts can be run against any deployer. *)

Module FacetData.
Record t := {
  address : option string;
  funcSelectors : option (list string)
}.
End FacetData.

Module Deployed.
Record t := {
  DiamondAddress : option string;
  DeployerAddress : option string;
  protocolVersion : option number;
  DeployedFacets : option (list (string * FacetData.t))
}.
End Deployed.

Module DeployConfig.
Record t := {
  protocolVersion : option number;
  facets : option (list (string * unit))
}.
End DeployConfig.

Record Diamond := {
  getDeployedDiamondData : Deployed.t;
  getDeployConfig : DeployConfig.t
}.

Record ValidationResult := {
  valid : bool;
  errors : list string
}.

Record NetworkInfo := {
  ni_networkName : string;
  ni_chainId : Z;
  ni_blockNumber : Z;
  ni_gasPrice : Z;
  ni_balance : Z;
  ni_signerAddress : string
}.

Record RPCDiamondDeployer := {
  isDiamondDeployed : bool;
  getDeploymentStatus : Setup.DeploymentStatus;
  getConfig : Setup.RPCDiamondDeployerConfig;
  validateConfiguration : answer ValidationResult;
  getDiamond : answer Diamond;
  getNetworkInfo : answer NetworkInfo;
  (** [deployDiamond()] deploys or upgrades; afterwards [getDiamond()]
      answers with the diamond it returned. *)
  deployDiamond : answer Diamond
}.

(** What the provider reports for an endpoint and a signing key:
    [getNetwork], [getBalance] and [getFeeData]. *)
Record ChainFacts := {
  chain_name : option string;
  chain_id : Z;
  signer_address : string;
  balance : Z;
  gasPrice : option Z
}.

Record World := {
  createConfigFromHardhat :
    option string → option string → option string → Setup.Overrides →
    answer Setup.RPCDiamondDeployerConfig;
  queryNetwork : option string → option string → answer ChainFacts;
  getInstance : Setup.RPCDiamondDeployerConfig → answer RPCDiamondDeployer;
  (** A routine of a script that only reads the chain and prints what it
      finds; it is recorded by name. *)
  routine : string → answer unit
}.

(** [Number(x) / 10^k] *)
Definition scaled (x : Z) (k : Z) : number := Finite (decimal x (- k)).

(** [Object.keys(o).length] *)
Definition key_count {A} (o : list (string * A)) : number :=
  of_Z (Z.of_nat (length o)).

(** [ethers.parseEther('0.01')] *)
Definition minBalance : Z := 10 ^ 16.

(** The body shared by [printPreDeploymentInfo] and [printPreUpgradeInfo];
    they differ in the heading only. *)
Definition printPreInfo (heading : string) (w : World)
    (config : Setup.RPCDiamondDeployerConfig) : script unit :=
  log [Str heading] ;;
  try_catch
    (emit (NewJsonRpcProvider (Setup.rpcUrl config)) ;;
     c ← call QueryNetwork
           (queryNetwork w (Setup.rpcUrl config) (Setup.privateKey config)) ;
     log [Str "Diamond Name: "; show_string (Setup.diamondName config)] ;;
     log [Str "Network: "; Str (or_default (chain_name c) "unknown");
          Str " (Chain ID: "; Num (of_Z (chain_id c)); Str ")"] ;;
     log [Str "RPC URL: "; show_string (Setup.rpcUrl config)] ;;
     log [Str "Deployer: "; Str (signer_address c)] ;;
     log [Str "Balance: "; Num (scaled (balance c) 18); Str " ETH"] ;;
     log [Str "Gas Price: "; Num (scaled (default 0%Z (gasPrice c)) 9); Str " gwei"] ;;
     when (truthy (Setup.gasLimitMultiplier config))
       (log [Str "Gas Limit Multiplier: ";
             show_number (Setup.gasLimitMultiplier config)]) ;;
     when (truthy (Setup.maxRetries config))
       (log [Str "Max Retries: "; show_number (Setup.maxRetries config)]) ;;
     when (balance c <? minBalance)%Z
       (log [Str "Warning: Low balance detected. Minimum recommended: 0.01 ETH"]))
    (λ err,
       error [Str "Failed to get network information: "; Str err] ;;
       exit 1).

(** The handler of the [try] that wraps each main function. *)
Definition fail_with (heading : string) (verbose : option bool) (err : string)
    : script unit :=
  error [Str heading] ;;
  error [Str "   "; Str err] ;;
  when (truthy verbose)
    (error [Str "Full error:"] ;; error [StackOf err]) ;;
  exit 1.

(** A commander option declared with a parser and a default value. *)
Definition parsed_option (parser : string → number) (dflt : number)
    (given : option string) : number :=
  match given with
  | Some val => parser val
  | None => dflt
  end.

(** A commander option declared with a default value only. *)
Definition plain_option (dflt given : option string) : option string :=
  match given with
  | Some val => Some val
  | None => dflt
  end.

(** A boolean flag with a default. *)
Definition flag_option (dflt given : bool) : bool := given || dflt.

(** [process.env.VERBOSE === 'true'] *)
Definition env_verbose (env : Env) : bool :=
  bool_decide (env !! "VERBOSE" = Some "true").

(** The three tuning options, declared alike by every command that has
    them. *)
Definition gasLimitMultiplier_option (env : Env) : option string → number :=
  parsed_option parseFloat
    (parseFloat (or_default (env !! "GAS_LIMIT_MULTIPLIER") "1.2")).

Definition maxRetries_option (env : Env) : option string → number :=
  parsed_option parseInt (parseInt (or_default (env !! "MAX_RETRIES") "3")).

Definition retryDelayMs_option (env : Env) : option string → number :=
  parsed_option parseInt (parseInt (or_default (env !! "RETRY_DELAY_MS") "2000")).

(* ===================================================================== *)
(** ** scripts/deploy/rpc/deploy-rpc.ts                                   *)
(* ===================================================================== *)

Module DeployRpc.

Record DeploymentOptions := {
  diamondName : option string;
  networkName : option string;
  privateKey : option string;
  gasLimitMultiplier : option number;
  maxRetries : option number;
  retryDelayMs : option number;
  verbose : option bool;
  useHardhatConfig : option bool;
  rpcUrl : option string;
  configPath : option string;
  deploymentsPath : option string
}.

Definition validation_errors (env : Env) (options : DeploymentOptions)
    : list string :=
  let errors := [] in
  let errors :=
    push_if (falsy (diamondName options))
      "Diamond name is required (--diamond-name or first argument)" errors in
  let errors :=
    push_if (falsy (networkName options))
      "Network name is required (--network-name or second argument)" errors in
  let errors :=
    push_if (falsy (privateKey options) && falsy (env !! "PRIVATE_KEY")
             && falsy (env !! "TEST_PRIVATE_KEY"))
      "Private key is required (--private-key, PRIVATE_KEY, or TEST_PRIVATE_KEY environment variable)"
      errors in
  let errors :=
    if bool_decide (useHardhatConfig options = Some false) then
      push_if (falsy (rpcUrl options) && falsy (env !! "RPC_URL"))
        "RPC URL is required when hardhat config is disabled (--rpc-url or RPC_URL environment variable)"
        errors
    else errors in
  errors.

Definition validateOptions (env : Env) (options : DeploymentOptions)
    : script unit :=
  report_errors (validation_errors env options).

Definition legacy_config (env : Env) (options : DeploymentOptions)
    (privateKey : option string) : Setup.RPCDiamondDeployerConfig :=
  {| Setup.diamondName := diamondName options;
     Setup.rpcUrl := or_else (rpcUrl options) (env !! "RPC_URL");
     Setup.privateKey := privateKey;
     Setup.networkName := networkName options;
     Setup.chainId := 0;
     Setup.verbose := Some (or_default (verbose options) false);
     Setup.gasLimitMultiplier := gasLimitMultiplier options;
     Setup.maxRetries := maxRetries options;
     Setup.retryDelayMs := retryDelayMs options;
     Setup.configFilePath := configPath options;
     Setup.deploymentsPath := deploymentsPath options;
     Setup.writeDeployedDiamondData := Some true |}.

Definition createConfig (w : World) (env : Env) (options : DeploymentOptions)
    : script Setup.RPCDiamondDeployerConfig :=
  let privateKey :=
    or_else (or_else (privateKey options) (env !! "PRIVATE_KEY"))
            (env !! "TEST_PRIVATE_KEY") in
  fromHardhat ←
    (if negb (bool_decide (useHardhatConfig options = Some false))
        && falsy (rpcUrl options)
     then
       log [Str "Using hardhat configuration for diamond and network settings"] ;;
       try_catch
         (let overrides :=
            {| Setup.o_verbose := verbose options;
               Setup.o_gasLimitMultiplier := gasLimitMultiplier options;
               Setup.o_maxRetries := maxRetries options;
               Setup.o_retryDelayMs := retryDelayMs options |} in
          config ← call
            (CreateConfigFromHardhat (diamondName options) (networkName options)
               overrides)
            (createConfigFromHardhat w (diamondName options)
               (networkName options) privateKey overrides) ;
          mret (Some config))
         (λ err,
            error [Str "Failed to load hardhat configuration: "; Str err] ;;
            log [Str "Falling back to manual configuration..."] ;;
            mret None)
     else mret None) ;
  match fromHardhat with
  | Some config => mret config
  | None => mret (legacy_config env options privateKey)
  end.

Definition printPreDeploymentInfo := printPreInfo "RPC Diamond Deployment".

Definition report_deployed (label : string) (version_label : string)
    (deployedData : Deployed.t) : script unit :=
  log [Str label; show_string (Deployed.DiamondAddress deployedData)] ;;
  when (truthy (Deployed.protocolVersion deployedData))
    (log [Str version_label; show_number (Deployed.protocolVersion deployedData)]).

(** [deployDiamond] up to the check for an existing deployment: the
    options are validated, the configuration is built and validated, and
    the deployer is at hand. *)
Definition prepare (w : World) (env : Env) (options : DeploymentOptions)
    : script RPCDiamondDeployer :=
  validateOptions env options ;;
  config ← createConfig w env options ;
  printPreDeploymentInfo w config ;;
  log [Str "Initializing RPCDiamondDeployer..."] ;;
  deployer ← call (GetInstance config) (getInstance w config) ;
  log [Str "Validating configuration..."] ;;
  validation ← call ValidateConfiguration (validateConfiguration deployer) ;
  (if negb (valid validation) then
     error [Str "Configuration validation failed:"] ;;
     for_each (errors validation) (λ e, error [Str "  - "; Str e]) ;;
     exit 1
   else mret tt) ;;
  log [Str "Configuration validation passed"] ;;
  mret deployer.

(** [deployDiamond] from the check for an existing deployment on. *)
Definition deploy_unless_deployed (deployer : RPCDiamondDeployer) : script unit :=
  if isDiamondDeployed deployer then
    log [Str "Diamond is already deployed. Use upgrade-rpc.ts for upgrades."] ;;
    deployedDiamond ← call GetDiamond (getDiamond deployer) ;
    report_deployed "Current Diamond Address: " "Current Protocol Version: "
      (getDeployedDiamondData deployedDiamond)
  else
    log [Str "Starting diamond deployment..."] ;;
    diamond ← call DeployDiamond (deployDiamond deployer) ;
    log [Str "Diamond deployment completed successfully!"] ;;
    let deployedData := getDeployedDiamondData diamond in
    report_deployed "Diamond Address: " "Protocol Version: " deployedData ;;
    match Deployed.DeployedFacets deployedData with
    | Some fs => log [Str "Deployed Facets: "; Num (key_count fs)]
    | None => mret tt
    end.

Definition deployDiamond (w : World) (env : Env) (options : DeploymentOptions)
    : script unit :=
  try_catch
    (deployer ← prepare w env options ;
     deploy_unless_deployed deployer)
    (fail_with "Deployment failed:" (verbose options)).

(** What the command line of [deploy [diamondName] [networkName]] holds. *)
Record DeployArgs := {
  arg_diamondName : option string;
  arg_networkName : option string;
  opt_privateKey : option string;
  opt_rpcUrl : option string;
  opt_gasLimitMultiplier : option string;
  opt_maxRetries : option string;
  opt_retryDelayMs : option string;
  flag_noHardhatConfig : bool;
  flag_verbose : bool
}.

Definition deploy_options (env : Env) (argv : DeployArgs) : DeploymentOptions :=
  {| diamondName :=
       Some (or_default (or_else (arg_diamondName argv) (env !! "DIAMOND_NAME")) "");
     networkName :=
       Some (or_default (or_else (arg_networkName argv) (env !! "NETWORK_NAME")) "");
     privateKey := plain_option (env !! "PRIVATE_KEY") (opt_privateKey argv);
     rpcUrl := plain_option (env !! "RPC_URL") (opt_rpcUrl argv);
     gasLimitMultiplier :=
       Some (gasLimitMultiplier_option env (opt_gasLimitMultiplier argv));
     maxRetries := Some (maxRetries_option env (opt_maxRetries argv));
     retryDelayMs := Some (retryDelayMs_option env (opt_retryDelayMs argv));
     useHardhatConfig := Some (negb (flag_noHardhatConfig argv));
     verbose := Some (flag_option (env_verbose env) (flag_verbose argv));
     configPath := None;
     deploymentsPath := None |}.

Definition deploy_command (w : World) (env : Env) (argv : DeployArgs)
    : script unit :=
  deployDiamond w env (deploy_options env argv).

(** What the command line of [deploy-legacy] holds. *)
Record LegacyArgs := {
  legacy_diamondName : option string;
  legacy_rpcUrl : option string;
  legacy_privateKey : option string;
  legacy_networkName : option string;
  legacy_configPath : option string;
  legacy_deploymentsPath : option string;
  legacy_gasLimitMultiplier : option string;
  legacy_maxRetries : option string;
  legacy_retryDelayMs : option string;
  legacy_verbose : bool
}.

(** The options of [deploy-legacy]: each comes from its flag or from its
    environment variable, and the action then forces legacy mode. *)
Definition legacy_options (env : Env) (argv : LegacyArgs) : DeploymentOptions :=
  {| diamondName := plain_option (env !! "DIAMOND_NAME") (legacy_diamondName argv);
     rpcUrl := plain_option (env !! "RPC_URL") (legacy_rpcUrl argv);
     privateKey := plain_option (env !! "PRIVATE_KEY") (legacy_privateKey argv);
     networkName := plain_option (env !! "NETWORK_NAME") (legacy_networkName argv);
     configPath :=
       plain_option (env !! "DIAMOND_CONFIG_PATH") (legacy_configPath argv);
     deploymentsPath :=
       plain_option (env !! "DEPLOYMENTS_PATH") (legacy_deploymentsPath argv);
     gasLimitMultiplier :=
       Some (gasLimitMultiplier_option env (legacy_gasLimitMultiplier argv));
     maxRetries := Some (maxRetries_option env (legacy_maxRetries argv));
     retryDelayMs := Some (retryDelayMs_option env (legacy_retryDelayMs argv));
     verbose := Some (flag_option (env_verbose env) (legacy_verbose argv));
     useHardhatConfig := Some false |}.

Definition deploy_legacy_command (w : World) (env : Env) (argv : LegacyArgs)
    : script unit :=
  deployDiamond w env (legacy_options env argv).

(** The options the [quick] command builds from the environment. *)
Definition quick_options (env : Env) (flag_verbose : bool) : DeploymentOptions :=
  {| diamondName := env !! "DIAMOND_NAME";
     networkName := env !! "NETWORK_NAME";
     privateKey := None;
     gasLimitMultiplier := None;
     maxRetries := None;
     retryDelayMs := None;
     verbose := Some (flag_option (env_verbose env) flag_verbose);
     useHardhatConfig := Some true;
     rpcUrl := None;
     configPath := None;
     deploymentsPath := None |}.

Definition quick_command (w : World) (env : Env) (flag_verbose : bool)
    : script unit :=
  let diamondName := env !! "DIAMOND_NAME" in
  let networkName := env !! "NETWORK_NAME" in
  (if falsy diamondName || falsy networkName then
     error [Str "Required environment variables missing:"] ;;
     when (falsy diamondName) (error [Str "   - DIAMOND_NAME"]) ;;
     when (falsy networkName) (error [Str "   - NETWORK_NAME"]) ;;
     error [Str "Example: DIAMOND_NAME=ExampleDiamond NETWORK_NAME=sepolia npx ts-node deploy-rpc.ts quick"] ;;
     exit 1
   else mret tt) ;;
  deployDiamond w env (quick_options env flag_verbose).

End DeployRpc.

(** The option checks that upgrade-rpc.ts and verify-rpc.ts share word for
    word. *)
Definition rpc_validation_errors (env : Env)
    (diamondName networkName privateKey rpcUrl : option string)
    (useHardhatConfig : option bool) : list string :=
  let errors := [] in
  let errors :=
    push_if (falsy diamondName)
      "Diamond name is required (--diamond-name or DIAMOND_NAME)" errors in
  let errors :=
    push_if (falsy networkName)
      "Network name is required (--network-name or NETWORK_NAME)" errors in
  let errors :=
    push_if (falsy privateKey && falsy (env !! "PRIVATE_KEY")
             && falsy (env !! "TEST_PRIVATE_KEY"))
      "Private key is required (--private-key, PRIVATE_KEY, or TEST_PRIVATE_KEY environment variable)"
      errors in
  let errors :=
    if bool_decide (useHardhatConfig = Some false) then
      push_if (falsy rpcUrl && falsy (env !! "RPC_URL"))
        "RPC URL is required when hardhat config is disabled (--rpc-url or RPC_URL environment variable)"
        errors
    else errors in
  errors.

(** [xs.join(', ')] *)
Definition join (xs : list string) : string := String.concat ", " xs.

(** The names every plain object inherits from [Object.prototype]; each
    is bound to a function or, for [__proto__], to the prototype itself,
    so a lookup of one of them finds a truthy value on any object. *)
Definition inherited_names : list string :=
  ["constructor"; "__defineGetter__"; "__defineSetter__"; "hasOwnProperty";
   "__lookupGetter__"; "__lookupSetter__"; "isPrototypeOf";
   "propertyIsEnumerable"; "toString"; "valueOf"; "__proto__";
   "toLocaleString"].

(** [!o[name]] on a plain object whose own values are objects: the lookup
    finds an own key or, along the prototype chain, an inherited name. *)
Definition lacks {A} (o : list (string * A)) (name : string) : bool :=
  bool_decide ((name ∉ o.*1) ∧ (name ∉ inherited_names)).

(* ===================================================================== *)
(** ** scripts/deploy/rpc/upgrade-rpc.ts                                  *)
(* ===================================================================== *)

Module UpgradeRpc.

Record UpgradeOptions := {
  diamondName : option string;
  networkName : option string;
  rpcUrl : option string;
  privateKey : option string;
  verbose : option bool;
  gasLimitMultiplier : option number;
  maxRetries : option number;
  retryDelayMs : option number;
  configPath : option string;
  deploymentsPath : option string;
  targetVersion : option number;
  force : option bool;
  dryRun : option bool;
  useHardhatConfig : option bool
}.

Definition validation_errors (env : Env) (options : UpgradeOptions)
    : list string :=
  rpc_validation_errors env (diamondName options) (networkName options)
    (privateKey options) (rpcUrl options) (useHardhatConfig options).

Definition validateOptions (env : Env) (options : UpgradeOptions)
    : script unit :=
  report_errors (validation_errors env options).

Definition legacy_config (env : Env) (options : UpgradeOptions)
    (privateKey : option string) : Setup.RPCDiamondDeployerConfig :=
  {| Setup.diamondName := diamondName options;
     Setup.rpcUrl := or_else (rpcUrl options) (env !! "RPC_URL");
     Setup.privateKey := privateKey;
     Setup.networkName := Some (or_default (networkName options) "unknown");
     Setup.chainId := 0;
     Setup.verbose := Some (or_default (verbose options) false);
     Setup.gasLimitMultiplier := gasLimitMultiplier options;
     Setup.maxRetries := maxRetries options;
     Setup.retryDelayMs := retryDelayMs options;
     Setup.configFilePath := configPath options;
     Setup.deploymentsPath := deploymentsPath options;
     Setup.writeDeployedDiamondData := Some true |}.

Definition createConfig (w : World) (env : Env) (options : UpgradeOptions)
    : script Setup.RPCDiamondDeployerConfig :=
  let privateKey :=
    or_else (or_else (privateKey options) (env !! "PRIVATE_KEY"))
            (env !! "TEST_PRIVATE_KEY") in
  fromHardhat ←
    (if negb (bool_decide (useHardhatConfig options = Some false))
        && falsy (rpcUrl options)
     then
       log [Str "Using hardhat configuration for diamond and network settings"] ;;
       try_catch
         (let overrides :=
            {| Setup.o_verbose := verbose options;
               Setup.o_gasLimitMultiplier := gasLimitMultiplier options;
               Setup.o_maxRetries := maxRetries options;
               Setup.o_retryDelayMs := retryDelayMs options |} in
          let network := Some (or_default (networkName options) "unknown") in
          config ← call
            (CreateConfigFromHardhat (diamondName options) network overrides)
            (createConfigFromHardhat w (diamondName options) network
               privateKey overrides) ;
          mret (Some config))
         (λ err,
            error [Str "Failed to load hardhat configuration: "; Str err] ;;
            log [Str "Falling back to manual configuration..."] ;;
            mret None)
     else mret None) ;
  match fromHardhat with
  | Some config => mret config
  | None => mret (legacy_config env options privateKey)
  end.

Definition printPreUpgradeInfo := printPreInfo "RPC Diamond Upgrade".

Definition analyzeUpgrade (deployer : RPCDiamondDeployer) : script unit :=
  diamond ← call GetDiamond (getDiamond deployer) ;
  let deployedData := getDeployedDiamondData diamond in
  let currentConfig := getDeployConfig diamond in
  log [Str "Upgrade Analysis"] ;;
  when (truthy (Deployed.protocolVersion deployedData)
        && truthy (DeployConfig.protocolVersion currentConfig))
    (log [Str "Protocol Version: ";
          show_number (Deployed.protocolVersion deployedData); Str " -> ";
          show_number (DeployConfig.protocolVersion currentConfig)]) ;;
  let currentFacets := default [] (Deployed.DeployedFacets deployedData) in
  let configFacets := default [] (DeployConfig.facets currentConfig) in
  log [Str "Facet Changes:"] ;;
  let newFacets := filter (λ name, lacks currentFacets name = true) configFacets.*1 in
  when (0 <? length newFacets)%nat
    (log [Str "  New Facets: "; Str (join newFacets)]) ;;
  let updatedFacets :=
    filter (λ name, lacks currentFacets name = false) configFacets.*1 in
  when (0 <? length updatedFacets)%nat
    (log [Str "  Potentially Updated Facets: "; Str (join updatedFacets)]) ;;
  let removedFacets :=
    filter (λ name, lacks configFacets name = true) currentFacets.*1 in
  when (0 <? length removedFacets)%nat
    (log [Str "  Removed Facets: "; Str (join removedFacets)]) ;;
  when ((length newFacets =? 0)%nat && (length updatedFacets =? 0)%nat
        && (length removedFacets =? 0)%nat)
    (log [Str "  No facet changes detected"]).

Definition printUpgradeSummary (deployer : RPCDiamondDeployer)
    (current : Diamond) : script unit :=
  diamond ← call GetDiamond (Answers current) ;
  let deployedData := getDeployedDiamondData diamond in
  let config := getConfig deployer in
  log [Str "Upgrade Summary"] ;;
  log [Str "Diamond Name: "; show_string (Setup.diamondName config)] ;;
  log [Str "Network: "; show_string (Setup.networkName config);
       Str " (Chain ID: "; Num (of_Z (Setup.chainId config)); Str ")"] ;;
  log [Str "Diamond Address: "; show_string (Deployed.DiamondAddress deployedData)] ;;
  when (truthy (Deployed.protocolVersion deployedData))
    (log [Str "Protocol Version: ";
          show_number (Deployed.protocolVersion deployedData)]) ;;
  match Deployed.DeployedFacets deployedData with
  | Some fs =>
      log [Str "Active Facets: "; Num (key_count fs)] ;;
      for_each fs (λ '(name, facet),
        log [Str "   "; Str name; Str ": "; show_string (FacetData.address facet)])
  | None => mret tt
  end.

(** The value of [needsUpgrade], as the conditions that follow read it. *)
Definition needsUpgrade (options : UpgradeOptions) (deployedData : Deployed.t)
    (currentConfig : DeployConfig.t) : bool :=
  truthy (force options)
  || (truthy (Deployed.protocolVersion deployedData)
      && truthy (DeployConfig.protocolVersion currentConfig)
      && match Deployed.protocolVersion deployedData,
               DeployConfig.protocolVersion currentConfig with
         | Some d, Some c => JS.lt d c
         | _, _ => false
         end).

(** [upgradeDiamond] up to the check whether an upgrade is needed: the
    deployer is at hand, the diamond is deployed, the configuration is
    valid and the persisted record and the target configuration are
    loaded. *)
Definition prepare (w : World) (env : Env) (options : UpgradeOptions)
    : script (RPCDiamondDeployer * Diamond) :=
  validateOptions env options ;;
  config ← createConfig w env options ;
  printPreUpgradeInfo w config ;;
  when (truthy (dryRun options))
    (log [Str "DRY RUN MODE - No changes will be made"]) ;;
  log [Str "Initializing RPCDiamondDeployer..."] ;;
  deployer ← call (GetInstance config) (getInstance w config) ;
  (if negb (isDiamondDeployed deployer) then
     error [Str "Diamond is not deployed yet. Use deploy-rpc.ts first."] ;;
     exit 1
   else mret tt) ;;
  log [Str "Validating configuration..."] ;;
  validation ← call ValidateConfiguration (validateConfiguration deployer) ;
  (if negb (valid validation) then
     error [Str "Configuration validation failed:"] ;;
     for_each (errors validation) (λ e, error [Str "  - "; Str e]) ;;
     exit 1
   else mret tt) ;;
  log [Str "Configuration validation passed"] ;;
  analyzeUpgrade deployer ;;
  diamond ← call GetDiamond (getDiamond deployer) ;
  mret (deployer, diamond).

(** [upgradeDiamond] from the check whether an upgrade is needed on. *)
Definition upgrade_if_needed (options : UpgradeOptions)
    (deployer : RPCDiamondDeployer) (diamond : Diamond) : script unit :=
  let deployedData := getDeployedDiamondData diamond in
  let currentConfig := getDeployConfig diamond in
  if negb (needsUpgrade options deployedData currentConfig)
     && falsy (force options)
  then log [Str "No upgrade needed. Use --force to force upgrade."]
  else if truthy (dryRun options)
  then
    log [Str "DRY RUN completed - upgrade analysis shown above"] ;;
    log [Str "   Remove --dry-run flag to perform actual upgrade"]
  else
    log [Str "Starting diamond upgrade..."] ;;
    upgradedDiamond ← call DeployDiamond (deployDiamond deployer) ;
    log [Str "Diamond upgrade completed successfully!"] ;;
    printUpgradeSummary deployer upgradedDiamond.

Definition upgradeDiamond (w : World) (env : Env) (options : UpgradeOptions)
    : script unit :=
  try_catch
    ('(deployer, diamond) ← prepare w env options ;
     upgrade_if_needed options deployer diamond)
    (fail_with "Upgrade failed:" (verbose options)).

(** What the command line of [upgrade [diamondName] [networkName]] holds. *)
Record UpgradeArgs := {
  arg_diamondName : option string;
  arg_networkName : option string;
  opt_privateKey : option string;
  opt_rpcUrl : option string;
  opt_gasLimitMultiplier : option string;
  opt_maxRetries : option string;
  opt_retryDelayMs : option string;
  flag_noHardhatConfig : bool;
  flag_dryRun : bool;
  flag_force : bool;
  flag_verbose : bool
}.

(** A boolean flag without a default is undefined unless given. *)
Definition bare_flag (given : bool) : option bool :=
  if given then Some true else None.

Definition upgrade_options (env : Env) (argv : UpgradeArgs) : UpgradeOptions :=
  {| diamondName :=
       Some (or_default (or_else (arg_diamondName argv) (env !! "DIAMOND_NAME")) "");
     networkName :=
       Some (or_default (or_else (arg_networkName argv) (env !! "NETWORK_NAME")) "");
     privateKey := plain_option (env !! "PRIVATE_KEY") (opt_privateKey argv);
     rpcUrl := plain_option (env !! "RPC_URL") (opt_rpcUrl argv);
     gasLimitMultiplier :=
       Some (gasLimitMultiplier_option env (opt_gasLimitMultiplier argv));
     maxRetries := Some (maxRetries_option env (opt_maxRetries argv));
     retryDelayMs := Some (retryDelayMs_option env (opt_retryDelayMs argv));
     useHardhatConfig := Some (negb (flag_noHardhatConfig argv));
     verbose := Some (flag_option (env_verbose env) (flag_verbose argv));
     dryRun := bare_flag (flag_dryRun argv);
     force := bare_flag (flag_force argv);
     configPath := None;
     deploymentsPath := None;
     targetVersion := None |}.

Definition upgrade_command (w : World) (env : Env) (argv : UpgradeArgs)
    : script unit :=
  upgradeDiamond w env (upgrade_options env argv).

(** What the command line of [upgrade-legacy] holds. *)
Record LegacyArgs := {
  legacy_diamondName : option string;
  legacy_rpcUrl : option string;
  legacy_privateKey : option string;
  legacy_networkName : option string;
  legacy_configPath : option string;
  legacy_deploymentsPath : option string;
  legacy_targetVersion : option string;
  legacy_gasLimitMultiplier : option string;
  legacy_maxRetries : option string;
  legacy_retryDelayMs : option string;
  legacy_dryRun : bool;
  legacy_force : bool;
  legacy_verbose : bool
}.

(** The options of [upgrade-legacy]; the action forces legacy mode. *)
Definition legacy_options (env : Env) (argv : LegacyArgs) : UpgradeOptions :=
  {| diamondName := plain_option (env !! "DIAMOND_NAME") (legacy_diamondName argv);
     rpcUrl := plain_option (env !! "RPC_URL") (legacy_rpcUrl argv);
     privateKey := plain_option (env !! "PRIVATE_KEY") (legacy_privateKey argv);
     networkName := plain_option (env !! "NETWORK_NAME") (legacy_networkName argv);
     configPath :=
       plain_option (env !! "DIAMOND_CONFIG_PATH") (legacy_configPath argv);
     deploymentsPath :=
       plain_option (env !! "DEPLOYMENTS_PATH") (legacy_deploymentsPath argv);
     targetVersion := parseInt <$> legacy_targetVersion argv;
     gasLimitMultiplier :=
       Some (gasLimitMultiplier_option env (legacy_gasLimitMultiplier argv));
     maxRetries := Some (maxRetries_option env (legacy_maxRetries argv));
     retryDelayMs := Some (retryDelayMs_option env (legacy_retryDelayMs argv));
     dryRun := bare_flag (legacy_dryRun argv);
     force := bare_flag (legacy_force argv);
     verbose := Some (flag_option (env_verbose env) (legacy_verbose argv));
     useHardhatConfig := Some false |}.

Definition upgrade_legacy_command (w : World) (env : Env) (argv : LegacyArgs)
    : script unit :=
  upgradeDiamond w env (legacy_options env argv).

(** The options the [quick] command builds from the environment. *)
Definition quick_options (env : Env) (flag_dryRun flag_force flag_verbose : bool)
    : UpgradeOptions :=
  {| diamondName := env !! "DIAMOND_NAME";
     networkName := env !! "NETWORK_NAME";
     rpcUrl := None;
     privateKey := None;
     verbose := Some (flag_option (env_verbose env) flag_verbose);
     gasLimitMultiplier := None;
     maxRetries := None;
     retryDelayMs := None;
     configPath := None;
     deploymentsPath := None;
     targetVersion := None;
     force := bare_flag flag_force;
     dryRun := bare_flag flag_dryRun;
     useHardhatConfig := Some true |}.

Definition quick_command (w : World) (env : Env)
    (flag_dryRun flag_force flag_verbose : bool) : script unit :=
  let diamondName := env !! "DIAMOND_NAME" in
  let networkName := env !! "NETWORK_NAME" in
  (if falsy diamondName || falsy networkName then
     error [Str "Required environment variables missing:"] ;;
     when (falsy diamondName) (error [Str "   - DIAMOND_NAME"]) ;;
     when (falsy networkName) (error [Str "   - NETWORK_NAME"]) ;;
     error [Str "Example: DIAMOND_NAME=ExampleDiamond NETWORK_NAME=sepolia npx ts-node upgrade-rpc.ts quick"] ;;
     exit 1
   else mret tt) ;;
  upgradeDiamond w env (quick_options env flag_dryRun flag_force flag_verbose).

End UpgradeRpc.

(* ===================================================================== *)
(** ** scripts/deploy/rpc/status-rpc.ts                                   *)
(* ===================================================================== *)

Module StatusRpc.

Record StatusOptions := {
  diamondName : option string;
  networkName : option string;
  rpcUrl : option string;
  privateKey : option string;
  verbose : option bool;
  configPath : option string;
  deploymentsPath : option string;
  onChainValidation : option bool;
  showConfig : option bool;
  showFacets : option bool;
  showSelectors : option bool
}.

Definition validation_errors (options : StatusOptions) : list string :=
  let errors := [] in
  let errors :=
    push_if (falsy (diamondName options))
      "Diamond name is required (--diamond-name or DIAMOND_NAME)" errors in
  let errors :=
    push_if (falsy (rpcUrl options))
      "RPC URL is required (--rpc-url or RPC_URL)" errors in
  let errors :=
    push_if (falsy (privateKey options))
      "Private key is required (--private-key or PRIVATE_KEY)" errors in
  errors.

Definition validateOptions (options : StatusOptions) : script unit :=
  report_errors (validation_errors options).

Definition createConfig (options : StatusOptions)
    : Setup.RPCDiamondDeployerConfig :=
  {| Setup.diamondName := diamondName options;
     Setup.rpcUrl := rpcUrl options;
     Setup.privateKey := privateKey options;
     Setup.networkName := Some (or_default (networkName options) "unknown");
     Setup.chainId := 0;
     Setup.verbose := Some (or_default (verbose options) false);
     Setup.gasLimitMultiplier := None;
     Setup.maxRetries := None;
     Setup.retryDelayMs := None;
     Setup.configFilePath := configPath options;
     Setup.deploymentsPath := deploymentsPath options;
     Setup.writeDeployedDiamondData := Some true |}.

(** The three values [showConfiguration] prints as the effective tuning. *)
Definition shown_gasLimitMultiplier (config : Setup.RPCDiamondDeployerConfig)
    : number :=
  or_default (Setup.gasLimitMultiplier config) (Finite (6 # 5)).

Definition shown_maxRetries (config : Setup.RPCDiamondDeployerConfig) : number :=
  or_default (Setup.maxRetries config) (of_Z 3).

Definition shown_retryDelayMs (config : Setup.RPCDiamondDeployerConfig) : number :=
  or_default (Setup.retryDelayMs config) (of_Z 2000).

Definition showConfiguration (deployer : RPCDiamondDeployer) : script unit :=
  log [Str "Configuration Details"] ;;
  let config := getConfig deployer in
  networkInfo ← call GetNetworkInfo (getNetworkInfo deployer) ;
  log [Str "Diamond Name: "; show_string (Setup.diamondName config)] ;;
  log [Str "Network: "; show_string (Setup.networkName config);
       Str " (Chain ID: "; Num (of_Z (Setup.chainId config)); Str ")"] ;;
  log [Str "RPC URL: "; show_string (Setup.rpcUrl config)] ;;
  log [Str "Deployer: "; Str (ni_signerAddress networkInfo)] ;;
  log [Str "Deployments Path: ";
       Str (or_default (Setup.deploymentsPath config) "default")] ;;
  log [Str "Config File: ";
       Str (or_default (Setup.configFilePath config) "default")] ;;
  diamond ← call GetDiamond (getDiamond deployer) ;
  let deployConfig := getDeployConfig diamond in
  when (truthy (DeployConfig.protocolVersion deployConfig))
    (log [Str "Protocol Version: ";
          show_number (DeployConfig.protocolVersion deployConfig)]) ;;
  log [Str "Gas Limit Multiplier: "; Num (shown_gasLimitMultiplier config)] ;;
  log [Str "Max Retries: "; Num (shown_maxRetries config)] ;;
  log [Str "Retry Delay: "; Num (shown_retryDelayMs config); Str "ms"] ;;
  let facetNames := (default [] (DeployConfig.facets deployConfig)).*1 in
  when (0 <? length facetNames)%nat
    (log [Str "Configured Facets: "; Num (of_Z (Z.of_nat (length facetNames)))] ;;
     for_each facetNames (λ name, log [Str "   "; Str name])).

Definition showFacetsDetails (deployer : RPCDiamondDeployer) (verbose : bool)
    : script unit :=
  log [Str "Deployed Facets"] ;;
  diamond ← call GetDiamond (getDiamond deployer) ;
  let deployedFacets :=
    default [] (Deployed.DeployedFacets (getDeployedDiamondData diamond)) in
  if (length deployedFacets =? 0)%nat then
    log [Str "No facets deployed yet"]
  else
    for_each deployedFacets (λ '(name, facet),
      log [Str name] ;;
      log [Str "   Address: "; show_string (FacetData.address facet)] ;;
      match FacetData.funcSelectors facet with
      | Some selectors =>
          when verbose
            (log [Str "   Selectors: "; Num (of_Z (Z.of_nat (length selectors)))] ;;
             for_each selectors (λ selector, log [Str "     "; Str selector]))
      | None => mret tt
      end).

Definition show_status (s : Setup.DeploymentStatus) : string :=
  match s with
  | Setup.NOT_DEPLOYED => "NOT_DEPLOYED"
  | Setup.IN_PROGRESS => "IN_PROGRESS"
  | Setup.COMPLETED => "COMPLETED"
  | Setup.UPGRADE_AVAILABLE => "UPGRADE_AVAILABLE"
  end.

Definition checkStatus (w : World) (options : StatusOptions) : script unit :=
  try_catch
    (validateOptions options ;;
     let config := createConfig options in
     log [Str "RPC Diamond Status Check"] ;;
     log [Str "Diamond Name: "; show_string (Setup.diamondName config)] ;;
     log [Str "RPC URL: "; show_string (Setup.rpcUrl config)] ;;
     log [Str "Initializing RPCDiamondDeployer..."] ;;
     deployer ← call (GetInstance config) (getInstance w config) ;
     let status := getDeploymentStatus deployer in
     let deployed := isDiamondDeployed deployer in
     log [Str "Deployment Status"] ;;
     log [Str "Status: "; Str (show_status status)] ;;
     log [Str "Diamond Deployed: "; Str (if deployed then "Yes" else "No")] ;;
     (if deployed then
        diamond ← call GetDiamond (getDiamond deployer) ;
        let deployedData := getDeployedDiamondData diamond in
        log [Str "Diamond Address: ";
             show_string (Deployed.DiamondAddress deployedData)] ;;
        when (truthy (Deployed.protocolVersion deployedData))
          (log [Str "Protocol Version: ";
                show_number (Deployed.protocolVersion deployedData)]) ;;
        match Deployed.DeployedFacets deployedData with
        | Some fs => log [Str "Deployed Facets: "; Num (key_count fs)]
        | None => mret tt
        end
      else mret tt) ;;
     (if deployed then
        networkInfo ← call GetNetworkInfo (getNetworkInfo deployer) ;
        log [Str "Deployer Balance: "; Num (scaled (ni_balance networkInfo) 18);
             Str " ETH"] ;;
        log [Str "Current Gas Price: "; Num (scaled (ni_gasPrice networkInfo) 9);
             Str " gwei"] ;;
        log [Str "Block Number: "; Num (of_Z (ni_blockNumber networkInfo))]
      else mret tt) ;;
     log [Str "Configuration Validation"] ;;
     validation ← call ValidateConfiguration (validateConfiguration deployer) ;
     (if valid validation then log [Str "Configuration is valid"]
      else
        log [Str "Configuration validation failed:"] ;;
        for_each (errors validation) (λ e, error [Str "  - "; Str e])) ;;
     when (truthy (showConfig options)) (showConfiguration deployer) ;;
     when (truthy (showFacets options) && deployed)
       (showFacetsDetails deployer (truthy (verbose options))) ;;
     when (truthy (showSelectors options) && deployed)
       (call (Routine "showSelectorsRegistry") (routine w "showSelectorsRegistry")) ;;
     when (truthy (onChainValidation options) && deployed)
       (call (Routine "validateOnChain") (routine w "validateOnChain")) ;;
     log [Str "Status check completed"])
    (fail_with "Status check failed:" (verbose options)).

(** What the command line of [check] holds. *)
Record CheckArgs := {
  opt_diamondName : option string;
  opt_rpcUrl : option string;
  opt_privateKey : option string;
  opt_networkName : option string;
  opt_configPath : option string;
  opt_deploymentsPath : option string;
  flag_onChainValidation : bool;
  flag_showConfig : bool;
  flag_showFacets : bool;
  flag_showSelectors : bool;
  flag_verbose : bool
}.

(** A boolean flag without a default is undefined unless given. *)
Definition bare_flag (given : bool) : option bool :=
  if given then Some true else None.

Definition check_options (env : Env) (argv : CheckArgs) : StatusOptions :=
  {| diamondName := plain_option (env !! "DIAMOND_NAME") (opt_diamondName argv);
     rpcUrl := plain_option (env !! "RPC_URL") (opt_rpcUrl argv);
     privateKey := plain_option (env !! "PRIVATE_KEY") (opt_privateKey argv);
     networkName := plain_option (env !! "NETWORK_NAME") (opt_networkName argv);
     configPath :=
       plain_option (env !! "DIAMOND_CONFIG_PATH") (opt_configPath argv);
     deploymentsPath :=
       plain_option (env !! "DEPLOYMENTS_PATH") (opt_deploymentsPath argv);
     onChainValidation := bare_flag (flag_onChainValidation argv);
     showConfig := bare_flag (flag_showConfig argv);
     showFacets := bare_flag (flag_showFacets argv);
     showSelectors := bare_flag (flag_showSelectors argv);
     verbose := Some (flag_option (env_verbose env) (flag_verbose argv)) |}.

Definition check_command (w : World) (env : Env) (argv : CheckArgs)
    : script unit :=
  checkStatus w (check_options env argv).

End StatusRpc.

(* ===================================================================== *)
(** ** scripts/deploy/rpc/verify-rpc.ts                                   *)
(* ===================================================================== *)

Module VerifyRpc.

Record VerifyOptions := {
  diamondName : option string;
  networkName : option string;
  rpcUrl : option string;
  privateKey : option string;
  verbose : option bool;
  configPath : option string;
  deploymentsPath : option string;
  etherscanApiKey : option string;
  blockExplorerUrl : option string;
  verifyContracts : option bool;
  validateAbi : option bool;
  validateSelectors : option bool;
  compareOnChain : option bool;
  useHardhatConfig : option bool
}.

Definition validation_errors (env : Env) (options : VerifyOptions)
    : list string :=
  rpc_validation_errors env (diamondName options) (networkName options)
    (privateKey options) (rpcUrl options) (useHardhatConfig options).

Definition validateOptions (env : Env) (options : VerifyOptions)
    : script unit :=
  report_errors (validation_errors env options).

Definition legacy_config (env : Env) (options : VerifyOptions)
    (privateKey : option string) : Setup.RPCDiamondDeployerConfig :=
  {| Setup.diamondName := diamondName options;
     Setup.rpcUrl := or_else (rpcUrl options) (env !! "RPC_URL");
     Setup.privateKey := privateKey;
     Setup.networkName := Some (or_default (networkName options) "unknown");
     Setup.chainId := 0;
     Setup.verbose := Some (or_default (verbose options) false);
     Setup.gasLimitMultiplier := None;
     Setup.maxRetries := None;
     Setup.retryDelayMs := None;
     Setup.configFilePath := configPath options;
     Setup.deploymentsPath := deploymentsPath options;
     Setup.writeDeployedDiamondData := Some true |}.

Definition createConfig (w : World) (env : Env) (options : VerifyOptions)
    : script Setup.RPCDiamondDeployerConfig :=
  let privateKey :=
    or_else (or_else (privateKey options) (env !! "PRIVATE_KEY"))
            (env !! "TEST_PRIVATE_KEY") in
  fromHardhat ←
    (if negb (bool_decide (useHardhatConfig options = Some false))
        && falsy (rpcUrl options)
     then
       log [Str "Using hardhat configuration for diamond and network settings"] ;;
       try_catch
         (let overrides :=
            {| Setup.o_verbose := verbose options;
               Setup.o_gasLimitMultiplier := None;
               Setup.o_maxRetries := None;
               Setup.o_retryDelayMs := None |} in
          let network := Some (or_default (networkName options) "unknown") in
          config ← call
            (CreateConfigFromHardhat (diamondName options) network overrides)
            (createConfigFromHardhat w (diamondName options) network
               privateKey overrides) ;
          mret (Some config))
         (λ err,
            error [Str "Failed to load hardhat configuration: "; Str err] ;;
            log [Str "Falling back to manual configuration..."] ;;
            mret None)
     else mret None) ;
  match fromHardhat with
  | Some config => mret config
  | None => mret (legacy_config env options privateKey)
  end.

Definition showContractVerificationInfo (options : VerifyOptions) : script unit :=
  log [Str "Contract Verification Information"] ;;
  (if truthy (etherscanApiKey options) then
     log [Str "Etherscan API key provided"] ;;
     log [Str "Automatic verification may be possible"]
   else
     log [Str "No Etherscan API key provided"] ;;
     log [Str "Manual verification will be required"]) ;;
  (if truthy (blockExplorerUrl options) then
     log [Str "Block Explorer: "; show_string (blockExplorerUrl options)]
   else log [Str "Block Explorer: Auto-detect based on network"]) ;;
  log [Str "Manual Verification Steps:"] ;;
  log [Str "   1. Visit your block explorer (e.g., Etherscan)"] ;;
  log [Str "   2. Navigate to each contract address"] ;;
  log [Str "   3. Use 'Verify and Publish' with contract source"] ;;
  log [Str "   4. Ensure compiler version matches deployment"].

Inductive step :=
| ValidateABIs
| ValidateSelectors
| CompareOnChainState
| ShowContractVerificationInfo.

#[export] Instance step_eq_dec : EqDecision step.
Proof. solve_decision. Defined.

(** The four conditionals that close [verifyDeployment], read as the list
    of steps they select, in the order they run. *)
Definition verification_steps (options : VerifyOptions) : list step :=
  (if truthy (validateAbi options)
      || falsy (verifyContracts options) && falsy (validateSelectors options)
         && falsy (compareOnChain options)
   then [ValidateABIs] else [])
  ++ (if truthy (validateSelectors options)
         || falsy (verifyContracts options) && falsy (validateAbi options)
            && falsy (compareOnChain options)
      then [ValidateSelectors] else [])
  ++ (if truthy (compareOnChain options)
         || falsy (verifyContracts options) && falsy (validateAbi options)
            && falsy (validateSelectors options)
      then [CompareOnChainState] else [])
  ++ (if truthy (verifyContracts options)
      then [ShowContractVerificationInfo] else []).

Definition run_step (w : World) (options : VerifyOptions) (s : step)
    : script unit :=
  match s with
  | ValidateABIs => call (Routine "validateABIs") (routine w "validateABIs")
  | ValidateSelectors =>
      call (Routine "validateSelectors") (routine w "validateSelectors")
  | CompareOnChainState =>
      call (Routine "compareOnChainState") (routine w "compareOnChainState")
  | ShowContractVerificationInfo => showContractVerificationInfo options
  end.

(** The routine a step stands for, when it is one that reads the chain. *)
Definition routine_of (s : step) : option string :=
  match s with
  | ValidateABIs => Some "validateABIs"
  | ValidateSelectors => Some "validateSelectors"
  | CompareOnChainState => Some "compareOnChainState"
  | ShowContractVerificationInfo => None
  end.

Definition verifyDeployment (w : World) (env : Env) (options : VerifyOptions)
    : script unit :=
  try_catch
    (validateOptions env options ;;
     config ← createConfig w env options ;
     log [Str "RPC Diamond Verification"] ;;
     log [Str "Diamond Name: "; show_string (Setup.diamondName config)] ;;
     log [Str "RPC URL: "; show_string (Setup.rpcUrl config)] ;;
     log [Str "Initializing RPCDiamondDeployer..."] ;;
     deployer ← call (GetInstance config) (getInstance w config) ;
     (if negb (isDiamondDeployed deployer) then
        error [Str "Diamond is not deployed yet. Use deploy-rpc.ts first."] ;;
        exit 1
      else mret tt) ;;
     log [Str "Diamond deployment found"] ;;
     emit (NewJsonRpcProvider (Setup.rpcUrl config)) ;;
     log [Str "Configuration Validation"] ;;
     validation ← call ValidateConfiguration (validateConfiguration deployer) ;
     (if valid validation then log [Str "Configuration is valid"]
      else
        log [Str "Configuration validation failed:"] ;;
        for_each (errors validation) (λ e, error [Str "  - "; Str e])) ;;
     networkInfo ← call GetNetworkInfo (getNetworkInfo deployer) ;
     log [Str "Network Information"] ;;
     log [Str "Network: "; Str (ni_networkName networkInfo);
          Str " (Chain ID: "; Num (of_Z (ni_chainId networkInfo)); Str ")"] ;;
     log [Str "Block Number: "; Num (of_Z (ni_blockNumber networkInfo))] ;;
     log [Str "Gas Price: "; Num (scaled (ni_gasPrice networkInfo) 9);
          Str " gwei"] ;;
     for_each (verification_steps options) (run_step w options) ;;
     log [Str "Verification completed successfully!"])
    (fail_with "Verification failed:" (verbose options)).

(** What the command line of [verify [diamondName] [networkName]] holds;
    [full] takes the same but for the four step flags. *)
Record VerifyArgs := {
  arg_diamondName : option string;
  arg_networkName : option string;
  opt_privateKey : option string;
  opt_rpcUrl : option string;
  flag_noHardhatConfig : bool;
  opt_etherscanApiKey : option string;
  opt_blockExplorerUrl : option string;
  flag_verifyContracts : bool;
  flag_validateAbi : bool;
  flag_validateSelectors : bool;
  flag_compareOnChain : bool;
  flag_verbose : bool
}.

(** A boolean flag without a default is undefined unless given. *)
Definition bare_flag (given : bool) : option bool :=
  if given then Some true else None.

Definition verify_options (env : Env) (argv : VerifyArgs) : VerifyOptions :=
  {| diamondName :=
       Some (or_default (or_else (arg_diamondName argv) (env !! "DIAMOND_NAME")) "");
     networkName :=
       Some (or_default (or_else (arg_networkName argv) (env !! "NETWORK_NAME")) "");
     privateKey := plain_option (env !! "PRIVATE_KEY") (opt_privateKey argv);
     rpcUrl := plain_option (env !! "RPC_URL") (opt_rpcUrl argv);
     useHardhatConfig := Some (negb (flag_noHardhatConfig argv));
     verbose := Some (flag_option (env_verbose env) (flag_verbose argv));
     etherscanApiKey :=
       plain_option (env !! "ETHERSCAN_API_KEY") (opt_etherscanApiKey argv);
     blockExplorerUrl :=
       plain_option (env !! "BLOCK_EXPLORER_URL") (opt_blockExplorerUrl argv);
     verifyContracts := bare_flag (flag_verifyContracts argv);
     validateAbi := bare_flag (flag_validateAbi argv);
     validateSelectors := bare_flag (flag_validateSelectors argv);
     compareOnChain := bare_flag (flag_compareOnChain argv);
     configPath := None;
     deploymentsPath := None |}.

Definition verify_command (w : World) (env : Env) (argv : VerifyArgs)
    : script unit :=
  verifyDeployment w env (verify_options env argv).

(** [full] declares no step flag and enables all four. *)
Definition full_options (env : Env) (argv : VerifyArgs) : VerifyOptions :=
  {| diamondName :=
       Some (or_default (or_else (arg_diamondName argv) (env !! "DIAMOND_NAME")) "");
     networkName :=
       Some (or_default (or_else (arg_networkName argv) (env !! "NETWORK_NAME")) "");
     privateKey := plain_option (env !! "PRIVATE_KEY") (opt_privateKey argv);
     rpcUrl := plain_option (env !! "RPC_URL") (opt_rpcUrl argv);
     useHardhatConfig := Some (negb (flag_noHardhatConfig argv));
     verbose := Some (flag_option (env_verbose env) (flag_verbose argv));
     etherscanApiKey :=
       plain_option (env !! "ETHERSCAN_API_KEY") (opt_etherscanApiKey argv);
     blockExplorerUrl :=
       plain_option (env !! "BLOCK_EXPLORER_URL") (opt_blockExplorerUrl argv);
     verifyContracts := Some true;
     validateAbi := Some true;
     validateSelectors := Some true;
     compareOnChain := Some true;
     configPath := None;
     deploymentsPath := None |}.

Definition full_command (w : World) (env : Env) (argv : VerifyArgs)
    : script unit :=
  verifyDeployment w env (full_options env argv).

(** The options the [quick] command builds from the environment and its
    three step flags. *)
Definition quick_options (env : Env)
    (flag_abi flag_selectors flag_onChain flag_verbose : bool) : VerifyOptions :=
  {| diamondName := env !! "DIAMOND_NAME";
     networkName := env !! "NETWORK_NAME";
     rpcUrl := None;
     privateKey := None;
     verbose := Some (flag_option (env_verbose env) flag_verbose);
     configPath := None;
     deploymentsPath := None;
     etherscanApiKey := None;
     blockExplorerUrl := None;
     verifyContracts := None;
     validateAbi := bare_flag flag_abi;
     validateSelectors := bare_flag flag_selectors;
     compareOnChain := bare_flag flag_onChain;
     useHardhatConfig := Some true |}.

Definition quick_command (w : World) (env : Env)
    (flag_abi flag_selectors flag_onChain flag_verbose : bool) : script unit :=
  let diamondName := env !! "DIAMOND_NAME" in
  let networkName := env !! "NETWORK_NAME" in
  (if falsy diamondName || falsy networkName then
     error [Str "Required environment variables missing:"] ;;
     when (falsy diamondName) (error [Str "   - DIAMOND_NAME"]) ;;
     when (falsy networkName) (error [Str "   - NETWORK_NAME"]) ;;
     error [Str "Example: DIAMOND_NAME=ExampleDiamond NETWORK_NAME=sepolia npx ts-node verify-rpc.ts quick"] ;;
     exit 1
   else mret tt) ;;
  verifyDeployment w env
    (quick_options env flag_abi flag_selectors flag_onChain flag_verbose).

End VerifyRpc.

(* ===================================================================== *)
(** ** scripts/utils/verify-diamond.ts                                    *)
(* ===================================================================== *)

Module VerifyDiamond.

(** An entry of [FacetDeployedInfo]; of its fields the script reads the
    address and reads and writes the verification flag. *)
Record FacetInfo := {
  address : option string;
  verified : option bool
}.

(** An object keeps its keys in insertion order, which [for ... in]
    follows, and holds each key once. *)
Record INetworkDeployInfo := {
  DiamondAddress : option string;
  DeployerAddress : option string;
  FacetDeployedInfo : list (string * FacetInfo)
}.

(** [hre.run('verify:verify', ...)] and [ethers.getContractAt]. *)
Record Hardhat := {
  run_verify : option string → list (option string) → answer unit;
  getContractAt : string → option string → answer unit
}.

Definition mark_verified (info : FacetInfo) : FacetInfo :=
  {| address := address info; verified := Some true |}.

(** The loop over the facets.  The entries are updated in place, so what
    was written before an exception stays written: the result is the
    object as the loop leaves it, with the run. *)
Fixpoint verify_facets (h : Hardhat) (diamondAddress : option string)
    (entries : list (string * FacetInfo))
    : list (string * FacetInfo) * script unit :=
  match entries with
  | [] => ([], mret tt)
  | (facetName, facetContractInfo) :: rest =>
      if falsy (verified facetContractInfo) then
        let facetAddress := address facetContractInfo in
        let attempt :=
          call (GetContractAt facetName diamondAddress)
               (getContractAt h facetName diamondAddress) ;;
          call (HreRunVerify facetAddress [])
               (run_verify h facetAddress []) in
        match result attempt with
        | Returned _ =>
            let '(rest', run) := verify_facets h diamondAddress rest in
            ((facetName, mark_verified facetContractInfo) :: rest',
             attempt ;; run)
        | _ => (entries, attempt)
        end
      else
        let '(rest', run) := verify_facets h diamondAddress rest in
        ((facetName, facetContractInfo) :: rest', run)
  end.

Definition VerifyContracts (h : Hardhat) (networkDeployInfo : INetworkDeployInfo)
    : INetworkDeployInfo * script unit :=
  let facets := FacetDeployedInfo networkDeployInfo in
  let cut := Ordered.get facets "DiamondCutFacet" in
  let first : script unit :=
    if falsy (cut ≫= verified) then
      match cut with
      | Some cutInfo =>
          let args := [DeployerAddress networkDeployInfo; address cutInfo] in
          call (HreRunVerify (DiamondAddress networkDeployInfo) args)
               (run_verify h (DiamondAddress networkDeployInfo) args)
      | None =>
          throw "TypeError: Cannot read properties of undefined (reading 'address')"
      end
    else mret tt in
  match result first with
  | Returned _ =>
      let '(facets', run) :=
        verify_facets h (DiamondAddress networkDeployInfo) facets in
      ({| DiamondAddress := DiamondAddress networkDeployInfo;
          DeployerAddress := DeployerAddress networkDeployInfo;
          FacetDeployedInfo := facets' |},
       first ;; run)
  | _ => (networkDeployInfo, first)
  end.

(** [main]: run as a script on a network that has a deployment record, it
    verifies the contracts unless the network is local and writes the
    records back unless the network is hardhat.  [isMain] is
    [require.main === module], [write] the answer of [writeDeployedInfo].
    A failure is printed and sets the exit code, with which the process
    ends.  The records are updated in place: the result is the object as
    the run leaves it, with the run.

    [networkName in deployments] also holds of a name the object inherits;
    what [deployments[networkName]] then yields has no [FacetDeployedInfo],
    and [VerifyContracts] fails on its first read. *)
Definition main (isMain : bool) (networkName : string)
    (deployments : list (string * INetworkDeployInfo)) (h : Hardhat)
    (write : answer unit)
    : list (string * INetworkDeployInfo) * script unit :=
  if isMain then
    match Ordered.get deployments networkName with
    | Some networkDeployInfo =>
        let '(info', verify) :=
          if bool_decide (networkName ∉ ["hardhat"; "localhost"])
          then VerifyContracts h networkDeployInfo
          else (networkDeployInfo, mret tt) in
        (Ordered.set deployments networkName info',
         try_catch
           (verify ;;
            when (bool_decide (networkName ≠ "hardhat"))
              (call (Routine "writeDeployedInfo") write))
           (λ err, error [Str err] ;; exit 1))
    | None =>
        if bool_decide (networkName ∈ inherited_names) then
          (deployments,
           try_catch
             (throw "TypeError: Cannot read properties of undefined (reading 'DiamondCutFacet')")
             (λ err, error [Str err] ;; exit 1))
        else (deployments, mret tt)
    end
  else (deployments, mret tt).

End VerifyDiamond.

(* ===================================================================== *)
(** ** scripts/utils/verify-diamond.ts: the check of the deployed diamond *)
(* ===================================================================== *)

Module VerifyDeployed.

(** What the chain and the file system answer to the script: the network
    of the provider, the loupe's [facets()], whether the diamond ABI file
    exists and reading it, and the three calls tried on the diamond. *)
Record Chain := {
  getNetwork : answer (string * Z);
  facets : answer (list (string * list string));
  abiExists : bool;
  readAbi : answer unit;
  supportsInterface : answer bool;
  owner : answer string;
  protocolVersion : answer number
}.

Definition diamondAddress : string :=
  "0xB44476E2aFBe1D10F6FE9ca11B23e200033c56f7".

(** The loop over the facets: one line each, the selectors counted. *)
Fixpoint list_facets (i : nat) (fs : list (string * list string))
    (totalSelectors : Z) : script Z :=
  match fs with
  | [] => mret totalSelectors
  | facet :: rest =>
      let selectorCount := Z.of_nat (length facet.2) in
      let totalSelectors := (totalSelectors + selectorCount)%Z in
      log [Str "   "; Num (of_Z (Z.of_nat (i + 1))); Str ". "; Str facet.1;
           Str " - "; Num (of_Z selectorCount); Str " selectors"] ;;
      list_facets (S i) rest totalSelectors
  end.

Definition show_bool (b : bool) : fragment :=
  Str (if b then "true" else "false").

(** The calls tried once the facets are listed; whatever fails here is
    reported and passed over. *)
Definition test_functions (c : Chain) : script unit :=
  try_catch
    (if abiExists c then
       call (Routine "readDiamondAbi") (readAbi c) ;;
       hasERC165 ← call (Routine "supportsInterface") (supportsInterface c) ;
       log [Str "   ERC165 Support: "; show_bool hasERC165] ;;
       try_catch
         (o ← call (Routine "owner") (owner c) ;
          log [Str "   Owner: "; Str o])
         (λ _, log [Str "   Owner function not available or failed"]) ;;
       try_catch
         (v ← call (Routine "protocolVersion") (protocolVersion c) ;
          log [Str "   Protocol Version: "; Num v])
         (λ _, log [Str "   Protocol version not available"]) ;;
       log [Str "Diamond verification completed successfully!"]
     else
       log [Str "Diamond ABI not found"] ;;
       log [Str "Basic DiamondLoupe verification completed successfully!"])
    (λ funcError,
       log [Str "Some functions may not be available: "; Str funcError] ;;
       log [Str "Basic DiamondLoupe verification completed successfully!"]).

(** The body of [main]; [network] is [process.argv[2]]. *)
Definition body (env : Env) (network : option string) (c : Chain)
    : script unit :=
  let networkName := or_default network "sepolia" in
  log [Str "Verifying Diamond deployment..."] ;;
  log [Str "Diamond Address: "; Str diamondAddress] ;;
  log [Str "Network: "; Str networkName] ;;
  let rpcUrl := env !! "SEPOLIA_RPC" in
  (if falsy rpcUrl
   then throw "SEPOLIA_RPC not set in environment variables"
   else mret tt) ;;
  emit (NewJsonRpcProvider rpcUrl) ;;
  net ← call QueryNetwork (getNetwork c) ;
  log [Str "Connected to network: "; Str net.1; Str " (Chain ID: ";
       Num (of_Z net.2); Str ")"] ;;
  try_catch
    (fs ← call (Routine "facets") (facets c) ;
     log [Str "Diamond has "; Num (of_Z (Z.of_nat (length fs))); Str " facets:"] ;;
     totalSelectors ← list_facets 0 fs 0 ;
     log [Str "Total function selectors: "; Num (of_Z totalSelectors)] ;;
     log [Str "Testing specific functions:"] ;;
     test_functions c)
    (λ err,
       error [Str "Diamond verification failed:"; Str err] ;;
       exit 1).

(** [main().then(() => process.exit(0)).catch(...)] *)
Definition main (env : Env) (network : option string) (c : Chain)
    : script unit :=
  try_catch
    (body env network c ;; exit 0)
    (λ err, error [Str err] ;; exit 1).

End VerifyDeployed.

(* ===================================================================== *)
(** ** The selector registry                                              *)
(* ===================================================================== *)

(** Modelled from the spec: the data model of section 3, which the sources
    under study only read.  A selector is the 32-bit value of its four
    bytes, an address the 160-bit value of its twenty; a facet record, a
    registry entry and a cut operation carry the fields listed there. *)
Abbreviation Selector := N (only parsing).
Abbreviation Address := N (only parsing).

Inductive Action := Add | Replace | Remove | NoAction.

#[export] Instance Action_eq_dec : EqDecision Action.
Proof. solve_decision. Defined.

Module FacetRecord.
Record t := {
  name : string;
  address : Address;
  selectors : list Selector;
  priority : Z
}.
End FacetRecord.

Module RegistryEntry.
Record t := {
  selector : Selector;
  facetName : string;
  priority : Z;
  action : Action
}.
End RegistryEntry.

Module CutOperation.
Record t := {
  action : Action;
  facetAddress : Address;
  selectors : list Selector
}.
End CutOperation.

Module Registry.

(** Modelled from the spec: the Selector Registry of section 4.1, which the
    sources only read ([diamond.functionSelectorRegistry] in status-rpc.ts,
    through [size] and [entries()], hence a Map in registration order).
    [register] inserts or overwrites; an entry gives way to a claim of the
    same or a higher priority and stands against a lower one, so that the
    higher priority wins and a tie goes to the latest registration.  In
    the scenario of section 8 priority 2 wins over priority 1: the larger
    number is the higher priority. *)
Definition register (selector : Selector) (facetName : string) (priority : Z)
    (registry : list (Selector * RegistryEntry.t))
    : list (Selector * RegistryEntry.t) :=
  let entry :=
    {| RegistryEntry.selector := selector;
       RegistryEntry.facetName := facetName;
       RegistryEntry.priority := priority;
       RegistryEntry.action := NoAction |} in
  match Ordered.get registry selector with
  | Some held =>
      if (priority <? RegistryEntry.priority held)%Z then registry
      else Ordered.set registry selector entry
  | None => Ordered.set registry selector entry
  end.

(** Modelled from the spec: [resolve(selector)] of section 4.1, the owning
    facet's name or absent. *)
Definition resolve (registry : list (Selector * RegistryEntry.t))
    (selector : Selector) : option string :=
  RegistryEntry.facetName <$> Ordered.get registry selector.

(** Modelled from the spec: [entriesForFacet(facetName)] of section 4.1. *)
Definition entriesForFacet (registry : list (Selector * RegistryEntry.t))
    (facetName : string) : list Selector :=
  (filter (λ kv, RegistryEntry.facetName kv.2 = facetName) registry).*1.

(** Modelled from the spec: a target facet claims each of its selectors, in
    the order it lists them. *)
Definition register_facet (registry : list (Selector * RegistryEntry.t))
    (facet : FacetRecord.t) : list (Selector * RegistryEntry.t) :=
  foldl (λ reg s, register s (FacetRecord.name facet) (FacetRecord.priority facet) reg)
        registry (FacetRecord.selectors facet).

(** Modelled from the spec: step 1 of the Reconciler (section 4.2), the
    registry built afresh from the target configuration, facet by facet in
    the order given. *)
Definition build (target : list FacetRecord.t)
    : list (Selector * RegistryEntry.t) :=
  foldl register_facet [] target.

End Registry.

(* ===================================================================== *)
(** ** The facet reconciler                                               *)
(* ===================================================================== *)

Module Reconciler.

(** Modelled from the spec: the resolved facet address of step 2, the
    address of the target facet of that name. *)
Definition facetAddress (target : list FacetRecord.t) (name : string)
    : option Address :=
  FacetRecord.address
    <$> List.find (λ f, bool_decide (FacetRecord.name f = name)) target.

(** Modelled from the spec: step 2 of section 4.2.  A registered selector
    absent on chain is added, one owned by another address is replaced,
    one already owned by its facet needs nothing. *)
Definition pending (target : list FacetRecord.t) (onChain : gmap Selector Address)
    (selector : Selector) (entry : RegistryEntry.t) : Action :=
  match facetAddress target (RegistryEntry.facetName entry) with
  | None => NoAction
  | Some a =>
      match onChain !! selector with
      | None => Add
      | Some owner => if decide (owner = a) then NoAction else Replace
      end
  end.

(** Modelled from the spec: the additions and replacements of step 2, in
    the order of the registry. *)
Definition registry_items (target : list FacetRecord.t)
    (onChain : gmap Selector Address)
    (registry : list (Selector * RegistryEntry.t))
    : list (Action * Address * Selector) :=
  omap (λ '(s, entry),
          match pending target onChain s entry,
                facetAddress target (RegistryEntry.facetName entry) with
          | Add, Some a => Some (Add, a, s)
          | Replace, Some a => Some (Replace, a, s)
          | _, _ => None
          end) registry.

(** Modelled from the spec: steps 3 and 5 of section 4.2.  A selector on
    chain that the registry does not hold is removed from its owner,
    unless the owner is the cut-management facet, whose selectors are
    never removed for being absent from the target. *)
Definition orphan_items (cutFacet : Address)
    (onChain : gmap Selector Address)
    (registry : list (Selector * RegistryEntry.t))
    : list (Action * Address * Selector) :=
  omap (λ '(s, owner),
          match Ordered.get registry s with
          | None => if decide (owner = cutFacet) then None
                    else Some (Remove, owner, s)
          | Some _ => None
          end) (map_to_list onChain).

(** Modelled from the spec: step 4 of section 4.2, consecutive items of
    one action and one facet joined into one operation. *)
Fixpoint group (items : list (Action * Address * Selector))
    : list CutOperation.t :=
  match items with
  | [] => []
  | (act, a, s) :: rest =>
      match group rest with
      | op :: ops =>
          if decide (CutOperation.action op = act
                     ∧ CutOperation.facetAddress op = a)
          then {| CutOperation.action := act;
                  CutOperation.facetAddress := a;
                  CutOperation.selectors := s :: CutOperation.selectors op |}
               :: ops
          else {| CutOperation.action := act;
                  CutOperation.facetAddress := a;
                  CutOperation.selectors := [s] |} :: op :: ops
      | [] => [{| CutOperation.action := act;
                  CutOperation.facetAddress := a;
                  CutOperation.selectors := [s] |}]
      end
  end.

(** Modelled from the spec: the operations of one kind, in the order
    found. *)
Definition with_action (act : Action) (ops : list CutOperation.t)
    : list CutOperation.t :=
  filter (λ op, CutOperation.action op = act) ops.

(** Modelled from the spec: the order of step 4, Add before Replace before
    Remove. *)
Definition sort_groups (ops : list CutOperation.t) : list CutOperation.t :=
  with_action Add ops ++ with_action Replace ops ++ with_action Remove ops.

(** Modelled from the spec: the Facet Reconciler of section 4.2, from the
    target configuration and the selector-to-facet mapping read from the
    chain to the ordered list of cut operations. *)
Definition reconcile (cutFacet : Address) (target : list FacetRecord.t)
    (onChain : gmap Selector Address) : list CutOperation.t :=
  let registry := Registry.build target in
  sort_groups
    (group (registry_items target onChain registry
            ++ orphan_items cutFacet onChain registry)).

(** Modelled from the spec: the simulated diamond cut of section 8.  Add
    and Replace route a selector to the facet, Remove takes it away. *)
Definition apply_selector (act : Action) (a : Address)
    (onChain : gmap Selector Address) (s : Selector) : gmap Selector Address :=
  match act with
  | Add | Replace => <[s := a]> onChain
  | Remove => delete s onChain
  | NoAction => onChain
  end.

(** Modelled from the spec: one operation applied selector by selector. *)
Definition apply_operation (onChain : gmap Selector Address)
    (op : CutOperation.t) : gmap Selector Address :=
  foldl (apply_selector (CutOperation.action op) (CutOperation.facetAddress op))
        onChain (CutOperation.selectors op).

(** Modelled from the spec: the operations applied in their order. *)
Definition apply_cut (ops : list CutOperation.t)
    (onChain : gmap Selector Address) : gmap Selector Address :=
  foldl apply_operation onChain ops.

End Reconciler.

(* ===================================================================== *)
(** ** The RPC resilience layer                                           *)
(* ===================================================================== *)

Module Resilience.

(** Modelled from the spec: the failures section 4.4 tells apart.  Nonce
    races, transient timeouts and underpriced-gas rejections are retriable;
    insufficient balance, reverted execution and malformed call data are
    fatal. *)
Inductive Failure :=
| NonceRace
| RpcTimeout
| UnderpricedGas
| InsufficientBalance
| ExecutionReverted
| MalformedCallData.

(** Modelled from the spec: the retriable failures of section 4.4. *)
Definition retriable (f : Failure) : bool :=
  match f with
  | NonceRace | RpcTimeout | UnderpricedGas => true
  | InsufficientBalance | ExecutionReverted | MalformedCallData => false
  end.

(** Modelled from the spec: the TransactionError of sections 4.4 and 7, in
    its retriable subclass (surfaced once the retries are used up) and its
    fatal one (surfaced on first occurrence). *)
Inductive TransactionError :=
| RetriesExhausted (last : option Failure)
| Fatal (cause : Failure).

(** Modelled from the spec: the subclass of an error. *)
Definition isRetriable (e : TransactionError) : bool :=
  match e with
  | RetriesExhausted _ => true
  | Fatal _ => false
  end.

(** Modelled from the spec: the configurable bounds of section 4.4. *)
Record Policy := {
  maxRetries : nat;
  retryDelayMs : Z
}.

(** Modelled from the spec: what the layer does on the network, an attempt
    of the call or a wait between two attempts. *)
Inductive step :=
| Attempt (number : nat)
| Wait (ms : Z).

(** Modelled from the spec: the retry loop of section 4.4.  The call is
    given by its answer at each attempt.  A success ends the loop, a fatal
    failure leaves it at once, a retriable one is followed, while attempts
    remain, by the fixed delay and the next attempt. *)
Fixpoint attempts {A} (policy : Policy) (rpc : nat → Failure + A)
    (remaining : nat) (number : nat) (last : option Failure)
    : list step * (TransactionError + A) :=
  match remaining with
  | O => ([], inl (RetriesExhausted last))
  | S fewer =>
      match rpc number with
      | inr value => ([Attempt number], inr value)
      | inl failure =>
          if retriable failure then
            let '(steps, outcome) :=
              attempts policy rpc fewer (S number) (Some failure) in
            (Attempt number
               :: match fewer with
                  | O => steps
                  | S _ => Wait (retryDelayMs policy) :: steps
                  end,
             outcome)
          else ([Attempt number], inl (Fatal failure))
      end
  end.

(** Modelled from the spec: a network call wrapped by the layer. *)
Definition withRetry {A} (policy : Policy) (rpc : nat → Failure + A)
    : list step * (TransactionError + A) :=
  attempts policy rpc (maxRetries policy) 0 None.

(** Modelled from the spec: how often the call was tried. *)
Definition attempted (steps : list step) : nat :=
  length (List.filter (λ s, match s with Attempt _ => true | Wait _ => false end)
            steps).

End Resilience.

(* ===================================================================== *)
(** ** What the statements speak of                                       *)
(* ===================================================================== *)

(** Any event but the call that deploys or upgrades. *)
Definition not_a_deployment (e : event) : Prop := e ≠ DeployDiamond.

(** What [deploy_unless_deployed] prints about a diamond found deployed. *)
Definition existing_report (d : Deployed.t) : list event :=
  [ConsoleLog [Str "Diamond is already deployed. Use upgrade-rpc.ts for upgrades."];
   GetDiamond;
   ConsoleLog [Str "Current Diamond Address: ";
               show_string (Deployed.DiamondAddress d)]]
  ++ (if truthy (Deployed.protocolVersion d)
      then [ConsoleLog [Str "Current Protocol Version: ";
                        show_number (Deployed.protocolVersion d)]]
      else []).

(** An upgrade is called for: the force flag is set, or the persisted
    record and the target configuration both carry a protocol version and
    the deployed one is strictly less than the target. *)
Definition upgrade_called_for (o : UpgradeRpc.UpgradeOptions) (diamond : Diamond)
    : Prop :=
  UpgradeRpc.force o = Some true
  ∨ ∃ dv cv,
      Deployed.protocolVersion (getDeployedDiamondData diamond) = Some dv
      ∧ DeployConfig.protocolVersion (getDeployConfig diamond) = Some cv
      ∧ JS.lt dv cv = true.

(** An entry as [VerifyContracts] leaves it. *)
Definition settled (entry : string * VerifyDiamond.FacetInfo)
    : string * VerifyDiamond.FacetInfo :=
  (entry.1, if falsy (VerifyDiamond.verified entry.2)
            then VerifyDiamond.mark_verified entry.2 else entry.2).

(** What the loop submits for an entry: nothing when it is marked
    verified, else the contract lookup and the verification of its
    address. *)
Definition submitted (diamondAddress : option string)
    (entry : string * VerifyDiamond.FacetInfo) : list event :=
  if falsy (VerifyDiamond.verified entry.2)
  then [GetContractAt entry.1 diamondAddress;
        HreRunVerify (VerifyDiamond.address entry.2) []]
  else [].

(** What comes before the loop: the diamond itself is submitted unless the
    cut facet is marked verified. *)
Definition submitted_diamond (info : VerifyDiamond.INetworkDeployInfo)
    : list event :=
  match Ordered.get (VerifyDiamond.FacetDeployedInfo info) "DiamondCutFacet" with
  | Some cutInfo =>
      if falsy (VerifyDiamond.verified cutInfo)
      then [HreRunVerify (VerifyDiamond.DiamondAddress info)
              [VerifyDiamond.DeployerAddress info; VerifyDiamond.address cutInfo]]
      else []
  | None => []
  end.

(** The entry that holds a selector once a facet has claimed it. *)
Definition winner (held : option RegistryEntry.t) (s : Selector)
    (facetName : string) (priority : Z) : RegistryEntry.t :=
  let entry :=
    {| RegistryEntry.selector := s; RegistryEntry.facetName := facetName;
       RegistryEntry.priority := priority; RegistryEntry.action := NoAction |} in
  match held with
  | Some h => if (priority <? RegistryEntry.priority h)%Z then h else entry
  | None => entry
  end.

(** The entry of a selector after the facets of a list have registered. *)
Definition after_facets (s : Selector) (held : option RegistryEntry.t)
    (facets : list FacetRecord.t) : option RegistryEntry.t :=
  foldl (λ h f, if decide (s ∈ FacetRecord.selectors f)
                then Some (winner h s (FacetRecord.name f) (FacetRecord.priority f))
                else h)
        held facets.

(** The items of a list of operations, selector by selector. *)
Definition flatten (ops : list CutOperation.t)
    : list (Action * Address * Selector) :=
  ops ≫= λ op, (λ s, (CutOperation.action op, CutOperation.facetAddress op, s))
               <$> CutOperation.selectors op.

Definition apply_item (onChain : gmap Selector Address)
    (item : Action * Address * Selector) : gmap Selector Address :=
  Reconciler.apply_selector item.1.1 item.1.2 onChain item.2.

(** The items a run of the Reconciler plans, before they are grouped. *)
Definition planned (cutFacet : Address) (target : list FacetRecord.t)
    (onChain : gmap Selector Address) : list (Action * Address * Selector) :=
  Reconciler.registry_items target onChain (Registry.build target)
  ++ Reconciler.orphan_items cutFacet onChain (Registry.build target).

(** The run asked for the hardhat configuration. *)
Definition consults_hardhat (t : list event) : Prop :=
  ∃ diamond network overrides,
    CreateConfigFromHardhat diamond network overrides ∈ t.

(** The hardhat configuration is wanted: it is not switched off and the
    options carry no RPC URL. *)
Definition hardhat_wanted (useHardhatConfig : option bool)
    (rpcUrl : option string) : Prop :=
  useHardhatConfig ≠ Some false ∧ truthy rpcUrl = false.

(** The configuration names the diamond, the network, the endpoint and
    the signing key. *)
Definition complete (config : Setup.RPCDiamondDeployerConfig) : Prop :=
  truthy (Setup.diamondName config) = true
  ∧ truthy (Setup.networkName config) = true
  ∧ truthy (Setup.rpcUrl config) = true
  ∧ truthy (Setup.privateKey config) = true.

(** What a [quick] command prints when its environment is incomplete. *)
Definition missing_report (env : Env) (example : string) : list event :=
  [ConsoleError [Str "Required environment variables missing:"]]
  ++ (if falsy (env !! "DIAMOND_NAME")
      then [ConsoleError [Str "   - DIAMOND_NAME"]] else [])
  ++ (if falsy (env !! "NETWORK_NAME")
      then [ConsoleError [Str "   - NETWORK_NAME"]] else [])
  ++ [ConsoleError [Str example]].

(** The error of [validateOptions] for a missing RPC URL. *)
Definition rpc_url_required : string :=
  "RPC URL is required when hardhat config is disabled (--rpc-url or RPC_URL environment variable)".

(** A call on the deployer once it is created, or a routine that reads
    the diamond through it. *)
Definition on_deployer (e : event) : bool :=
  match e with
  | ValidateConfiguration | GetDiamond | GetNetworkInfo | DeployDiamond
  | Routine _ => true
  | _ => false
  end.

(** The creation of the deployer. *)
Definition creates_deployer (e : event) : bool :=
  match e with
  | GetInstance _ => true
  | _ => false
  end.

(** Any event but a call on the created deployer. *)
Definition off_deployer (e : event) : Prop := on_deployer e = false.

(** Any event but the creation of the deployer or a call on it. *)
Definition without_deployer (e : event) : Prop :=
  on_deployer e = false ∧ creates_deployer e = false.

(** A request for the verification of a contract, or the lookup that
    precedes it. *)
Definition is_request (e : event) : bool :=
  match e with
  | HreRunVerify _ _ | GetContractAt _ _ => true
  | _ => false
  end.

(** The selectors of all the facets the loupe lists. *)
Definition selectors_of (fs : list (string * list string)) : list string :=
  concat fs.*2.

(** When the run returns, what it returns satisfies [Q]. *)
Definition ensures {A} (Q : A → Prop) (m : script A) : Prop :=
  ∀ a, result m = Returned a → Q a.

(** When the run exits, it exits with code 1. *)
Definition exits_one {A} (m : script A) : Prop :=
  ∀ c, result m = Exited c → c = 1%Z.

Definition is_deployment (e : event) : bool :=
  match e with
  | DeployDiamond => true
  | _ => false
  end.

(** How often the run called the deployer's [deployDiamond]. *)
Definition deployments (t : list event) : nat :=
  length (List.filter is_deployment t).

(** The events that touch neither the network nor the deployer. *)
Definition is_output (e : event) : bool :=
  match e with
  | ConsoleLog _ | ConsoleError _ => true
  | _ => false
  end.

(** The events of a run that are not console output, in order. *)
Definition calls (t : list event) : list event :=
  List.filter (λ e, negb (is_output e)) t.

(** The routines a run calls, by name and in order. *)
Definition routines_called (t : list event) : list string :=
  omap (λ e, match e with Routine name => Some name | _ => None end) t.

(** An event that is not the call of a routine. *)
Definition unrouted (e : event) : Prop := ∀ name, e ≠ Routine name.

(* ===================================================================== *)
(** ** Sample inputs                                                      *)
(* ===================================================================== *)

Definition no_deploy_args : DeployRpc.DeployArgs :=
  {| DeployRpc.arg_diamondName := Some "ExampleDiamond";
     DeployRpc.arg_networkName := Some "sepolia";
     DeployRpc.opt_privateKey := None;
     DeployRpc.opt_rpcUrl := None;
     DeployRpc.opt_gasLimitMultiplier := None;
     DeployRpc.opt_maxRetries := None;
     DeployRpc.opt_retryDelayMs := None;
     DeployRpc.flag_noHardhatConfig := false;
     DeployRpc.flag_verbose := false |}.

Definition no_upgrade_args : UpgradeRpc.UpgradeArgs :=
  {| UpgradeRpc.arg_diamondName := Some "ExampleDiamond";
     UpgradeRpc.arg_networkName := Some "sepolia";
     UpgradeRpc.opt_privateKey := None;
     UpgradeRpc.opt_rpcUrl := None;
     UpgradeRpc.opt_gasLimitMultiplier := None;
     UpgradeRpc.opt_maxRetries := None;
     UpgradeRpc.opt_retryDelayMs := None;
     UpgradeRpc.flag_noHardhatConfig := false;
     UpgradeRpc.flag_dryRun := false;
     UpgradeRpc.flag_force := false;
     UpgradeRpc.flag_verbose := false |}.

(** A world whose hardhat configuration cannot be loaded and whose network
    cannot be reached. *)
Definition broken_world : World :=
  {| createConfigFromHardhat := λ _ _ _ _, Throws "HH: no such network";
     queryNetwork := λ _ _, Throws "could not detect network";
     getInstance := λ _, Throws "no deployer";
     routine := λ _, Answers tt |}.

Definition bare_deploy_options : DeployRpc.DeploymentOptions :=
  {| DeployRpc.diamondName := Some "ExampleDiamond";
     DeployRpc.networkName := Some "sepolia";
     DeployRpc.privateKey := Some "0xkey";
     DeployRpc.gasLimitMultiplier := None;
     DeployRpc.maxRetries := None;
     DeployRpc.retryDelayMs := None;
     DeployRpc.verbose := None;
     DeployRpc.useHardhatConfig := Some true;
     DeployRpc.rpcUrl := None;
     DeployRpc.configPath := None;
     DeployRpc.deploymentsPath := None |}.

(** A diamond deployed at protocol version 1, whose target configuration
    is at version 2, behind a reachable network. *)
Definition sample_deployed : Deployed.t :=
  {| Deployed.DiamondAddress := Some "0xB44476E2aFBe1D10F6FE9ca11B23e200033c56f7";
     Deployed.DeployerAddress := Some "0xf39Fd6e51aad88F6F4ce6aB8827279cffFb92266";
     Deployed.protocolVersion := Some (of_Z 1);
     Deployed.DeployedFacets :=
       Some [("DiamondCutFacet",
              {| FacetData.address := Some "0x5FbDB2315678afecb367f032d93F642f64180aa3";
                 FacetData.funcSelectors := Some ["0x1f931c1c"] |})] |}.

Definition sample_diamond : Diamond :=
  {| getDeployedDiamondData := sample_deployed;
     getDeployConfig :=
       {| DeployConfig.protocolVersion := Some (of_Z 2);
          DeployConfig.facets := Some [("DiamondCutFacet", tt)] |} |}.

Definition sample_config : Setup.RPCDiamondDeployerConfig :=
  {| Setup.diamondName := Some "ExampleDiamond";
     Setup.rpcUrl := Some "http://localhost:8545";
     Setup.privateKey := Some "0xkey";
     Setup.networkName := Some "sepolia";
     Setup.chainId := 11155111;
     Setup.verbose := None;
     Setup.gasLimitMultiplier := None;
     Setup.maxRetries := None;
     Setup.retryDelayMs := None;
     Setup.configFilePath := None;
     Setup.deploymentsPath := None;
     Setup.writeDeployedDiamondData := Some true |}.

Definition sample_deployer : RPCDiamondDeployer :=
  {| isDiamondDeployed := true;
     getDeploymentStatus := Setup.UPGRADE_AVAILABLE;
     getConfig := sample_config;
     validateConfiguration := Answers {| valid := true; errors := [] |};
     getDiamond := Answers sample_diamond;
     getNetworkInfo :=
       Answers {| ni_networkName := "sepolia"; ni_chainId := 11155111;
                  ni_blockNumber := 100; ni_gasPrice := 1000000000;
                  ni_balance := 10 ^ 18;
                  ni_signerAddress := "0xf39Fd6e51aad88F6F4ce6aB8827279cffFb92266" |};
     deployDiamond := Answers sample_diamond |}.

(** The configuration the status script builds from its options, and a
    deployer created with it. *)
Definition status_config : Setup.RPCDiamondDeployerConfig :=
  StatusRpc.createConfig
    {| StatusRpc.diamondName := Some "ExampleDiamond";
       StatusRpc.networkName := None;
       StatusRpc.rpcUrl := Some "http://localhost:8545";
       StatusRpc.privateKey := Some "0xkey";
       StatusRpc.verbose := None;
       StatusRpc.configPath := None;
       StatusRpc.deploymentsPath := None;
       StatusRpc.onChainValidation := None;
       StatusRpc.showConfig := Some true;
       StatusRpc.showFacets := None;
       StatusRpc.showSelectors := None |}.

Definition status_deployer : RPCDiamondDeployer :=
  {| isDiamondDeployed := isDiamondDeployed sample_deployer;
     getDeploymentStatus := getDeploymentStatus sample_deployer;
     getConfig := status_config;
     validateConfiguration := validateConfiguration sample_deployer;
     getDiamond := getDiamond sample_deployer;
     getNetworkInfo := getNetworkInfo sample_deployer;
     deployDiamond := deployDiamond sample_deployer |}.

Definition sample_world : World :=
  {| createConfigFromHardhat := λ _ _ _ _, Answers sample_config;
     queryNetwork := λ _ _,
       Answers {| chain_name := Some "sepolia"; chain_id := 11155111;
                  signer_address := "0xf39Fd6e51aad88F6F4ce6aB8827279cffFb92266";
                  balance := 10 ^ 18; gasPrice := Some 1000000000%Z |};
     getInstance := λ _, Answers sample_deployer;
     routine := λ _, Answers tt |}.

Definition quick_upgrade_options (force dryRun : option bool)
    : UpgradeRpc.UpgradeOptions :=
  {| UpgradeRpc.diamondName := Some "ExampleDiamond";
     UpgradeRpc.networkName := Some "sepolia";
     UpgradeRpc.rpcUrl := None;
     UpgradeRpc.privateKey := Some "0xkey";
     UpgradeRpc.verbose := None;
     UpgradeRpc.gasLimitMultiplier := None;
     UpgradeRpc.maxRetries := None;
     UpgradeRpc.retryDelayMs := None;
     UpgradeRpc.configPath := None;
     UpgradeRpc.deploymentsPath := None;
     UpgradeRpc.targetVersion := None;
     UpgradeRpc.force := force;
     UpgradeRpc.dryRun := dryRun;
     UpgradeRpc.useHardhatConfig := Some true |}.

Definition always_verifying : VerifyDiamond.Hardhat :=
  {| VerifyDiamond.run_verify := λ _ _, Answers tt;
     VerifyDiamond.getContractAt := λ _ _, Answers tt |}.

Definition sample_deploy_info : VerifyDiamond.INetworkDeployInfo :=
  {| VerifyDiamond.DiamondAddress := Some "0xB44476E2aFBe1D10F6FE9ca11B23e200033c56f7";
     VerifyDiamond.DeployerAddress := Some "0xf39Fd6e51aad88F6F4ce6aB8827279cffFb92266";
     VerifyDiamond.FacetDeployedInfo :=
       [("DiamondCutFacet",
         {| VerifyDiamond.address := Some "0x5FbDB2315678afecb367f032d93F642f64180aa3";
            VerifyDiamond.verified := Some true |});
        ("DiamondLoupeFacet",
         {| VerifyDiamond.address := Some "0xe7f1725E7734CE288F8367e1Bb143E90bb3F0512";
            VerifyDiamond.verified := Some false |});
        ("OwnershipFacet",
         {| VerifyDiamond.address := Some "0x9fE46736679d2D9a65F0992F2272dE9f3c7fa6e0";
            VerifyDiamond.verified := None |})] |}.

Definition default_policy : Resilience.Policy :=
  {| Resilience.maxRetries := 3; Resilience.retryDelayMs := 2000 |}.

Definition always_timing_out : nat → Resilience.Failure + unit :=
  λ _, inl Resilience.RpcTimeout.

Definition reverting_at_once : nat → Resilience.Failure + unit :=
  λ _, inl Resilience.ExecutionReverted.

(** The target configuration of the first scenario of section 8. *)
Definition FacetA : FacetRecord.t :=
  {| FacetRecord.name := "FacetA"; FacetRecord.address := 0xA;
     FacetRecord.selectors := [0x11; 0x22]%N; FacetRecord.priority := 1 |}.

Definition FacetB : FacetRecord.t :=
  {| FacetRecord.name := "FacetB"; FacetRecord.address := 0xB;
     FacetRecord.selectors := [0x22; 0x33]%N; FacetRecord.priority := 2 |}.

(** A deployer that has nothing deployed yet, and its world. *)
Definition fresh_deployer : RPCDiamondDeployer :=
  {| isDiamondDeployed := false;
     getDeploymentStatus := Setup.NOT_DEPLOYED;
     getConfig := sample_config;
     validateConfiguration := Answers {| valid := true; errors := [] |};
     getDiamond := Throws "no deployment record";
     getNetworkInfo := getNetworkInfo sample_deployer;
     deployDiamond := Answers sample_diamond |}.

Definition fresh_world : World :=
  {| createConfigFromHardhat := createConfigFromHardhat sample_world;
     queryNetwork := queryNetwork sample_world;
     getInstance := λ _, Answers fresh_deployer;
     routine := λ _, Answers tt |}.

(** Command lines of the legacy commands with an RPC URL and a key. *)
Definition legacy_deploy_args : DeployRpc.LegacyArgs :=
  {| DeployRpc.legacy_diamondName := Some "ExampleDiamond";
     DeployRpc.legacy_rpcUrl := Some "http://localhost:8545";
     DeployRpc.legacy_privateKey := Some "0xkey";
     DeployRpc.legacy_networkName := Some "localhost";
     DeployRpc.legacy_configPath := None;
     DeployRpc.legacy_deploymentsPath := None;
     DeployRpc.legacy_gasLimitMultiplier := None;
     DeployRpc.legacy_maxRetries := None;
     DeployRpc.legacy_retryDelayMs := None;
     DeployRpc.legacy_verbose := false |}.

Definition legacy_upgrade_args : UpgradeRpc.LegacyArgs :=
  {| UpgradeRpc.legacy_diamondName := Some "ExampleDiamond";
     UpgradeRpc.legacy_rpcUrl := Some "http://localhost:8545";
     UpgradeRpc.legacy_privateKey := Some "0xkey";
     UpgradeRpc.legacy_networkName := Some "localhost";
     UpgradeRpc.legacy_configPath := None;
     UpgradeRpc.legacy_deploymentsPath := None;
     UpgradeRpc.legacy_targetVersion := None;
     UpgradeRpc.legacy_gasLimitMultiplier := None;
     UpgradeRpc.legacy_maxRetries := None;
     UpgradeRpc.legacy_retryDelayMs := None;
     UpgradeRpc.legacy_dryRun := false;
     UpgradeRpc.legacy_force := false;
     UpgradeRpc.legacy_verbose := false |}.

(** The same command lines without the RPC URL. *)
Definition legacy_deploy_args_no_url : DeployRpc.LegacyArgs :=
  {| DeployRpc.legacy_diamondName := Some "ExampleDiamond";
     DeployRpc.legacy_rpcUrl := None;
     DeployRpc.legacy_privateKey := Some "0xkey";
     DeployRpc.legacy_networkName := Some "localhost";
     DeployRpc.legacy_configPath := None;
     DeployRpc.legacy_deploymentsPath := None;
     DeployRpc.legacy_gasLimitMultiplier := None;
     DeployRpc.legacy_maxRetries := None;
     DeployRpc.legacy_retryDelayMs := None;
     DeployRpc.legacy_verbose := false |}.

Definition legacy_upgrade_args_no_url : UpgradeRpc.LegacyArgs :=
  {| UpgradeRpc.legacy_diamondName := Some "ExampleDiamond";
     UpgradeRpc.legacy_rpcUrl := None;
     UpgradeRpc.legacy_privateKey := Some "0xkey";
     UpgradeRpc.legacy_networkName := Some "localhost";
     UpgradeRpc.legacy_configPath := None;
     UpgradeRpc.legacy_deploymentsPath := None;
     UpgradeRpc.legacy_targetVersion := None;
     UpgradeRpc.legacy_gasLimitMultiplier := None;
     UpgradeRpc.legacy_maxRetries := None;
     UpgradeRpc.legacy_retryDelayMs := None;
     UpgradeRpc.legacy_dryRun := false;
     UpgradeRpc.legacy_force := false;
     UpgradeRpc.legacy_verbose := false |}.

(** Options of a verification that name the diamond, the network and the
    key and set no flag. *)
Definition plain_verify_options : VerifyRpc.VerifyOptions :=
  {| VerifyRpc.diamondName := Some "ExampleDiamond";
     VerifyRpc.networkName := Some "sepolia";
     VerifyRpc.rpcUrl := None;
     VerifyRpc.privateKey := Some "0xkey";
     VerifyRpc.verbose := None;
     VerifyRpc.configPath := None;
     VerifyRpc.deploymentsPath := None;
     VerifyRpc.etherscanApiKey := None;
     VerifyRpc.blockExplorerUrl := None;
     VerifyRpc.verifyContracts := None;
     VerifyRpc.validateAbi := None;
     VerifyRpc.validateSelectors := None;
     VerifyRpc.compareOnChain := None;
     VerifyRpc.useHardhatConfig := None |}.

(** Options of a verification that name nothing. *)
Definition empty_verify_options : VerifyRpc.VerifyOptions :=
  {| VerifyRpc.diamondName := None;
     VerifyRpc.networkName := None;
     VerifyRpc.rpcUrl := None;
     VerifyRpc.privateKey := None;
     VerifyRpc.verbose := None;
     VerifyRpc.configPath := None;
     VerifyRpc.deploymentsPath := None;
     VerifyRpc.etherscanApiKey := None;
     VerifyRpc.blockExplorerUrl := None;
     VerifyRpc.verifyContracts := None;
     VerifyRpc.validateAbi := None;
     VerifyRpc.validateSelectors := None;
     VerifyRpc.compareOnChain := None;
     VerifyRpc.useHardhatConfig := None |}.

(** A deployed diamond without any facet on record or in its target
    configuration, and a deployer that answers with it. *)
Definition bare_diamond : Diamond :=
  {| getDeployedDiamondData :=
       {| Deployed.DiamondAddress := Deployed.DiamondAddress sample_deployed;
          Deployed.DeployerAddress := Deployed.DeployerAddress sample_deployed;
          Deployed.protocolVersion := None;
          Deployed.DeployedFacets := None |};
     getDeployConfig :=
       {| DeployConfig.protocolVersion := None; DeployConfig.facets := Some [] |} |}.

Definition bare_deployer : RPCDiamondDeployer :=
  {| isDiamondDeployed := true;
     getDeploymentStatus := Setup.COMPLETED;
     getConfig := sample_config;
     validateConfiguration := validateConfiguration sample_deployer;
     getDiamond := Answers bare_diamond;
     getNetworkInfo := getNetworkInfo sample_deployer;
     deployDiamond := Answers bare_diamond |}.

(** Verification requests that are all refused. *)
Definition never_verifying : VerifyDiamond.Hardhat :=
  {| VerifyDiamond.run_verify := λ _ _, Throws "verification failed";
     VerifyDiamond.getContractAt := λ _ _, Answers tt |}.

(** The records of two networks. *)
Definition sample_deployments : list (string * VerifyDiamond.INetworkDeployInfo) :=
  [("sepolia", sample_deploy_info); ("hardhat", sample_deploy_info)].

(** The record of a network on which no [DiamondCutFacet] is listed. *)
Definition uncut_deploy_info : VerifyDiamond.INetworkDeployInfo :=
  {| VerifyDiamond.DiamondAddress := VerifyDiamond.DiamondAddress sample_deploy_info;
     VerifyDiamond.DeployerAddress := VerifyDiamond.DeployerAddress sample_deploy_info;
     VerifyDiamond.FacetDeployedInfo :=
       [("DiamondLoupeFacet",
         {| VerifyDiamond.address := Some "0xe7f1725E7734CE288F8367e1Bb143E90bb3F0512";
            VerifyDiamond.verified := None |})] |}.

(** A chain on which the diamond has two facets and no ABI file is at
    hand, and an environment that names its endpoint. *)
Definition sample_chain : VerifyDeployed.Chain :=
  {| VerifyDeployed.getNetwork := Answers ("sepolia", 11155111%Z);
     VerifyDeployed.facets :=
       Answers [("0x5FbDB2315678afecb367f032d93F642f64180aa3", ["0x1f931c1c"]);
                ("0xe7f1725E7734CE288F8367e1Bb143E90bb3F0512",
                 ["0x7a0ed627"; "0xadfca15e"; "0x52ef6b2c"])];
     VerifyDeployed.abiExists := false;
     VerifyDeployed.readAbi := Throws "ENOENT";
     VerifyDeployed.supportsInterface := Answers true;
     VerifyDeployed.owner := Throws "no owner";
     VerifyDeployed.protocolVersion := Throws "no version" |}.

Definition sepolia_env : Env := {[ "SEPOLIA_RPC" := "https://rpc.sepolia.org" ]}.

(** A deployer with nothing deployed whose configuration is found
    invalid, its world, and status options that ask for the facets. *)
Definition unconfigured_deployer : RPCDiamondDeployer :=
  {| isDiamondDeployed := false;
     getDeploymentStatus := Setup.NOT_DEPLOYED;
     getConfig := sample_config;
     validateConfiguration :=
       Answers {| valid := false; errors := ["Diamond configuration file not found"] |};
     getDiamond := Throws "no deployment record";
     getNetworkInfo := Throws "could not detect network";
     deployDiamond := Throws "not configured" |}.

Definition unconfigured_world : World :=
  {| createConfigFromHardhat := createConfigFromHardhat sample_world;
     queryNetwork := queryNetwork sample_world;
     getInstance := λ _, Answers unconfigured_deployer;
     routine := λ _, Throws "nothing deployed" |}.

Definition facets_status_options : StatusRpc.StatusOptions :=
  {| StatusRpc.diamondName := Some "ExampleDiamond";
     StatusRpc.networkName := None;
     StatusRpc.rpcUrl := Some "http://localhost:8545";
     StatusRpc.privateKey := Some "0xkey";
     StatusRpc.verbose := None;
     StatusRpc.configPath := None;
     StatusRpc.deploymentsPath := None;
     StatusRpc.onChainValidation := Some true;
     StatusRpc.showConfig := None;
     StatusRpc.showFacets := Some true;
     StatusRpc.showSelectors := Some true |}.

(* ===================================================================== *)
(** * Properties                                                          *)
(* ===================================================================== *)

(** ** Runs: traces and results *)

Section Runs.

Context {A B : Type}.

Lemma trace_bind (m : script A) (f : A → script B) :
  trace (m ≫= f)
  = trace m ++ match result m with
               | Returned a => trace (f a)
               | _ => []
               end.
Proof.
  destruct m as [t [a | c | e]]; cbn; rewrite ?app_nil_r; reflexivity.
Qed.

Lemma result_bind (m : script A) (f : A → script B) :
  result (m ≫= f)
  = match result m with
    | Returned a => result (f a)
    | Exited c => Exited c
    | Thrown e => Thrown e
    end.
Proof. destruct m as [t [a | c | e]]; reflexivity. Qed.

Lemma bind_returned (m : script A) (f : A → script B) t a :
  m = (t, Returned a) → m ≫= f = (t ++ trace (f a), result (f a)).
Proof. intros ->. reflexivity. Qed.

Lemma bind_exited (m : script A) (f : A → script B) t c :
  m = (t, Exited c) → m ≫= f = (t, Exited c).
Proof. intros ->. reflexivity. Qed.

Lemma trace_try_catch (m : script A) (h : string → script A) :
  trace (try_catch m h)
  = trace m ++ match result m with
               | Thrown e => trace (h e)
               | _ => []
               end.
Proof.
  destruct m as [t [a | c | e]]; cbn; rewrite ?app_nil_r; reflexivity.
Qed.

Lemma try_catch_returned (m : script A) (h : string → script A) t a :
  m = (t, Returned a) → try_catch m h = (t, Returned a).
Proof. intros ->. reflexivity. Qed.

Lemma try_catch_exited (m : script A) (h : string → script A) t c :
  m = (t, Exited c) → try_catch m h = (t, Exited c).
Proof. intros ->. reflexivity. Qed.

End Runs.

Lemma script_eta {A} (m : script A) : m = (trace m, result m).
Proof. destruct m; reflexivity. Qed.

Lemma call_returned {A} (e : event) (a : answer A) (v : A) :
  result (call e a) = Returned v → a = Answers v.
Proof. destruct a; cbn; congruence. Qed.

Lemma elem_of_trace_bind_l {A B} (m : script A) (f : A → script B) e :
  e ∈ trace m → e ∈ trace (m ≫= f).
Proof. intros H. rewrite trace_bind. apply elem_of_app. left. exact H. Qed.

Lemma elem_of_trace_bind_r {A B} (m : script A) (f : A → script B) a e :
  result m = Returned a → e ∈ trace (f a) → e ∈ trace (m ≫= f).
Proof.
  intros Hm H. rewrite trace_bind, Hm. apply elem_of_app. right. exact H.
Qed.

Lemma elem_of_trace_try_catch {A} (m : script A) h e :
  e ∈ trace m → e ∈ trace (try_catch m h).
Proof. intros H. rewrite trace_try_catch. apply elem_of_app. left. exact H. Qed.

Lemma for_each_error (f : string → message) (xs : list string) :
  for_each xs (λ x, error (f x)) = (map (λ x, ConsoleError (f x)) xs, Returned tt).
Proof.
  induction xs as [| x xs IH]; [reflexivity |].
  cbn [for_each map]. rewrite IH. reflexivity.
Qed.

(** *** What holds of every event of a run

    [always P m] says that every event of the run [m] satisfies [P]; the
    rules below follow the shape of a script. *)

Section Always.

Context (P : event → Prop).

Lemma always_ret {A} (a : A) : always P (mret a).
Proof. constructor. Qed.

Lemma always_exit {A} c : always P (@exit A c).
Proof. constructor. Qed.

Lemma always_throw {A} e : always P (@throw A e).
Proof. constructor. Qed.

Lemma always_emit e : P e → always P (emit e).
Proof. intros H. repeat constructor. exact H. Qed.

Lemma always_call {A} e (a : answer A) : P e → always P (call e a).
Proof. intros H. destruct a; repeat constructor; exact H. Qed.

Lemma always_bind {A B} (m : script A) (f : A → script B) :
  always P m →
  (∀ a, result m = Returned a → always P (f a)) →
  always P (m ≫= f).
Proof.
  unfold always. intros Hm Hf. rewrite trace_bind.
  apply Forall_app. split; [exact Hm |].
  destruct (result m) as [a | c | e]; [apply Hf; reflexivity | constructor ..].
Qed.

Lemma always_try_catch {A} (m : script A) (h : string → script A) :
  always P m → (∀ e, always P (h e)) → always P (try_catch m h).
Proof.
  unfold always. intros Hm Hh. rewrite trace_try_catch.
  apply Forall_app. split; [exact Hm |].
  destruct (result m) as [a | c | e]; [constructor | constructor | apply Hh].
Qed.

Lemma always_for_each {A} (xs : list A) (f : A → script unit) :
  (∀ x, always P (f x)) → always P (for_each xs f).
Proof.
  intros Hf. induction xs as [| x xs IH]; [constructor |].
  cbn [for_each]. apply always_bind; [apply Hf | intros _ _; exact IH].
Qed.

Lemma always_when (c : bool) (m : script unit) :
  always P m → always P (when c m).
Proof. intros H. destruct c; [exact H | constructor]. Qed.

End Always.

(** Walks through a script with the rules above; what is left are the
    conditions on single events and the calls whose answer matters. *)
Ltac walk :=
  repeat first
    [ apply always_ret | apply always_exit | apply always_throw
    | apply always_when | apply always_for_each; intros ?
    | apply always_try_catch; [| intros ?]
    | apply always_bind; [| intros ? ?]
    | apply always_emit | apply always_call
    | match goal with
      | |- always _ (if ?c then _ else _) => destruct c
      | |- always _ (match ?x with _ => _ end) => destruct x
      | |- always _ (let '(_, _) := ?x in _) => destruct x
      end ].

(** ** Validation of the options *)

Lemma report_errors_none : report_errors [] = ([], Returned tt).
Proof. reflexivity. Qed.

Lemma report_errors_some (errs : list string) :
  errs ≠ [] → report_errors errs = (surfaced errs, Exited 1).
Proof.
  destruct errs as [| e errs]; [congruence |]. intros _.
  unfold report_errors, surfaced. cbn [length Nat.ltb Nat.leb].
  rewrite for_each_error. cbn. rewrite app_nil_r. reflexivity.
Qed.

Lemma push_if_finding (c : bool) (msg : string) (errs : list string) :
  push_if c msg errs = errs ++ finding c msg.
Proof. destruct c; cbn; rewrite ?app_nil_r; reflexivity. Qed.

Lemma rpc_validation_errors_findings env dn nn pk url hh :
  rpc_validation_errors env dn nn pk url hh
  = finding (falsy dn)
      "Diamond name is required (--diamond-name or DIAMOND_NAME)"
    ++ finding (falsy nn)
         "Network name is required (--network-name or NETWORK_NAME)"
    ++ finding (falsy pk && falsy (env !! "PRIVATE_KEY")
                && falsy (env !! "TEST_PRIVATE_KEY"))
         "Private key is required (--private-key, PRIVATE_KEY, or TEST_PRIVATE_KEY environment variable)"
    ++ finding (bool_decide (hh = Some false)
                && (falsy url && falsy (env !! "RPC_URL")))
         "RPC URL is required when hardhat config is disabled (--rpc-url or RPC_URL environment variable)".
Proof.
  unfold rpc_validation_errors. rewrite !push_if_finding.
  destruct (bool_decide (hh = Some false)); cbn [andb finding];
    rewrite ?push_if_finding, ?app_nil_r, <- ?app_assoc; reflexivity.
Qed.

(** C2.  In deploy-rpc, upgrade-rpc and status-rpc the validation of the
    options gathers the finding of every check, whatever the other checks
    found; and when the list is not empty the run prints the heading and
    one line for each error, then exits with code 1: its trace holds
    nothing else, so the deployer is never created and nothing is
    deployed, upgraded or queried. *)
Theorem validation_reports_every_problem
    (w : World) (env : Env) (d : DeployRpc.DeploymentOptions)
    (u : UpgradeRpc.UpgradeOptions) (s : StatusRpc.StatusOptions) :
  DeployRpc.validation_errors env d
  = finding (falsy (DeployRpc.diamondName d))
      "Diamond name is required (--diamond-name or first argument)"
    ++ finding (falsy (DeployRpc.networkName d))
         "Network name is required (--network-name or second argument)"
    ++ finding (falsy (DeployRpc.privateKey d) && falsy (env !! "PRIVATE_KEY")
                && falsy (env !! "TEST_PRIVATE_KEY"))
         "Private key is required (--private-key, PRIVATE_KEY, or TEST_PRIVATE_KEY environment variable)"
    ++ finding (bool_decide (DeployRpc.useHardhatConfig d = Some false)
                && (falsy (DeployRpc.rpcUrl d) && falsy (env !! "RPC_URL")))
         "RPC URL is required when hardhat config is disabled (--rpc-url or RPC_URL environment variable)"
  ∧ UpgradeRpc.validation_errors env u
    = finding (falsy (UpgradeRpc.diamondName u))
        "Diamond name is required (--diamond-name or DIAMOND_NAME)"
      ++ finding (falsy (UpgradeRpc.networkName u))
           "Network name is required (--network-name or NETWORK_NAME)"
      ++ finding (falsy (UpgradeRpc.privateKey u) && falsy (env !! "PRIVATE_KEY")
                  && falsy (env !! "TEST_PRIVATE_KEY"))
           "Private key is required (--private-key, PRIVATE_KEY, or TEST_PRIVATE_KEY environment variable)"
      ++ finding (bool_decide (UpgradeRpc.useHardhatConfig u = Some false)
                  && (falsy (UpgradeRpc.rpcUrl u) && falsy (env !! "RPC_URL")))
           "RPC URL is required when hardhat config is disabled (--rpc-url or RPC_URL environment variable)"
  ∧ StatusRpc.validation_errors s
    = finding (falsy (StatusRpc.diamondName s))
        "Diamond name is required (--diamond-name or DIAMOND_NAME)"
      ++ finding (falsy (StatusRpc.rpcUrl s))
           "RPC URL is required (--rpc-url or RPC_URL)"
      ++ finding (falsy (StatusRpc.privateKey s))
           "Private key is required (--private-key or PRIVATE_KEY)"
  ∧ (DeployRpc.validation_errors env d ≠ [] →
     DeployRpc.deployDiamond w env d
     = (surfaced (DeployRpc.validation_errors env d), Exited 1))
  ∧ (UpgradeRpc.validation_errors env u ≠ [] →
     UpgradeRpc.upgradeDiamond w env u
     = (surfaced (UpgradeRpc.validation_errors env u), Exited 1))
  ∧ (StatusRpc.validation_errors s ≠ [] →
     StatusRpc.checkStatus w s
     = (surfaced (StatusRpc.validation_errors s), Exited 1)).
Proof.
  repeat split.
  - unfold DeployRpc.validation_errors. rewrite !push_if_finding.
    destruct (bool_decide (DeployRpc.useHardhatConfig d = Some false));
      cbn [andb finding];
      rewrite ?push_if_finding, ?app_nil_r, <- ?app_assoc; reflexivity.
  - apply rpc_validation_errors_findings.
  - unfold StatusRpc.validation_errors. rewrite !push_if_finding.
    rewrite <- ?app_assoc. reflexivity.
  - intros H. unfold DeployRpc.deployDiamond, DeployRpc.prepare.
    apply try_catch_exited.
    apply bind_exited, bind_exited.
    apply report_errors_some, H.
  - intros H. unfold UpgradeRpc.upgradeDiamond, UpgradeRpc.prepare.
    apply try_catch_exited.
    apply bind_exited, bind_exited.
    apply report_errors_some, H.
  - intros H. unfold StatusRpc.checkStatus.
    apply try_catch_exited, bind_exited.
    apply report_errors_some, H.
Qed.

(** ** The steps of a verification *)

(** The four conditionals, condition by condition. *)
Lemma verification_steps_cases (o : VerifyRpc.VerifyOptions) :
  let abi := truthy (VerifyRpc.validateAbi o) in
  let sel := truthy (VerifyRpc.validateSelectors o) in
  let cmp := truthy (VerifyRpc.compareOnChain o) in
  let vc := truthy (VerifyRpc.verifyContracts o) in
  (VerifyRpc.ValidateABIs ∈ VerifyRpc.verification_steps o
   ↔ abi = true ∨ (vc = false ∧ sel = false ∧ cmp = false))
  ∧ (VerifyRpc.ValidateSelectors ∈ VerifyRpc.verification_steps o
     ↔ sel = true ∨ (vc = false ∧ abi = false ∧ cmp = false))
  ∧ (VerifyRpc.CompareOnChainState ∈ VerifyRpc.verification_steps o
     ↔ cmp = true ∨ (vc = false ∧ abi = false ∧ sel = false))
  ∧ (abi = false ∧ sel = false ∧ cmp = false ∧ vc = false →
     VerifyRpc.verification_steps o
     = [VerifyRpc.ValidateABIs; VerifyRpc.ValidateSelectors;
        VerifyRpc.CompareOnChainState])
  ∧ (vc = true ∧ abi = false ∧ sel = false ∧ cmp = false →
     VerifyRpc.verification_steps o = [VerifyRpc.ShowContractVerificationInfo]).
Proof.
  cbv zeta. unfold VerifyRpc.verification_steps, falsy.
  destruct (truthy (VerifyRpc.validateAbi o)),
           (truthy (VerifyRpc.validateSelectors o)),
           (truthy (VerifyRpc.compareOnChain o)),
           (truthy (VerifyRpc.verifyContracts o));
    cbn; rewrite ?elem_of_cons, ?elem_of_nil; intuition congruence.
Qed.

Lemma for_each_returns {X} (xs : list X) (f : X → script unit) :
  (∀ x, result (f x) = Returned tt) →
  for_each xs f = (flat_map (λ x, trace (f x)) xs, Returned tt).
Proof.
  intros Hf. induction xs as [| x xs IH]; [reflexivity |].
  cbn [for_each flat_map].
  rewrite (bind_returned (f x) _ (trace (f x)) tt), IH; [reflexivity |].
  rewrite (script_eta (f x)) at 1. rewrite Hf. reflexivity.
Qed.

(** When the routines go through, the steps selected are the steps run:
    the routine of a validation step is called exactly when the step is
    selected. *)
Lemma selected_steps_run (w : World) (o : VerifyRpc.VerifyOptions)
    (st : VerifyRpc.step) (name : string) :
  (∀ n, routine w n = Answers tt) →
  VerifyRpc.routine_of st = Some name →
  Routine name
    ∈ trace (for_each (VerifyRpc.verification_steps o) (VerifyRpc.run_step w o))
  ↔ st ∈ VerifyRpc.verification_steps o.
Proof.
  intros Hr Hname. rewrite for_each_returns.
  - cbn [trace fst]. rewrite list_elem_of_In, in_flat_map.
    setoid_rewrite <- list_elem_of_In.
    assert (Hstep : ∀ st', Routine name ∈ trace (VerifyRpc.run_step w o st')
                           ↔ st' = st).
    { intros st'. destruct st'; cbn [VerifyRpc.run_step]; rewrite ?Hr.
      1-3: cbn; rewrite list_elem_of_singleton;
           destruct st; cbn in Hname; split; congruence.
      split; [| intros <-; discriminate].
      intros Hin. exfalso.
      assert (Hq : always (λ e, e ≠ Routine name)
                     (VerifyRpc.showContractVerificationInfo o)).
      { unfold VerifyRpc.showContractVerificationInfo. walk; discriminate. }
      unfold always in Hq. rewrite Forall_forall in Hq.
      exact (Hq _ Hin eq_refl). }
    split.
    + intros (st' & Hin & Hst). apply Hstep in Hst as ->. exact Hin.
    + intros Hin. exists st. split; [exact Hin | apply Hstep; reflexivity].
  - intros st'. destruct st'; cbn [VerifyRpc.run_step]; rewrite ?Hr;
      try reflexivity.
    unfold VerifyRpc.showContractVerificationInfo.
    destruct (truthy (VerifyRpc.etherscanApiKey o)),
             (truthy (VerifyRpc.blockExplorerUrl o)); reflexivity.
Qed.

(** *** The routines a run calls *)

Lemma routines_called_app t1 t2 :
  routines_called (t1 ++ t2) = routines_called t1 ++ routines_called t2.
Proof. apply omap_app. Qed.

Lemma routines_called_unrouted t :
  Forall unrouted t → routines_called t = [].
Proof.
  induction 1 as [| e t He _ IH]; [reflexivity |].
  destruct e; cbn; try exact IH. exfalso. exact (He _ eq_refl).
Qed.

Lemma elem_of_routines_called t name :
  Routine name ∈ t ↔ name ∈ routines_called t.
Proof.
  unfold routines_called. rewrite list_elem_of_omap. split.
  - intros Hin. exists (Routine name). split; [exact Hin | reflexivity].
  - intros (e & Hin & He). destruct e; try discriminate.
    injection He as ->. exact Hin.
Qed.

Lemma routines_called_after {A B} (m : script A) (f : A → script B) a :
  always unrouted m → result m = Returned a →
  routines_called (trace (m ≫= f)) = routines_called (trace (f a)).
Proof.
  intros Hm Hr. rewrite trace_bind, Hr, routines_called_app.
  rewrite (routines_called_unrouted _ Hm). reflexivity.
Qed.

Lemma routines_called_before {A B} (m : script A) (k : A → script B) :
  (∀ a, always unrouted (k a)) →
  routines_called (trace (m ≫= k)) = routines_called (trace m).
Proof.
  intros Hk. rewrite trace_bind, routines_called_app.
  destruct (result m) as [a | c | e]; cbn [routines_called omap];
    rewrite ?(routines_called_unrouted _ (Hk _)), ?app_nil_r; reflexivity.
Qed.

Lemma routines_called_try {A} (m : script A) (h : string → script A) :
  (∀ e, always unrouted (h e)) →
  routines_called (trace (try_catch m h)) = routines_called (trace m).
Proof.
  intros Hh. rewrite trace_try_catch, routines_called_app.
  destruct (result m) as [a | c | e]; cbn [routines_called omap];
    rewrite ?(routines_called_unrouted _ (Hh _)), ?app_nil_r; reflexivity.
Qed.

(** Past its preliminaries, [verifyDeployment] calls the routines of its
    closing conditionals and no other. *)
Lemma verifyDeployment_routines (w : World) (env : Env)
    (o : VerifyRpc.VerifyOptions) config deployer validation networkInfo :
  VerifyRpc.validation_errors env o = [] →
  result (VerifyRpc.createConfig w env o) = Returned config →
  getInstance w config = Answers deployer →
  isDiamondDeployed deployer = true →
  validateConfiguration deployer = Answers validation →
  getNetworkInfo deployer = Answers networkInfo →
  routines_called (trace (VerifyRpc.verifyDeployment w env o))
  = routines_called
      (trace (for_each (VerifyRpc.verification_steps o) (VerifyRpc.run_step w o))).
Proof.
  intros Hv Hc Hi Hd Hval Hn.
  unfold VerifyRpc.verifyDeployment, VerifyRpc.validateOptions.
  rewrite routines_called_try
    by (intros e; unfold fail_with, error; walk; intros ? [=]).
  rewrite Hv.
  erewrite routines_called_after; [| constructor | reflexivity].
  erewrite routines_called_after;
    [| unfold VerifyRpc.createConfig, log, error; walk; intros ? [=] | exact Hc].
  do 4 (erewrite routines_called_after;
          [| apply always_emit; intros ? [=] | reflexivity]).
  rewrite Hi.
  erewrite routines_called_after;
    [| apply always_call; intros ? [=] | reflexivity].
  rewrite Hd. cbn [negb].
  erewrite routines_called_after; [| constructor | reflexivity].
  do 3 (erewrite routines_called_after;
          [| apply always_emit; intros ? [=] | reflexivity]).
  rewrite Hval.
  erewrite routines_called_after;
    [| apply always_call; intros ? [=] | reflexivity].
  erewrite routines_called_after;
    [| unfold log, error; walk; intros ? [=]
     | destruct (valid validation);
       [reflexivity | rewrite result_bind; cbn [log emit result snd];
                      rewrite for_each_error; reflexivity]].
  rewrite Hn.
  erewrite routines_called_after;
    [| apply always_call; intros ? [=] | reflexivity].
  do 4 (erewrite routines_called_after;
          [| apply always_emit; intros ? [=] | reflexivity]).
  apply routines_called_before. intros _. apply always_emit. intros ? [=].
Qed.

(** When its routines go through, a step calls its routine, if it has
    one, and returns. *)
Lemma run_step_routine (w : World) (o : VerifyRpc.VerifyOptions)
    (st : VerifyRpc.step) :
  routine w "validateABIs" = Answers tt →
  routine w "validateSelectors" = Answers tt →
  routine w "compareOnChainState" = Answers tt →
  result (VerifyRpc.run_step w o st) = Returned tt
  ∧ routines_called (trace (VerifyRpc.run_step w o st))
    = option_list (VerifyRpc.routine_of st).
Proof.
  intros Ha Hs Hc.
  destruct st; cbn [VerifyRpc.run_step VerifyRpc.routine_of];
    rewrite ?Ha, ?Hs, ?Hc; try (split; reflexivity).
  unfold VerifyRpc.showContractVerificationInfo.
  destruct (truthy (VerifyRpc.etherscanApiKey o)),
           (truthy (VerifyRpc.blockExplorerUrl o)); split; reflexivity.
Qed.

Lemma steps_routines (w : World) (o : VerifyRpc.VerifyOptions)
    (steps : list VerifyRpc.step) :
  routine w "validateABIs" = Answers tt →
  routine w "validateSelectors" = Answers tt →
  routine w "compareOnChainState" = Answers tt →
  routines_called (trace (for_each steps (VerifyRpc.run_step w o)))
  = omap VerifyRpc.routine_of steps.
Proof.
  intros Ha Hs Hc.
  rewrite for_each_returns by (intros st; apply run_step_routine; assumption).
  cbn [trace fst].
  induction steps as [| st steps IH]; [reflexivity |].
  cbn [flat_map]. rewrite routines_called_app, IH.
  rewrite (proj2 (run_step_routine w o st Ha Hs Hc)).
  destruct st; reflexivity.
Qed.

(** C9.  In a run of [verifyDeployment] that gets to its closing
    conditionals and whose validation routines go through, each of the
    three validation steps runs exactly when its own flag is set or none
    of the other three flags is; so with no flag all three run, in their
    order, and with [verifyContracts] alone none of them runs, only the
    verification information being shown. *)
Theorem verification_steps_run_as_selected (w : World) (env : Env)
    (o : VerifyRpc.VerifyOptions) (config : Setup.RPCDiamondDeployerConfig)
    (deployer : RPCDiamondDeployer) (validation : ValidationResult)
    (networkInfo : NetworkInfo) :
  VerifyRpc.validation_errors env o = [] →
  result (VerifyRpc.createConfig w env o) = Returned config →
  getInstance w config = Answers deployer →
  isDiamondDeployed deployer = true →
  validateConfiguration deployer = Answers validation →
  getNetworkInfo deployer = Answers networkInfo →
  routine w "validateABIs" = Answers tt →
  routine w "validateSelectors" = Answers tt →
  routine w "compareOnChainState" = Answers tt →
  let abi := truthy (VerifyRpc.validateAbi o) in
  let sel := truthy (VerifyRpc.validateSelectors o) in
  let cmp := truthy (VerifyRpc.compareOnChain o) in
  let vc := truthy (VerifyRpc.verifyContracts o) in
  let run := trace (VerifyRpc.verifyDeployment w env o) in
  (Routine "validateABIs" ∈ run
   ↔ abi = true ∨ (vc = false ∧ sel = false ∧ cmp = false))
  ∧ (Routine "validateSelectors" ∈ run
     ↔ sel = true ∨ (vc = false ∧ abi = false ∧ cmp = false))
  ∧ (Routine "compareOnChainState" ∈ run
     ↔ cmp = true ∨ (vc = false ∧ abi = false ∧ sel = false))
  ∧ (abi = false ∧ sel = false ∧ cmp = false ∧ vc = false →
     routines_called run
     = ["validateABIs"; "validateSelectors"; "compareOnChainState"])
  ∧ (vc = true ∧ abi = false ∧ sel = false ∧ cmp = false →
     routines_called run = []
     ∧ ConsoleLog [Str "Contract Verification Information"] ∈ run).
Proof.
  intros Hv Hcfg Hi Hd Hval Hn Ha Hs Hc. cbv zeta.
  pose proof (verifyDeployment_routines w env o config deployer validation
                networkInfo Hv Hcfg Hi Hd Hval Hn) as Hrun.
  rewrite (steps_routines w o _ Ha Hs Hc) in Hrun.
  rewrite !elem_of_routines_called, Hrun.
  pose proof (verification_steps_cases o) as Hcases. cbv zeta in Hcases.
  destruct Hcases as (Habi & Hsel & Hcmp & Hnone & Honly).
  assert (Hname : ∀ st name,
            VerifyRpc.routine_of st = Some name →
            name ∈ omap VerifyRpc.routine_of (VerifyRpc.verification_steps o)
            ↔ st ∈ VerifyRpc.verification_steps o).
  { intros st name Hst. rewrite list_elem_of_omap. split.
    - intros (st' & Hin & Hst').
      destruct st, st'; cbn in Hst, Hst'; try discriminate; try exact Hin;
        congruence.
    - intros Hin. exists st. split; assumption. }
  rewrite (Hname VerifyRpc.ValidateABIs) by reflexivity.
  rewrite (Hname VerifyRpc.ValidateSelectors) by reflexivity.
  rewrite (Hname VerifyRpc.CompareOnChainState) by reflexivity.
  split; [exact Habi |]. split; [exact Hsel |]. split; [exact Hcmp |].
  split.
  - intros H. rewrite (Hnone H). reflexivity.
  - intros H. rewrite (Honly H). split; [reflexivity |].
    unfold VerifyRpc.verifyDeployment, VerifyRpc.validateOptions.
    rewrite Hv. apply elem_of_trace_try_catch.
    eapply elem_of_trace_bind_r; [reflexivity |].
    eapply elem_of_trace_bind_r; [exact Hcfg |].
    do 4 (eapply elem_of_trace_bind_r; [reflexivity |]).
    rewrite Hi. eapply elem_of_trace_bind_r; [reflexivity |].
    rewrite Hd. cbn [negb].
    do 4 (eapply elem_of_trace_bind_r; [reflexivity |]).
    rewrite Hval. eapply elem_of_trace_bind_r; [reflexivity |].
    eapply elem_of_trace_bind_r.
    { destruct (valid validation);
        [reflexivity | rewrite result_bind; cbn [log emit result snd];
                       rewrite for_each_error; reflexivity]. }
    rewrite Hn. eapply elem_of_trace_bind_r; [reflexivity |].
    do 4 (eapply elem_of_trace_bind_r; [reflexivity |]).
    apply elem_of_trace_bind_l. rewrite (Honly H).
    cbn [for_each VerifyRpc.run_step].
    apply elem_of_trace_bind_l.
    unfold VerifyRpc.showContractVerificationInfo.
    apply elem_of_trace_bind_l. left.
Qed.

Lemma verification_steps_run_witness :
  routines_called (trace (VerifyRpc.verifyDeployment sample_world ∅
                            plain_verify_options))
  = ["validateABIs"; "validateSelectors"; "compareOnChainState"].
Proof.
  assert (Hv : VerifyRpc.validation_errors ∅ plain_verify_options = [])
    by (vm_compute; reflexivity).
  assert (Hc : result (VerifyRpc.createConfig sample_world ∅ plain_verify_options)
               = Returned sample_config)
    by (vm_compute; reflexivity).
  pose proof (verification_steps_run_as_selected sample_world ∅
                plain_verify_options sample_config sample_deployer _ _
                Hv Hc eq_refl eq_refl eq_refl eq_refl eq_refl eq_refl eq_refl)
    as H.
  cbv zeta in H. destruct H as (_ & _ & _ & H & _).
  apply H. repeat split; reflexivity.
Defined.

(** ** The default tuning *)

Example parseInt_3 : parseInt "3" = of_Z 3.
Proof. reflexivity. Qed.

Example parseInt_2000 : parseInt "2000" = of_Z 2000.
Proof. reflexivity. Qed.

Example parseInt_prefix : parseInt "  -42px" = of_Z (-42).
Proof. reflexivity. Qed.

Example parseInt_hex : parseInt "0x1f" = of_Z 31.
Proof. reflexivity. Qed.

Example parseInt_nan : parseInt "abc" = NaN.
Proof. reflexivity. Qed.

Example parseFloat_1_2 : parseFloat "1.2" = Finite (6 # 5).
Proof. reflexivity. Qed.

Example parseFloat_exponent : parseFloat "15e-1x" = Finite (3 # 2).
Proof. reflexivity. Qed.

Example parseFloat_dot : parseFloat "." = NaN.
Proof. reflexivity. Qed.

(** An explicit option and an environment variable both override the
    default. *)
Example maxRetries_overridden :
  maxRetries_option {[ "MAX_RETRIES" := "5" ]} None = of_Z 5
  ∧ maxRetries_option {[ "MAX_RETRIES" := "5" ]} (Some "7") = of_Z 7.
Proof. split; reflexivity. Qed.

(** C4.  With none of the three tuning options given on the command line,
    none of [GAS_LIMIT_MULTIPLIER], [MAX_RETRIES] and [RETRY_DELAY_MS] set
    in the environment and none of the three fields set in the
    configuration of the deployer, the deploy and the upgrade command run
    with 3 retries, a delay of 2000 ms and a gas-limit multiplier of 1.2,
    and [showConfiguration], once the network and the diamond have
    answered, prints these same three values as the effective ones. *)
Theorem default_tuning (env : Env) (da : DeployRpc.DeployArgs)
    (ua : UpgradeRpc.UpgradeArgs) (deployer : RPCDiamondDeployer)
    (networkInfo : NetworkInfo) (diamond : Diamond) :
  env !! "GAS_LIMIT_MULTIPLIER" = None →
  env !! "MAX_RETRIES" = None →
  env !! "RETRY_DELAY_MS" = None →
  DeployRpc.opt_gasLimitMultiplier da = None →
  DeployRpc.opt_maxRetries da = None →
  DeployRpc.opt_retryDelayMs da = None →
  UpgradeRpc.opt_gasLimitMultiplier ua = None →
  UpgradeRpc.opt_maxRetries ua = None →
  UpgradeRpc.opt_retryDelayMs ua = None →
  Setup.gasLimitMultiplier (getConfig deployer) = None →
  Setup.maxRetries (getConfig deployer) = None →
  Setup.retryDelayMs (getConfig deployer) = None →
  getNetworkInfo deployer = Answers networkInfo →
  getDiamond deployer = Answers diamond →
  let d := DeployRpc.deploy_options env da in
  let u := UpgradeRpc.upgrade_options env ua in
  let shown := trace (StatusRpc.showConfiguration deployer) in
  (DeployRpc.maxRetries d = Some (of_Z 3)
   ∧ DeployRpc.retryDelayMs d = Some (of_Z 2000)
   ∧ DeployRpc.gasLimitMultiplier d = Some (Finite (6 # 5)))
  ∧ (UpgradeRpc.maxRetries u = Some (of_Z 3)
     ∧ UpgradeRpc.retryDelayMs u = Some (of_Z 2000)
     ∧ UpgradeRpc.gasLimitMultiplier u = Some (Finite (6 # 5)))
  ∧ (ConsoleLog [Str "Max Retries: "; Num (of_Z 3)] ∈ shown
     ∧ ConsoleLog [Str "Retry Delay: "; Num (of_Z 2000); Str "ms"] ∈ shown
     ∧ ConsoleLog [Str "Gas Limit Multiplier: "; Num (Finite (6 # 5))] ∈ shown).
Proof.
  intros Eg Em Er Dg Dm Dr Ug Um Ur Cg Cm Cr Hn Hd. cbv zeta.
  split; [| split].
  - unfold DeployRpc.deploy_options,
      gasLimitMultiplier_option, maxRetries_option, retryDelayMs_option.
    cbn [DeployRpc.maxRetries DeployRpc.retryDelayMs DeployRpc.gasLimitMultiplier].
    rewrite Eg, Em, Er, Dg, Dm, Dr. repeat split; reflexivity.
  - unfold UpgradeRpc.upgrade_options,
      gasLimitMultiplier_option, maxRetries_option, retryDelayMs_option.
    cbn [UpgradeRpc.maxRetries UpgradeRpc.retryDelayMs
         UpgradeRpc.gasLimitMultiplier].
    rewrite Eg, Em, Er, Ug, Um, Ur. repeat split; reflexivity.
  - assert (Hshown : ∀ e,
              e ∈ [ConsoleLog [Str "Gas Limit Multiplier: "; Num (Finite (6 # 5))];
                   ConsoleLog [Str "Max Retries: "; Num (of_Z 3)];
                   ConsoleLog [Str "Retry Delay: "; Num (of_Z 2000); Str "ms"]] →
              e ∈ trace (StatusRpc.showConfiguration deployer)).
    { intros e He. unfold StatusRpc.showConfiguration.
      unfold StatusRpc.shown_gasLimitMultiplier, StatusRpc.shown_maxRetries,
        StatusRpc.shown_retryDelayMs.
      rewrite Hn, Hd, Cg, Cm, Cr.
      do 9 (eapply elem_of_trace_bind_r; [reflexivity |]).
      eapply elem_of_trace_bind_r; [destruct (truthy _); reflexivity |].
      rewrite !elem_of_cons, elem_of_nil in He.
      destruct He as [-> | [-> | [-> | []]]].
      - apply elem_of_trace_bind_l. left.
      - eapply elem_of_trace_bind_r; [reflexivity |].
        apply elem_of_trace_bind_l. left.
      - do 2 (eapply elem_of_trace_bind_r; [reflexivity |]).
        apply elem_of_trace_bind_l. left. }
    repeat split; apply Hshown; set_solver.
Qed.

Lemma default_tuning_witness :
  DeployRpc.maxRetries (DeployRpc.deploy_options ∅ no_deploy_args) = Some (of_Z 3)
  ∧ UpgradeRpc.retryDelayMs (UpgradeRpc.upgrade_options ∅ no_upgrade_args)
    = Some (of_Z 2000)
  ∧ ConsoleLog [Str "Gas Limit Multiplier: "; Num (Finite (6 # 5))]
      ∈ trace (StatusRpc.showConfiguration status_deployer).
Proof.
  pose proof (default_tuning ∅ no_deploy_args no_upgrade_args status_deployer
                _ _
                eq_refl eq_refl eq_refl eq_refl eq_refl eq_refl eq_refl eq_refl
                eq_refl eq_refl eq_refl eq_refl eq_refl eq_refl) as H.
  cbv zeta in H.
  destruct H as [[H1 _] [[_ [H2 _]] [_ [_ H3]]]].
  exact (conj H1 (conj H2 H3)).
Defined.

(** ** The fallback of createConfig *)

Lemma printPreInfo_connects heading w config :
  NewJsonRpcProvider (Setup.rpcUrl config) ∈ trace (printPreInfo heading w config)
  ∧ QueryNetwork ∈ trace (printPreInfo heading w config).
Proof.
  unfold printPreInfo. split.
  - eapply elem_of_trace_bind_r; [reflexivity |].
    apply elem_of_trace_try_catch, elem_of_trace_bind_l. cbn. set_solver.
  - eapply elem_of_trace_bind_r; [reflexivity |].
    apply elem_of_trace_try_catch.
    eapply elem_of_trace_bind_r; [reflexivity |].
    apply elem_of_trace_bind_l.
    destruct (queryNetwork w _ _); cbn; set_solver.
Qed.

Lemma deploy_createConfig_fallback w env (o : DeployRpc.DeploymentOptions) err :
  DeployRpc.useHardhatConfig o ≠ Some false →
  DeployRpc.rpcUrl o = None →
  env !! "RPC_URL" = None →
  (∀ d n k ov, createConfigFromHardhat w d n k ov = Throws err) →
  ∃ t config,
    DeployRpc.createConfig w env o = (t, Returned config)
    ∧ Setup.rpcUrl config = None.
Proof.
  intros Hh Hu He Hw. unfold DeployRpc.createConfig.
  rewrite (bool_decide_eq_false_2 _ Hh), Hu, Hw. cbn.
  eexists _, _. split; [reflexivity |].
  cbn. rewrite Hu, He. reflexivity.
Qed.

(** C10.  Take options that name the diamond and the network and come with
    a private key, that do not switch the hardhat configuration off and
    that carry no RPC URL, in an environment without [RPC_URL] (the key
    may come from the options or from the environment).  Then
    [validateOptions] finds nothing, since it asks for an RPC URL only
    when [useHardhatConfig] is [false]; and when loading the hardhat
    configuration throws, [createConfig] falls back to the legacy
    configuration, whose [rpcUrl] is undefined, and [deployDiamond] goes
    on to create its provider with that undefined endpoint and to query
    the network through it. *)
Theorem createConfig_falls_back_without_rpcUrl
    (w : World) (env : Env) (o : DeployRpc.DeploymentOptions) (err : string) :
  truthy (DeployRpc.diamondName o) = true →
  truthy (DeployRpc.networkName o) = true →
  truthy (or_else (or_else (DeployRpc.privateKey o) (env !! "PRIVATE_KEY"))
                  (env !! "TEST_PRIVATE_KEY")) = true →
  DeployRpc.useHardhatConfig o ≠ Some false →
  DeployRpc.rpcUrl o = None →
  env !! "RPC_URL" = None →
  (∀ d n k ov, createConfigFromHardhat w d n k ov = Throws err) →
  DeployRpc.validateOptions env o = ([], Returned tt)
  ∧ (∃ t config,
       DeployRpc.createConfig w env o = (t, Returned config)
       ∧ Setup.rpcUrl config = None)
  ∧ NewJsonRpcProvider None ∈ trace (DeployRpc.deployDiamond w env o)
  ∧ QueryNetwork ∈ trace (DeployRpc.deployDiamond w env o).
Proof.
  intros Hd Hn Hk Hh Hu He Hw.
  assert (Hv : DeployRpc.validateOptions env o = ([], Returned tt)).
  { unfold DeployRpc.validateOptions, DeployRpc.validation_errors, falsy.
    rewrite Hd, Hn, (bool_decide_eq_false_2 _ Hh).
    unfold or_else in Hk.
    destruct (truthy (DeployRpc.privateKey o)); [reflexivity |].
    destruct (truthy (env !! "PRIVATE_KEY")); [reflexivity |].
    rewrite Hk. reflexivity. }
  destruct (deploy_createConfig_fallback w env o err Hh Hu He Hw)
    as (t & config & Hc & Hr).
  split; [exact Hv |]. split; [eauto |].
  pose proof (printPreInfo_connects "RPC Diamond Deployment" w config) as [Hp Hq].
  rewrite Hr in Hp.
  split.
  all: unfold DeployRpc.deployDiamond, DeployRpc.prepare.
  all: apply elem_of_trace_try_catch, elem_of_trace_bind_l.
  all: eapply elem_of_trace_bind_r; [rewrite Hv; reflexivity |].
  all: eapply elem_of_trace_bind_r; [rewrite Hc; reflexivity |].
  all: apply elem_of_trace_bind_l; assumption.
Qed.

Lemma createConfig_falls_back_witness :
  NewJsonRpcProvider None
  ∈ trace (DeployRpc.deployDiamond broken_world ∅ bare_deploy_options).
Proof.
  refine (proj1 (proj2 (proj2
    (createConfig_falls_back_without_rpcUrl broken_world ∅ bare_deploy_options
       "HH: no such network" eq_refl eq_refl eq_refl _ eq_refl eq_refl _)))).
  - discriminate.
  - reflexivity.
Defined.

(** ** Deployments happen after the checks only *)

Lemma printPreInfo_quiet heading w config :
  always not_a_deployment (printPreInfo heading w config).
Proof. unfold printPreInfo. walk; discriminate. Qed.

Lemma fail_with_quiet heading verbose err :
  always not_a_deployment (fail_with heading verbose err).
Proof. unfold fail_with. walk; discriminate. Qed.

Lemma report_errors_quiet errs : always not_a_deployment (report_errors errs).
Proof. unfold report_errors. walk; discriminate. Qed.

Lemma deploy_createConfig_quiet w env o :
  always not_a_deployment (DeployRpc.createConfig w env o).
Proof. unfold DeployRpc.createConfig. walk; discriminate. Qed.

Lemma deploy_prepare_quiet w env o :
  always not_a_deployment (DeployRpc.prepare w env o).
Proof.
  unfold DeployRpc.prepare, DeployRpc.validateOptions,
    DeployRpc.printPreDeploymentInfo.
  apply always_bind; [apply report_errors_quiet | intros _ _].
  apply always_bind; [apply deploy_createConfig_quiet | intros config _].
  apply always_bind; [apply printPreInfo_quiet | intros _ _].
  walk; discriminate.
Qed.

Lemma report_deployed_quiet l v d :
  always not_a_deployment (DeployRpc.report_deployed l v d).
Proof. unfold DeployRpc.report_deployed. walk; discriminate. Qed.

(** C3.  Whatever the options, the environment and the world: when
    [deployDiamond] gets to its check and [isDiamondDeployed] returns
    true, the run holds no call of the deployer's [deployDiamond], the
    only call that deploys, submits transactions and writes the deployment
    record; and once the diamond is read, the run prints the existing
    address and the protocol version the record carries, adds nothing but
    that read and these lines to what came before the check, and
    returns. *)
Theorem deployed_diamond_is_left_alone
    (w : World) (env : Env) (o : DeployRpc.DeploymentOptions)
    (t : list event) (deployer : RPCDiamondDeployer) :
  DeployRpc.prepare w env o = (t, Returned deployer) →
  isDiamondDeployed deployer = true →
  (DeployDiamond ∉ trace (DeployRpc.deployDiamond w env o))
  ∧ ∀ diamond,
      getDiamond deployer = Answers diamond →
      DeployRpc.deployDiamond w env o
      = (t ++ existing_report (getDeployedDiamondData diamond), Returned tt).
Proof.
  intros Hp Hd. split.
  - assert (H : always not_a_deployment (DeployRpc.deployDiamond w env o)).
    { unfold DeployRpc.deployDiamond.
      apply always_try_catch; [| intros e; apply fail_with_quiet].
      apply always_bind; [apply deploy_prepare_quiet |].
      intros d Hr. rewrite Hp in Hr. injection Hr as <-.
      unfold DeployRpc.deploy_unless_deployed. rewrite Hd.
      apply always_bind; [walk; discriminate | intros _ _].
      apply always_bind; [walk; discriminate | intros dm _].
      apply report_deployed_quiet. }
    intros Hin. unfold always in H. rewrite Forall_forall in H.
    exact (H _ Hin eq_refl).
  - intros diamond Hg. unfold DeployRpc.deployDiamond.
    apply try_catch_returned.
    rewrite (bind_returned _ _ _ _ Hp).
    unfold DeployRpc.deploy_unless_deployed. rewrite Hd, Hg.
    unfold existing_report, DeployRpc.report_deployed.
    cbn -[truthy].
    destruct (truthy (Deployed.protocolVersion _)); reflexivity.
Qed.

Lemma deployed_diamond_is_left_alone_witness :
  (DeployDiamond
   ∉ trace (DeployRpc.deployDiamond sample_world ∅ bare_deploy_options))
  ∧ result (DeployRpc.deployDiamond sample_world ∅ bare_deploy_options)
    = Returned tt.
Proof.
  destruct (deployed_diamond_is_left_alone sample_world ∅ bare_deploy_options
              (trace (DeployRpc.prepare sample_world ∅ bare_deploy_options))
              sample_deployer eq_refl eq_refl) as [H1 H2].
  split; [exact H1 |].
  rewrite (H2 sample_diamond eq_refl). reflexivity.
Defined.

(** ** When an upgrade is submitted *)

Lemma truthy_force (f : option bool) : truthy f = true ↔ f = Some true.
Proof. destruct f as [[|]|]; cbv; split; congruence. Qed.

Lemma needsUpgrade_called_for o diamond :
  (∀ v, Deployed.protocolVersion (getDeployedDiamondData diamond) = Some v →
        truthy v = true) →
  (∀ v, DeployConfig.protocolVersion (getDeployConfig diamond) = Some v →
        truthy v = true) →
  UpgradeRpc.needsUpgrade o (getDeployedDiamondData diamond)
    (getDeployConfig diamond) = true
  ↔ upgrade_called_for o diamond.
Proof.
  intros Hd Hc. unfold UpgradeRpc.needsUpgrade, upgrade_called_for.
  rewrite orb_true_iff, truthy_force.
  destruct (Deployed.protocolVersion (getDeployedDiamondData diamond))
    as [dv |]; destruct (DeployConfig.protocolVersion (getDeployConfig diamond))
    as [cv |]; cbn [truthy truthy_option andb].
  - rewrite (Hd dv eq_refl), (Hc cv eq_refl). cbn [andb].
    split; (intros [H | H]; [left; exact H | right]).
    + eauto.
    + destruct H as (? & ? & [= <-] & [= <-] & H). exact H.
  - rewrite ?andb_false_r. split; (intros [H | H]; [left; exact H |]).
    + discriminate.
    + destruct H as (? & ? & _ & [=] & _).
  - split; (intros [H | H]; [left; exact H |]).
    + discriminate.
    + destruct H as (? & ? & [=] & _).
  - split; (intros [H | H]; [left; exact H |]).
    + discriminate.
    + destruct H as (? & ? & [=] & _).
Qed.

Lemma needsUpgrade_false_force o d c :
  UpgradeRpc.needsUpgrade o d c = false → falsy (UpgradeRpc.force o) = true.
Proof.
  unfold UpgradeRpc.needsUpgrade, falsy. intros H.
  apply orb_false_elim in H as [-> _]. reflexivity.
Qed.

Lemma upgrade_analyze_quiet deployer :
  always not_a_deployment (UpgradeRpc.analyzeUpgrade deployer).
Proof. unfold UpgradeRpc.analyzeUpgrade. walk; discriminate. Qed.

Lemma upgrade_createConfig_quiet w env o :
  always not_a_deployment (UpgradeRpc.createConfig w env o).
Proof. unfold UpgradeRpc.createConfig. walk; discriminate. Qed.

Lemma upgrade_prepare_quiet w env o :
  always not_a_deployment (UpgradeRpc.prepare w env o).
Proof.
  unfold UpgradeRpc.prepare, UpgradeRpc.validateOptions,
    UpgradeRpc.printPreUpgradeInfo.
  apply always_bind; [apply report_errors_quiet | intros _ _].
  apply always_bind; [apply upgrade_createConfig_quiet | intros config _].
  apply always_bind; [apply printPreInfo_quiet | intros _ _].
  apply always_bind; [walk; discriminate | intros _ _].
  apply always_bind; [walk; discriminate | intros _ _].
  apply always_bind; [walk; discriminate | intros deployer _].
  apply always_bind; [walk; discriminate | intros _ _].
  apply always_bind; [walk; discriminate | intros _ _].
  apply always_bind; [walk; discriminate | intros validation _].
  apply always_bind; [walk; discriminate | intros _ _].
  apply always_bind; [walk; discriminate | intros _ _].
  apply always_bind; [apply upgrade_analyze_quiet | intros _ _].
  walk; discriminate.
Qed.

Lemma not_in_quiet {A} (m : script A) :
  always not_a_deployment m → DeployDiamond ∉ trace m.
Proof.
  unfold always. rewrite Forall_forall. intros H Hin. exact (H _ Hin eq_refl).
Qed.

(** With [--dry-run] nothing is submitted, forced or not. *)
Lemma dry_run_submits_nothing w env o :
  truthy (UpgradeRpc.dryRun o) = true →
  DeployDiamond ∉ trace (UpgradeRpc.upgradeDiamond w env o).
Proof.
  intros Hdry. apply not_in_quiet. unfold UpgradeRpc.upgradeDiamond.
  apply always_try_catch; [| intros e; apply fail_with_quiet].
  apply always_bind; [apply upgrade_prepare_quiet | intros [d dm] _].
  unfold UpgradeRpc.upgrade_if_needed. rewrite Hdry.
  walk; discriminate.
Qed.

Lemma upgradeDiamond_trace w env o t deployer diamond :
  UpgradeRpc.prepare w env o = (t, Returned (deployer, diamond)) →
  ∃ t', trace (UpgradeRpc.upgradeDiamond w env o)
        = t ++ trace (UpgradeRpc.upgrade_if_needed o deployer diamond) ++ t'
        ∧ (DeployDiamond ∉ t) ∧ (DeployDiamond ∉ t').
Proof.
  intros Hp. unfold UpgradeRpc.upgradeDiamond.
  rewrite trace_try_catch, (bind_returned _ _ _ _ Hp).
  cbn [trace result fst snd].
  eexists. split; [rewrite <- app_assoc; reflexivity |]. split.
  - pose proof (not_in_quiet _ (upgrade_prepare_quiet w env o)) as H.
    rewrite Hp in H. exact H.
  - destruct (result (UpgradeRpc.upgrade_if_needed o deployer diamond));
      [apply not_elem_of_nil | apply not_elem_of_nil |].
    apply not_in_quiet, fail_with_quiet.
Qed.

(** C1.  Once [upgradeDiamond] has got to its check (the options and the
    configuration are valid, the diamond is deployed, the record and the
    target configuration are loaded), dry-run is not requested and no
    protocol version at hand is zero or NaN: the deployer's
    [deployDiamond] is called exactly when the force flag is set or both
    carry a protocol version and the deployed one is strictly less than
    the target; in every other case, an absent version included, the run
    says that no upgrade is needed and returns. *)
Theorem upgrade_submitted_iff_called_for
    (w : World) (env : Env) (o : UpgradeRpc.UpgradeOptions)
    (t : list event) (deployer : RPCDiamondDeployer) (diamond : Diamond) :
  UpgradeRpc.prepare w env o = (t, Returned (deployer, diamond)) →
  truthy (UpgradeRpc.dryRun o) = false →
  (∀ v, Deployed.protocolVersion (getDeployedDiamondData diamond) = Some v →
        truthy v = true) →
  (∀ v, DeployConfig.protocolVersion (getDeployConfig diamond) = Some v →
        truthy v = true) →
  (DeployDiamond ∈ trace (UpgradeRpc.upgradeDiamond w env o)
   ↔ upgrade_called_for o diamond)
  ∧ (¬ upgrade_called_for o diamond →
     UpgradeRpc.upgradeDiamond w env o
     = (t ++ [ConsoleLog [Str "No upgrade needed. Use --force to force upgrade."]],
        Returned tt)).
Proof.
  intros Hp Hdry Hd Hc.
  destruct (needsUpgrade_called_for o diamond Hd Hc) as [Hn Hn'].
  destruct (upgradeDiamond_trace w env o t deployer diamond Hp)
    as (t' & Ht & Hq & Hq').
  destruct (UpgradeRpc.needsUpgrade o (getDeployedDiamondData diamond)
              (getDeployConfig diamond)) eqn:E.
  - split; [| intros Hno; exfalso; apply Hno, Hn; reflexivity].
    split; [intros _; apply Hn; reflexivity | intros _].
    rewrite Ht, !elem_of_app. right. left.
    unfold UpgradeRpc.upgrade_if_needed. rewrite E, Hdry. cbn [negb andb].
    eapply elem_of_trace_bind_r; [reflexivity |].
    apply elem_of_trace_bind_l.
    destruct (deployDiamond deployer); cbn; set_solver.
  - assert (Hs : UpgradeRpc.upgrade_if_needed o deployer diamond
                 = ([ConsoleLog [Str "No upgrade needed. Use --force to force upgrade."]],
                    Returned tt)).
    { unfold UpgradeRpc.upgrade_if_needed.
      rewrite E, (needsUpgrade_false_force _ _ _ E). reflexivity. }
    split.
    + split; [| intros H; apply Hn' in H; discriminate].
      rewrite Ht, Hs, !elem_of_app. cbn [trace fst].
      intros [H | [H | H]]; [done | | done].
      apply list_elem_of_singleton in H. discriminate.
    + intros _. unfold UpgradeRpc.upgradeDiamond.
      apply try_catch_returned.
      rewrite (bind_returned _ _ _ _ Hp), Hs. reflexivity.
Qed.

Lemma upgrade_submitted_witness :
  DeployDiamond
  ∈ trace (UpgradeRpc.upgradeDiamond sample_world ∅ (quick_upgrade_options None None)).
Proof.
  refine (proj2 (proj1
    (upgrade_submitted_iff_called_for sample_world ∅
       (quick_upgrade_options None None)
       (trace (UpgradeRpc.prepare sample_world ∅ (quick_upgrade_options None None)))
       sample_deployer sample_diamond eq_refl eq_refl _ _)) _).
  - intros v [= <-]. reflexivity.
  - intros v [= <-]. reflexivity.
  - right. exists (of_Z 1), (of_Z 2). repeat split; reflexivity.
Defined.

(** A deployed protocol version of 0 is falsy: the comparison is not
    reached and, unforced, the upgrade to version 1 is not submitted. *)
Example upgrade_from_version_zero :
  UpgradeRpc.upgrade_if_needed (quick_upgrade_options None None) sample_deployer
    {| getDeployedDiamondData :=
         {| Deployed.DiamondAddress := Deployed.DiamondAddress sample_deployed;
            Deployed.DeployerAddress := Deployed.DeployerAddress sample_deployed;
            Deployed.protocolVersion := Some (of_Z 0);
            Deployed.DeployedFacets := Deployed.DeployedFacets sample_deployed |};
       getDeployConfig :=
         {| DeployConfig.protocolVersion := Some (of_Z 1);
            DeployConfig.facets := None |} |}
  = ([ConsoleLog [Str "No upgrade needed. Use --force to force upgrade."]],
     Returned tt).
Proof. reflexivity. Qed.

(** The claim as first stated fails on a forced dry run: an upgrade is
    called for, and none is submitted. *)
Lemma forced_dry_run_submits_nothing :
  ¬ (DeployDiamond
       ∈ trace (UpgradeRpc.upgradeDiamond sample_world ∅
                  (quick_upgrade_options (Some true) (Some true)))
     ↔ upgrade_called_for (quick_upgrade_options (Some true) (Some true))
         sample_diamond).
Proof.
  intros [_ H].
  apply (dry_run_submits_nothing sample_world ∅
           (quick_upgrade_options (Some true) (Some true)) eq_refl).
  apply H. left. reflexivity.
Qed.

(** ** Verification of the facets *)

Lemma verify_facets_returned h da entries entries' t :
  VerifyDiamond.verify_facets h da entries = (entries', (t, Returned tt)) →
  entries' = map settled entries ∧ t = flat_map (submitted da) entries.
Proof.
  revert entries' t.
  induction entries as [| [n f] rest IH]; intros entries' t H.
  - cbn in H. injection H as <- <-. split; reflexivity.
  - cbn [VerifyDiamond.verify_facets] in H.
    unfold settled, submitted. cbn [map flat_map fst snd].
    destruct (falsy (VerifyDiamond.verified f)) eqn:Ef.
    + destruct (VerifyDiamond.getContractAt h n da) as [[] | e1];
        [| cbn in H; congruence].
      destruct (VerifyDiamond.run_verify h (VerifyDiamond.address f) [])
        as [[] | e2]; [| cbn in H; congruence].
      cbn [call mbind script_bind result trace fst snd app] in H.
      destruct (VerifyDiamond.verify_facets h da rest) as [rest' [t' r']].
      cbn in H. injection H as <- <- Hr.
      subst r'. destruct (IH rest' t' eq_refl) as [-> ->].
      split; reflexivity.
    + destruct (VerifyDiamond.verify_facets h da rest) as [rest' [t' r']].
      injection H as <- <- Hr.
      subst r'. destruct (IH rest' t' eq_refl) as [-> ->].
      split; reflexivity.
Qed.

Lemma verify_facets_returns h da entries :
  (∀ a args, VerifyDiamond.run_verify h a args = Answers tt) →
  (∀ n a, VerifyDiamond.getContractAt h n a = Answers tt) →
  result (VerifyDiamond.verify_facets h da entries).2 = Returned tt.
Proof.
  intros Hr Hg. induction entries as [| [n f] rest IH]; [reflexivity |].
  cbn [VerifyDiamond.verify_facets]. rewrite Hr, Hg.
  cbn [call mbind script_bind result trace fst snd].
  destruct (VerifyDiamond.verify_facets h da rest) as [rest' [t' r']].
  cbn in IH. subst r'. destruct (falsy _); reflexivity.
Qed.

Lemma settled_verified entry : VerifyDiamond.verified (settled entry).2 = Some true.
Proof.
  unfold settled, falsy. destruct entry as [n [a [[|] |]]]; reflexivity.
Qed.

(** C8.  When [VerifyContracts] returns, every entry of
    [FacetDeployedInfo] is marked verified: the entries are those it was
    given, in their order, an entry whose flag was not set now carrying
    [true] and an entry marked verified being as it was; and the run
    submitted, after the diamond itself where the cut facet was not marked
    verified, exactly the entries whose flag was not set, one after the
    other, and nothing for the others. *)
Theorem VerifyContracts_marks_every_facet
    (h : VerifyDiamond.Hardhat) (info info' : VerifyDiamond.INetworkDeployInfo)
    (t : list event) :
  VerifyDiamond.VerifyContracts h info = (info', (t, Returned tt)) →
  (∀ entry, entry ∈ VerifyDiamond.FacetDeployedInfo info' →
            VerifyDiamond.verified entry.2 = Some true)
  ∧ VerifyDiamond.FacetDeployedInfo info'
    = map settled (VerifyDiamond.FacetDeployedInfo info)
  ∧ (∀ entry, entry ∈ VerifyDiamond.FacetDeployedInfo info →
              VerifyDiamond.verified entry.2 = Some true →
              settled entry = entry ∧ submitted (VerifyDiamond.DiamondAddress info) entry = [])
  ∧ t = submitted_diamond info
        ++ flat_map (submitted (VerifyDiamond.DiamondAddress info))
             (VerifyDiamond.FacetDeployedInfo info).
Proof.
  intros H. unfold VerifyDiamond.VerifyContracts in H.
  assert (Hloop : ∃ t0,
    VerifyDiamond.verify_facets h (VerifyDiamond.DiamondAddress info)
      (VerifyDiamond.FacetDeployedInfo info)
    = (VerifyDiamond.FacetDeployedInfo info', (t0, Returned tt))
    ∧ t = submitted_diamond info ++ t0).
  { unfold submitted_diamond.
    destruct (Ordered.get (VerifyDiamond.FacetDeployedInfo info) "DiamondCutFacet")
      as [cutInfo |]; cbn [mbind option_bind] in H.
    - destruct (falsy (VerifyDiamond.verified cutInfo)).
      + destruct (VerifyDiamond.run_verify h _ _) as [[] | e];
          [| cbn in H; congruence].
        cbn [call result snd] in H.
        destruct (VerifyDiamond.verify_facets h _ _) as [fs [t0 r0]].
        cbn in H. injection H as <- <- ->. eexists. split; reflexivity.
      + cbn [result mret script_ret snd] in H.
        destruct (VerifyDiamond.verify_facets h _ _) as [fs [t0 r0]].
        cbn in H. injection H as <- <- ->. eexists. split; reflexivity.
    - cbn in H. unfold throw in H. congruence. }
  destruct Hloop as (t0 & Hloop & ->).
  apply verify_facets_returned in Hloop as [Hfs ->].
  split; [| split; [exact Hfs | split; [| reflexivity]]].
  - intros entry Hin. rewrite Hfs in Hin.
    apply list_elem_of_fmap in Hin as (e0 & -> & _). apply settled_verified.
  - intros [n f] _ Hv. unfold settled, submitted, falsy. cbn [fst snd] in *.
    rewrite Hv. split; reflexivity.
Qed.

Lemma VerifyContracts_marks_witness :
  VerifyDiamond.FacetDeployedInfo
    (VerifyDiamond.VerifyContracts always_verifying sample_deploy_info).1
  = map settled (VerifyDiamond.FacetDeployedInfo sample_deploy_info).
Proof.
  exact (proj1 (proj2 (VerifyContracts_marks_every_facet always_verifying
                  sample_deploy_info
                  (VerifyDiamond.VerifyContracts always_verifying sample_deploy_info).1
                  (trace (VerifyDiamond.VerifyContracts always_verifying
                            sample_deploy_info).2)
                  eq_refl))).
Defined.

(** With a cut facet on record and verification requests that go through,
    [VerifyContracts] does return. *)
Lemma VerifyContracts_returns h info :
  (∀ a args, VerifyDiamond.run_verify h a args = Answers tt) →
  (∀ n a, VerifyDiamond.getContractAt h n a = Answers tt) →
  is_Some (Ordered.get (VerifyDiamond.FacetDeployedInfo info) "DiamondCutFacet") →
  result (VerifyDiamond.VerifyContracts h info).2 = Returned tt.
Proof.
  intros Hr Hg [cutInfo Hc]. unfold VerifyDiamond.VerifyContracts.
  pose proof (verify_facets_returns h (VerifyDiamond.DiamondAddress info)
                (VerifyDiamond.FacetDeployedInfo info) Hr Hg) as Hl.
  rewrite Hc. cbn [mbind option_bind]. rewrite Hr.
  destruct (VerifyDiamond.verify_facets h _ _) as [fs [t0 r0]].
  cbn in Hl. subst r0. destruct (falsy _); reflexivity.
Qed.

(** ** The retry bound *)

Section Retry.

Context {A : Type} (policy : Resilience.Policy) (rpc : nat → Resilience.Failure + A).

Lemma attempts_exhausted (remaining number : nat) (last : option Resilience.Failure) :
  (∀ n, number ≤ n → ∃ f, rpc n = inl f ∧ Resilience.retriable f = true) →
  ∃ steps last',
    Resilience.attempts policy rpc remaining number last
    = (steps, inl (Resilience.RetriesExhausted last'))
    ∧ Resilience.attempted steps = remaining.
Proof.
  revert number last.
  induction remaining as [| fewer IH]; intros number last Hrpc.
  - eexists _, _. split; reflexivity.
  - destruct (Hrpc number (le_n _)) as (f & Hf & Hret).
    destruct (IH (S number) (Some f)) as (steps & last' & Heq & Hcount).
    { intros n Hn. apply Hrpc. lia. }
    cbn [Resilience.attempts]. rewrite Hf, Hret, Heq.
    eexists _, _. split; [reflexivity |].
    destruct fewer; cbn; rewrite <- Hcount; reflexivity.
Qed.

Lemma attempts_fatal (remaining number k : nat) (last : option Resilience.Failure)
    (cause : Resilience.Failure) :
  k < remaining →
  (∀ n, number ≤ n < number + k →
        ∃ f, rpc n = inl f ∧ Resilience.retriable f = true) →
  rpc (number + k) = inl cause →
  Resilience.retriable cause = false →
  ∃ steps,
    Resilience.attempts policy rpc remaining number last
    = (steps, inl (Resilience.Fatal cause))
    ∧ Resilience.attempted steps = S k.
Proof.
  revert remaining number last.
  induction k as [| k IH]; intros remaining number last Hk Hbefore Hat Hfatal.
  - destruct remaining as [| fewer]; [lia |].
    rewrite Nat.add_0_r in Hat.
    cbn [Resilience.attempts]. rewrite Hat, Hfatal.
    eexists. split; reflexivity.
  - destruct remaining as [| fewer]; [lia |].
    destruct (Hbefore number ltac:(lia)) as (f & Hf & Hret).
    destruct (IH fewer (S number) (Some f)) as (steps & Heq & Hcount).
    + lia.
    + intros n Hn. apply Hbefore. lia.
    + rewrite <- Hat. f_equal. lia.
    + exact Hfatal.
    + cbn [Resilience.attempts]. rewrite Hf, Hret, Heq.
      eexists. split; [reflexivity |].
      destruct fewer; [lia |]. cbn. rewrite <- Hcount. reflexivity.
Qed.

End Retry.

(** C5.  A call that fails with a retriable error at every attempt is
    tried exactly [maxRetries] times and then surfaces a retriable
    TransactionError; a call that meets a fatal failure, at its first
    attempt or after some retriable ones, is not tried again: the fatal
    error surfaces at once. *)
Theorem retry_bound {A : Type} (policy : Resilience.Policy)
    (failing doomed : nat → Resilience.Failure + A) (k : nat)
    (cause : Resilience.Failure) :
  (∀ n, ∃ f, failing n = inl f ∧ Resilience.retriable f = true) →
  k < Resilience.maxRetries policy →
  (∀ n, n < k → ∃ f, doomed n = inl f ∧ Resilience.retriable f = true) →
  doomed k = inl cause →
  Resilience.retriable cause = false →
  (∃ steps e,
     Resilience.withRetry policy failing = (steps, inl e)
     ∧ Resilience.isRetriable e = true
     ∧ Resilience.attempted steps = Resilience.maxRetries policy)
  ∧ (∃ steps,
       Resilience.withRetry policy doomed = (steps, inl (Resilience.Fatal cause))
       ∧ Resilience.attempted steps = S k).
Proof.
  intros Hfail Hk Hbefore Hat Hfatal. unfold Resilience.withRetry. split.
  - destruct (attempts_exhausted policy failing (Resilience.maxRetries policy) 0 None)
      as (steps & last' & Heq & Hcount).
    { intros n _. apply Hfail. }
    exists steps, (Resilience.RetriesExhausted last'). auto.
  - apply (attempts_fatal policy doomed _ 0 k None cause Hk).
    + intros n Hn. apply Hbefore. lia.
    + exact Hat.
    + exact Hfatal.
Qed.

Lemma retry_bound_witness :
  Resilience.attempted (Resilience.withRetry default_policy always_timing_out).1 = 3
  ∧ Resilience.attempted (Resilience.withRetry default_policy reverting_at_once).1 = 1.
Proof.
  destruct (retry_bound default_policy always_timing_out reverting_at_once 0
              Resilience.ExecutionReverted) as [(s1 & e & H1 & _ & C1) (s2 & H2 & C2)].
  - intros n. exists Resilience.RpcTimeout. split; reflexivity.
  - cbn. lia.
  - intros n Hn. lia.
  - reflexivity.
  - reflexivity.
  - rewrite H1, H2. exact (conj C1 C2).
Defined.

(** ** Insertion-ordered maps *)

Section OrderedFacts.

Context `{EqDecision K} {V : Type}.
Implicit Types (m : list (K * V)) (k : K) (v : V).

Lemma get_set_eq m k v : Ordered.get (Ordered.set m k v) k = Some v.
Proof.
  induction m as [| [k0 v0] m IH]; cbn.
  - rewrite decide_True by reflexivity. reflexivity.
  - destruct (decide (k0 = k)) as [-> | Hne]; cbn.
    + rewrite decide_True by reflexivity. reflexivity.
    + rewrite decide_False by exact Hne. exact IH.
Qed.

Lemma get_set_ne m k k' v :
  k ≠ k' → Ordered.get (Ordered.set m k v) k' = Ordered.get m k'.
Proof.
  intros Hne. induction m as [| [k0 v0] m IH]; cbn.
  - rewrite decide_False by exact Hne. reflexivity.
  - destruct (decide (k0 = k)) as [-> | Hk]; cbn.
    + rewrite !decide_False by exact Hne. reflexivity.
    + destruct (decide (k0 = k')); [reflexivity | exact IH].
Qed.

Lemma set_keys m k v :
  (Ordered.set m k v).*1
  = if decide (k ∈ m.*1) then m.*1 else m.*1 ++ [k].
Proof.
  induction m as [| [k0 v0] m IH]; cbn.
  - rewrite decide_False by apply not_elem_of_nil. reflexivity.
  - destruct (decide (k0 = k)) as [-> | Hk]; cbn.
    + rewrite decide_True by apply list_elem_of_here. reflexivity.
    + rewrite IH. destruct (decide (k ∈ m.*1)) as [Hin | Hout].
      * rewrite decide_True by (apply list_elem_of_further, Hin). reflexivity.
      * rewrite decide_False; [reflexivity |].
        rewrite elem_of_cons. intros [-> | H]; [apply Hk; reflexivity | auto].
Qed.

Lemma set_NoDup m k v : NoDup m.*1 → NoDup (Ordered.set m k v).*1.
Proof.
  intros H. rewrite set_keys. destruct (decide (k ∈ m.*1)); [exact H |].
  apply NoDup_app. split; [exact H |]. split.
  - intros x Hx Hk. apply list_elem_of_singleton in Hk as ->. auto.
  - apply NoDup_singleton.
Qed.

Lemma get_Some_elem_of m k v : Ordered.get m k = Some v → (k, v) ∈ m.
Proof.
  induction m as [| [k0 v0] m IH]; cbn; [discriminate |].
  destruct (decide (k0 = k)) as [-> | Hk].
  - intros [= ->]. apply list_elem_of_here.
  - intros H. apply list_elem_of_further, IH, H.
Qed.

Lemma elem_of_get m k v : NoDup m.*1 → (k, v) ∈ m → Ordered.get m k = Some v.
Proof.
  induction m as [| [k0 v0] m IH]; cbn; intros Hnd Hin.
  - apply elem_of_nil in Hin as [].
  - apply NoDup_cons in Hnd as [Hk0 Hnd].
    apply elem_of_cons in Hin as [[= -> ->] | Hin].
    + rewrite decide_True by reflexivity. reflexivity.
    + destruct (decide (k0 = k)) as [-> | Hk]; [| apply IH; assumption].
      exfalso. apply Hk0. apply list_elem_of_fmap. exists (k, v). auto.
Qed.

Lemma get_None_not_elem_of m k : Ordered.get m k = None ↔ k ∉ m.*1.
Proof.
  induction m as [| [k0 v0] m IH]; cbn.
  - split; [intros _; apply not_elem_of_nil | reflexivity].
  - destruct (decide (k0 = k)) as [-> | Hk].
    + split; [discriminate |]. intros H. exfalso. apply H, list_elem_of_here.
    + rewrite IH, elem_of_cons. intuition congruence.
Qed.

End OrderedFacts.

(** ** The registry *)

Section RegistryFacts.

Implicit Types (reg : list (Selector * RegistryEntry.t)) (s : Selector).

Lemma register_get_eq reg s n p :
  Ordered.get (Registry.register s n p reg) s
  = Some (winner (Ordered.get reg s) s n p).
Proof.
  unfold Registry.register, winner.
  destruct (Ordered.get reg s) as [h |] eqn:E.
  - destruct (p <? RegistryEntry.priority h)%Z; [exact E | apply get_set_eq].
  - apply get_set_eq.
Qed.

Lemma register_get_ne reg s s' n p :
  s ≠ s' →
  Ordered.get (Registry.register s n p reg) s' = Ordered.get reg s'.
Proof.
  intros Hne. unfold Registry.register.
  destruct (Ordered.get reg s) as [h |].
  - destruct (p <? RegistryEntry.priority h)%Z;
      [reflexivity | apply get_set_ne, Hne].
  - apply get_set_ne, Hne.
Qed.

Lemma register_NoDup reg s n p :
  NoDup reg.*1 → NoDup (Registry.register s n p reg).*1.
Proof.
  intros H. unfold Registry.register.
  destruct (Ordered.get reg s) as [h |].
  - destruct (p <? RegistryEntry.priority h)%Z; [exact H | apply set_NoDup, H].
  - apply set_NoDup, H.
Qed.

Lemma winner_again held s n p :
  winner (Some (winner held s n p)) s n p = winner held s n p.
Proof.
  unfold winner. destruct held as [h |]; cbn.
  - destruct (p <? RegistryEntry.priority h)%Z eqn:E; cbn.
    + rewrite E. reflexivity.
    + rewrite Z.ltb_irrefl. reflexivity.
  - rewrite Z.ltb_irrefl. reflexivity.
Qed.

Lemma register_selectors_get reg s n p (sels : list Selector) :
  Ordered.get (foldl (λ r x, Registry.register x n p r) reg sels) s
  = if decide (s ∈ sels) then Some (winner (Ordered.get reg s) s n p)
    else Ordered.get reg s.
Proof.
  revert reg. induction sels as [| x sels IH]; intros reg; cbn [foldl].
  - rewrite decide_False by apply not_elem_of_nil. reflexivity.
  - rewrite IH. destruct (decide (x = s)) as [-> | Hx].
    + rewrite register_get_eq, winner_again.
      rewrite (decide_True (P := s ∈ s :: sels)) by apply list_elem_of_here.
      destruct (decide (s ∈ sels)); reflexivity.
    + rewrite register_get_ne by exact Hx.
      destruct (decide (s ∈ sels)) as [Hin | Hout].
      * rewrite decide_True by (apply list_elem_of_further, Hin). reflexivity.
      * rewrite decide_False; [reflexivity |].
        rewrite elem_of_cons. intros [-> | H]; [apply Hx; reflexivity | auto].
Qed.

Lemma register_facets_get reg s (facets : list FacetRecord.t) :
  Ordered.get (foldl Registry.register_facet reg facets) s
  = after_facets s (Ordered.get reg s) facets.
Proof.
  revert reg. induction facets as [| f facets IH]; intros reg; [reflexivity |].
  cbn [foldl after_facets]. rewrite IH. unfold Registry.register_facet.
  rewrite register_selectors_get. reflexivity.
Qed.

Lemma register_facets_NoDup reg (facets : list FacetRecord.t) :
  NoDup reg.*1 → NoDup (foldl Registry.register_facet reg facets).*1.
Proof.
  revert reg. induction facets as [| f facets IH]; intros reg H; [exact H |].
  cbn [foldl]. apply IH. unfold Registry.register_facet.
  generalize (FacetRecord.selectors f). intros sels. revert reg H.
  induction sels as [| x sels IHs]; intros reg H; [exact H |].
  cbn [foldl]. apply IHs, register_NoDup, H.
Qed.

Lemma build_NoDup target : NoDup (Registry.build target).*1.
Proof. apply register_facets_NoDup. constructor. Qed.

Lemma build_get target s :
  Ordered.get (Registry.build target) s = after_facets s None target.
Proof. apply register_facets_get. Qed.

(** Claims of a priority no higher leave the holder's priority bounded. *)
Lemma after_facets_bounded s held facets p :
  (∀ h, held = Some h → (RegistryEntry.priority h ≤ p)%Z) →
  (∀ f, f ∈ facets → s ∈ FacetRecord.selectors f → (FacetRecord.priority f ≤ p)%Z) →
  ∀ h, after_facets s held facets = Some h → (RegistryEntry.priority h ≤ p)%Z.
Proof.
  revert held. induction facets as [| f facets IH]; intros held Hh Hf.
  - exact Hh.
  - cbn [after_facets foldl]. apply IH.
    + destruct (decide (s ∈ FacetRecord.selectors f)) as [Hin | _]; [| exact Hh].
      intros h [= <-]. unfold winner.
      assert (FacetRecord.priority f ≤ p)%Z
        by (apply Hf; [apply list_elem_of_here | exact Hin]).
      destruct held as [h0 |]; [| cbn; assumption].
      destruct (FacetRecord.priority f <? RegistryEntry.priority h0)%Z;
        [apply Hh; reflexivity | cbn; assumption].
    + intros f' Hin. apply Hf, list_elem_of_further, Hin.
Qed.

(** Claims of a strictly lower priority leave the holder in place. *)
Lemma after_facets_stands s e facets :
  (∀ f, f ∈ facets → s ∈ FacetRecord.selectors f →
        (FacetRecord.priority f < RegistryEntry.priority e)%Z) →
  after_facets s (Some e) facets = Some e.
Proof.
  induction facets as [| f facets IH]; intros Hf; [reflexivity |].
  cbn [after_facets foldl].
  destruct (decide (s ∈ FacetRecord.selectors f)) as [Hin | _].
  - unfold winner.
    rewrite (proj2 (Z.ltb_lt _ _) (Hf f (list_elem_of_here _ _) Hin)).
    apply IH. intros f' Hin'. apply Hf, list_elem_of_further, Hin'.
  - apply IH. intros f' Hin'. apply Hf, list_elem_of_further, Hin'.
Qed.

(** The last claimant of the highest priority holds the selector. *)
Lemma resolve_last_highest (before after : list FacetRecord.t)
    (g : FacetRecord.t) s :
  s ∈ FacetRecord.selectors g →
  (∀ f, f ∈ before → s ∈ FacetRecord.selectors f →
        (FacetRecord.priority f ≤ FacetRecord.priority g)%Z) →
  (∀ f, f ∈ after → s ∈ FacetRecord.selectors f →
        (FacetRecord.priority f < FacetRecord.priority g)%Z) →
  Registry.resolve (Registry.build (before ++ g :: after)) s
  = Some (FacetRecord.name g).
Proof.
  intros Hg Hb Ha. unfold Registry.resolve. rewrite build_get.
  unfold after_facets. rewrite foldl_app. cbn [foldl].
  fold (after_facets s None before).
  rewrite decide_True by exact Hg.
  pose proof (after_facets_bounded s None before (FacetRecord.priority g)
                ltac:(discriminate) Hb) as Hbound.
  assert (Hw : winner (after_facets s None before) s (FacetRecord.name g)
                 (FacetRecord.priority g)
               = {| RegistryEntry.selector := s;
                    RegistryEntry.facetName := FacetRecord.name g;
                    RegistryEntry.priority := FacetRecord.priority g;
                    RegistryEntry.action := NoAction |}).
  { unfold winner. destruct (after_facets s None before) as [h |]; [| reflexivity].
    rewrite (proj2 (Z.ltb_ge _ _) (Hbound h eq_refl)). reflexivity. }
  rewrite Hw.
  match goal with |- context [foldl ?F (Some ?e) after] =>
    change (foldl F (Some e) after) with (after_facets s (Some e) after) end.
  rewrite after_facets_stands by exact Ha. reflexivity.
Qed.

End RegistryFacts.

(** C7.  Let a selector be claimed by two facets of a target
    configuration and by no other.  When their priorities differ, the
    registry resolves the selector to the facet of the higher priority,
    whether that facet comes second or first in the configuration; when
    the priorities are equal, it resolves it to the one registered
    last. *)
Theorem priority_determinism (l1 l2 l3 : list FacetRecord.t)
    (f g : FacetRecord.t) (s : Selector) :
  s ∈ FacetRecord.selectors f →
  s ∈ FacetRecord.selectors g →
  (∀ h, h ∈ l1 ++ l2 ++ l3 → s ∉ FacetRecord.selectors h) →
  (FacetRecord.priority f < FacetRecord.priority g →
   Registry.resolve (Registry.build (l1 ++ f :: l2 ++ g :: l3)) s
   = Some (FacetRecord.name g)
   ∧ Registry.resolve (Registry.build (l1 ++ g :: l2 ++ f :: l3)) s
     = Some (FacetRecord.name g))%Z
  ∧ (FacetRecord.priority f = FacetRecord.priority g →
     Registry.resolve (Registry.build (l1 ++ f :: l2 ++ g :: l3)) s
     = Some (FacetRecord.name g)).
Proof.
  intros Hf Hg Hothers.
  assert (Hno : ∀ l h, l ⊆ l1 ++ l2 ++ l3 → h ∈ l →
                       s ∈ FacetRecord.selectors h → False).
  { intros l h Hl Hh. apply Hothers, Hl, Hh. }
  split; [intros Hlt; split | intros Heq].
  - replace (l1 ++ f :: l2 ++ g :: l3) with ((l1 ++ f :: l2) ++ g :: l3)
      by (rewrite <- app_assoc; reflexivity).
    apply resolve_last_highest; [exact Hg | |].
    + intros h Hh Hs. apply elem_of_app in Hh as [Hh | Hh];
        [exfalso; apply (Hno l1 h); [set_solver | done | done] |].
      apply elem_of_cons in Hh as [-> | Hh]; [lia |].
      exfalso. apply (Hno l2 h); [set_solver | done | done].
    + intros h Hh Hs. exfalso. apply (Hno l3 h); [set_solver | done | done].
  - apply resolve_last_highest; [exact Hg | |].
    + intros h Hh Hs. exfalso. apply (Hno l1 h); [set_solver | done | done].
    + intros h Hh Hs. apply elem_of_app in Hh as [Hh | Hh];
        [exfalso; apply (Hno l2 h); [set_solver | done | done] |].
      apply elem_of_cons in Hh as [-> | Hh]; [lia |].
      exfalso. apply (Hno l3 h); [set_solver | done | done].
  - replace (l1 ++ f :: l2 ++ g :: l3) with ((l1 ++ f :: l2) ++ g :: l3)
      by (rewrite <- app_assoc; reflexivity).
    apply resolve_last_highest; [exact Hg | |].
    + intros h Hh Hs. apply elem_of_app in Hh as [Hh | Hh];
        [exfalso; apply (Hno l1 h); [set_solver | done | done] |].
      apply elem_of_cons in Hh as [-> | Hh]; [lia |].
      exfalso. apply (Hno l2 h); [set_solver | done | done].
    + intros h Hh Hs. exfalso. apply (Hno l3 h); [set_solver | done | done].
Qed.

Lemma priority_determinism_witness :
  Registry.resolve (Registry.build [FacetA; FacetB]) 0x22%N = Some "FacetB"
  ∧ Registry.resolve (Registry.build [FacetB; FacetA]) 0x22%N = Some "FacetB".
Proof.
  refine (proj1 (priority_determinism [] [] [] FacetA FacetB 0x22%N _ _ _) _).
  - cbn. apply list_elem_of_further, list_elem_of_here.
  - cbn. apply list_elem_of_here.
  - cbn. intros h Hh. apply elem_of_nil in Hh as [].
  - cbn. lia.
Defined.

(** ** The reconciler *)

Section ReconcilerFacts.

Implicit Types (items : list (Action * Address * Selector))
  (ops : list CutOperation.t) (onChain : gmap Selector Address).

Lemma flatten_group items : flatten (Reconciler.group items) = items.
Proof.
  induction items as [| [[act a] s] rest IH]; [reflexivity |].
  cbn [Reconciler.group].
  destruct (Reconciler.group rest) as [| op ops] eqn:E.
  - rewrite <- IH. reflexivity.
  - rewrite <- IH. destruct (decide _) as [[<- <-] | _]; reflexivity.
Qed.

Lemma apply_cut_flatten ops onChain :
  Reconciler.apply_cut ops onChain = foldl apply_item onChain (flatten ops).
Proof.
  unfold Reconciler.apply_cut. revert onChain.
  induction ops as [| op ops IH]; intros onChain; [reflexivity |].
  cbn [foldl]. rewrite IH. unfold flatten. cbn [mbind list_bind].
  rewrite foldl_app. f_equal.
  unfold Reconciler.apply_operation.
  generalize (CutOperation.selectors op). intros sels. revert onChain.
  induction sels as [| s sels IHs]; intros onChain; [reflexivity |].
  cbn [foldl fmap list_fmap]. rewrite IHs. reflexivity.
Qed.

Lemma sort_groups_Permutation ops :
  (∀ op, op ∈ ops → CutOperation.action op ≠ NoAction) →
  Reconciler.sort_groups ops ≡ₚ ops.
Proof.
  unfold Reconciler.sort_groups, Reconciler.with_action.
  induction ops as [| op ops IH]; intros H; [reflexivity |].
  specialize (IH (λ o Ho, H o (list_elem_of_further _ _ _ Ho))).
  pose proof (H op (list_elem_of_here _ _)) as Hop.
  rewrite !filter_cons.
  destruct (CutOperation.action op) eqn:E; [| | | congruence].
  - rewrite decide_True by reflexivity.
    rewrite !decide_False by discriminate.
    cbn. constructor. exact IH.
  - rewrite (decide_True (P := Replace = Replace)) by reflexivity.
    rewrite !decide_False by discriminate.
    rewrite <- app_comm_cons, <- Permutation_middle. constructor. exact IH.
  - rewrite (decide_True (P := Remove = Remove)) by reflexivity.
    rewrite !decide_False by discriminate.
    rewrite app_assoc, <- Permutation_middle, <- app_assoc.
    constructor. exact IH.
Qed.

Lemma group_actions items op :
  op ∈ Reconciler.group items →
  ∃ a s, (CutOperation.action op, a, s) ∈ items.
Proof.
  revert op. induction items as [| [[act a] s] rest IH]; intros op Hop.
  - apply elem_of_nil in Hop as [].
  - cbn [Reconciler.group] in Hop.
    destruct (Reconciler.group rest) as [| op0 ops].
    + apply list_elem_of_singleton in Hop as ->. cbn.
      eexists _, _. apply list_elem_of_here.
    + destruct (decide _) as [[Ha Hf] | _].
      * apply elem_of_cons in Hop as [-> | Hop].
        -- cbn. eexists _, _. apply list_elem_of_here.
        -- destruct (IH op (list_elem_of_further _ _ _ Hop)) as (a' & s' & H).
           eexists _, _. apply list_elem_of_further, H.
      * apply elem_of_cons in Hop as [-> | Hop].
        -- cbn. eexists _, _. apply list_elem_of_here.
        -- destruct (IH op Hop) as (a' & s' & H).
           eexists _, _. apply list_elem_of_further, H.
Qed.

(** On a list that names each selector once, the cut leaves a selector
    as its item says, and a selector without item as it was. *)
Lemma apply_items_lookup items onChain s :
  NoDup items.*2 →
  (∀ act a, (act, a, s) ∈ items →
            foldl apply_item onChain items !! s
            = Reconciler.apply_selector act a onChain s !! s)
  ∧ (s ∉ items.*2 → foldl apply_item onChain items !! s = onChain !! s).
Proof.
  revert onChain. induction items as [| [[act0 a0] s0] rest IH];
    intros onChain Hnd.
  - split; [intros act a H; apply elem_of_nil in H as [] | reflexivity].
  - cbn [fmap list_fmap snd] in Hnd. apply NoDup_cons in Hnd as [Hs0 Hnd].
    cbn [foldl]. destruct (IH (apply_item onChain (act0, a0, s0)) Hnd)
      as [IHin IHout].
    assert (Hother : s ≠ s0 →
              apply_item onChain (act0, a0, s0) !! s = onChain !! s).
    { intros Hne. unfold apply_item, Reconciler.apply_selector. cbn.
      destruct act0; rewrite ?lookup_insert_ne, ?lookup_delete_ne by congruence;
        reflexivity. }
    split.
    + intros act a Hin. apply elem_of_cons in Hin as [[= -> -> ->] | Hin].
      * rewrite IHout by exact Hs0. reflexivity.
      * assert (s ≠ s0).
        { intros ->. apply Hs0. apply list_elem_of_fmap.
          exists (act, a, s0). auto. }
        rewrite (IHin act a Hin). unfold Reconciler.apply_selector.
        destruct act; rewrite ?lookup_insert_eq, ?lookup_delete_eq;
          try reflexivity. apply Hother; assumption.
    + intros Hout. cbn [fmap list_fmap snd] in Hout.
      apply not_elem_of_cons in Hout as [Hne Hout].
      rewrite IHout by exact Hout. apply Hother, Hne.
Qed.

End ReconcilerFacts.

Section Idempotence.

Context (cutFacet : Address) (target : list FacetRecord.t).

Let registry := Registry.build target.

Lemma elem_of_registry_items onChain act a s :
  (act, a, s) ∈ Reconciler.registry_items target onChain registry
  ↔ ∃ e, (s, e) ∈ registry
         ∧ Reconciler.facetAddress target (RegistryEntry.facetName e) = Some a
         ∧ ((onChain !! s = None ∧ act = Add)
            ∨ (∃ o, onChain !! s = Some o ∧ o ≠ a ∧ act = Replace)).
Proof.
  unfold Reconciler.registry_items. rewrite list_elem_of_omap. split.
  - intros ([s' e] & Hin & Hf). unfold Reconciler.pending in Hf.
    destruct (Reconciler.facetAddress target (RegistryEntry.facetName e))
      as [a' |] eqn:Ea; [| discriminate].
    destruct (onChain !! s') as [o |] eqn:Eo.
    + destruct (decide (o = a')); [discriminate |].
      injection Hf as <- <- <-. exists e. eauto 10.
    + injection Hf as <- <- <-. exists e. eauto 10.
  - intros (e & Hin & Ea & [[Eo ->] | (o & Eo & Hne & ->)]).
    + exists (s, e). split; [exact Hin |].
      unfold Reconciler.pending. rewrite Ea, Eo. reflexivity.
    + exists (s, e). split; [exact Hin |].
      unfold Reconciler.pending. rewrite Ea, Eo.
      rewrite decide_False by exact Hne. reflexivity.
Qed.

Lemma elem_of_orphan_items onChain act a s :
  (act, a, s) ∈ Reconciler.orphan_items cutFacet onChain registry
  ↔ act = Remove ∧ onChain !! s = Some a
    ∧ Ordered.get registry s = None ∧ a ≠ cutFacet.
Proof.
  unfold Reconciler.orphan_items. rewrite list_elem_of_omap. split.
  - intros ([s' o] & Hin & Hf). apply elem_of_map_to_list in Hin.
    destruct (Ordered.get registry s') eqn:Eg; [discriminate |].
    destruct (decide (o = cutFacet)); [discriminate |].
    injection Hf as <- <- <-. auto.
  - intros (-> & Eo & Eg & Hne). exists (s, a).
    split; [apply elem_of_map_to_list, Eo |].
    rewrite Eg, decide_False by exact Hne. reflexivity.
Qed.

Lemma elem_of_planned onChain act a s :
  (act, a, s) ∈ planned cutFacet target onChain
  ↔ (act, a, s) ∈ Reconciler.registry_items target onChain registry
    ∨ (act, a, s) ∈ Reconciler.orphan_items cutFacet onChain registry.
Proof. unfold planned. apply elem_of_app. Qed.

Lemma planned_acts onChain act a s :
  (act, a, s) ∈ planned cutFacet target onChain → act ≠ NoAction.
Proof.
  rewrite elem_of_planned, elem_of_registry_items, elem_of_orphan_items.
  intros [(e & _ & _ & [[_ ->] | (o & _ & _ & ->)]) | (-> & _)]; discriminate.
Qed.

Lemma omap_keys_NoDup {X Y : Type} (f : X → option Y) (kx : X → Selector)
    (ky : Y → Selector) (l : list X) :
  (∀ x y, f x = Some y → ky y = kx x) →
  NoDup (kx <$> l) → NoDup (ky <$> omap f l).
Proof.
  intros Hk. induction l as [| x l IH]; cbn; intros Hnd; [constructor |].
  apply NoDup_cons in Hnd as [Hx Hnd].
  destruct (f x) as [y |] eqn:E; cbn; [| apply IH, Hnd].
  apply NoDup_cons. split; [| apply IH, Hnd].
  intros Hin. apply Hx.
  apply list_elem_of_fmap in Hin as (y' & Hy & Hin).
  apply list_elem_of_omap in Hin as (x' & Hin & E').
  apply list_elem_of_fmap. exists x'. split; [| exact Hin].
  rewrite <- (Hk x y E), <- (Hk x' y' E'). exact Hy.
Qed.

Lemma planned_NoDup onChain : NoDup (planned cutFacet target onChain).*2.
Proof.
  unfold planned. rewrite fmap_app. apply NoDup_app. split; [| split].
  - unfold Reconciler.registry_items.
    apply (omap_keys_NoDup _ fst); [| apply build_NoDup].
    intros [s e] y H. cbn.
    destruct (Reconciler.pending target onChain s e),
             (Reconciler.facetAddress target (RegistryEntry.facetName e));
      try discriminate; injection H as <-; reflexivity.
  - intros s H1 H2.
    apply list_elem_of_fmap in H1 as ([[act1 a1] s1] & -> & H1).
    apply list_elem_of_fmap in H2 as ([[act2 a2] s2] & Hs & H2).
    cbn in Hs. subst s2.
    apply elem_of_registry_items in H1 as (e & Hin & _).
    apply elem_of_orphan_items in H2 as (_ & _ & Hg & _).
    apply get_None_not_elem_of in Hg. apply Hg.
    apply list_elem_of_fmap. exists (s1, e). auto.
  - unfold Reconciler.orphan_items.
    apply (omap_keys_NoDup _ fst); [| apply NoDup_fst_map_to_list].
    intros [s o] y H. cbn.
    destruct (Ordered.get (Registry.build target) s); [discriminate |].
    destruct (decide (o = cutFacet)); [discriminate |].
    injection H as <-. reflexivity.
Qed.

Lemma reconcile_flatten onChain :
  flatten (Reconciler.reconcile cutFacet target onChain) ≡ₚ planned cutFacet target onChain.
Proof.
  unfold Reconciler.reconcile. fold (planned cutFacet target onChain).
  rewrite <- (flatten_group (planned cutFacet target onChain)) at 2.
  unfold flatten. apply bind_Permutation, sort_groups_Permutation.
  intros op Hop. apply group_actions in Hop as (a & s & Hin).
  exact (planned_acts _ _ _ _ Hin).
Qed.

(** The chain after the operations of a run have been applied. *)
Lemma reconciled_lookup onChain s :
  let onChain' :=
    Reconciler.apply_cut (Reconciler.reconcile cutFacet target onChain) onChain in
  (∀ act a, (act, a, s) ∈ planned cutFacet target onChain →
            onChain' !! s = Reconciler.apply_selector act a onChain s !! s)
  ∧ (s ∉ (planned cutFacet target onChain).*2 → onChain' !! s = onChain !! s).
Proof.
  cbv zeta. rewrite apply_cut_flatten.
  pose proof (reconcile_flatten onChain) as Hperm.
  destruct (apply_items_lookup
              (flatten (Reconciler.reconcile cutFacet target onChain)) onChain s)
    as [Hin Hout].
  { rewrite Hperm. apply planned_NoDup. }
  split.
  - intros act a H. apply Hin. rewrite Hperm. exact H.
  - intros H. apply Hout. rewrite Hperm. exact H.
Qed.

Lemma reconciled_registered onChain s e a :
  (s, e) ∈ registry →
  Reconciler.facetAddress target (RegistryEntry.facetName e) = Some a →
  Reconciler.apply_cut (Reconciler.reconcile cutFacet target onChain) onChain !! s
  = Some a.
Proof.
  intros Hin Ha. destruct (reconciled_lookup onChain s) as [Hitem Hnone].
  cbv zeta in Hitem, Hnone.
  destruct (onChain !! s) as [o |] eqn:Eo.
  - destruct (decide (o = a)) as [-> | Hne].
    + rewrite Hnone; [reflexivity |].
      intros Hs. apply list_elem_of_fmap in Hs as ([[act a'] s'] & Hs & Hp).
      cbn in Hs. subst s'. apply elem_of_planned in Hp as [Hp | Hp].
      * apply elem_of_registry_items in Hp
          as (e' & Hin' & Ha' & [[Eo' _] | (o & Eo' & Hne & _)]).
        -- congruence.
        -- pose proof (elem_of_get _ _ _ (build_NoDup target) Hin) as G.
           pose proof (elem_of_get _ _ _ (build_NoDup target) Hin') as G'.
           fold registry in G, G'. congruence.
      * apply elem_of_orphan_items in Hp as (_ & _ & Hg & _).
        pose proof (elem_of_get _ _ _ (build_NoDup target) Hin) as G.
        fold registry in G. congruence.
    + rewrite (Hitem Replace a).
      * cbn. apply lookup_insert_eq.
      * apply elem_of_planned. left. apply elem_of_registry_items.
        exists e. eauto 10.
  - rewrite (Hitem Add a).
    + cbn. apply lookup_insert_eq.
    + apply elem_of_planned. left. apply elem_of_registry_items.
      exists e. eauto 10.
Qed.

Lemma reconciled_unregistered onChain s o :
  Ordered.get registry s = None →
  Reconciler.apply_cut (Reconciler.reconcile cutFacet target onChain) onChain !! s
  = Some o →
  o = cutFacet.
Proof.
  intros Hg Ho. destruct (reconciled_lookup onChain s) as [Hitem Hnone].
  cbv zeta in Hitem, Hnone.
  destruct (onChain !! s) as [o0 |] eqn:Eo.
  - destruct (decide (o0 = cutFacet)) as [-> | Hne].
    + rewrite Hnone in Ho; [congruence |].
      intros Hs. apply list_elem_of_fmap in Hs as ([[act a'] s'] & Hs & Hp).
      cbn in Hs. subst s'. apply elem_of_planned in Hp as [Hp | Hp].
      * apply elem_of_registry_items in Hp as (e' & Hin' & _).
        apply get_None_not_elem_of in Hg. apply Hg.
        apply list_elem_of_fmap. exists (s, e'). auto.
      * apply elem_of_orphan_items in Hp as (_ & Eo' & _ & Hcut). congruence.
    + rewrite (Hitem Remove o0) in Ho.
      * cbn in Ho. rewrite lookup_delete_eq in Ho. discriminate.
      * apply elem_of_planned. right. apply elem_of_orphan_items. auto.
  - rewrite Hnone in Ho; [congruence |].
    intros Hs. apply list_elem_of_fmap in Hs as ([[act a'] s'] & Hs & Hp).
    cbn in Hs. subst s'. apply elem_of_planned in Hp as [Hp | Hp].
    + apply elem_of_registry_items in Hp as (e' & Hin' & _).
      apply get_None_not_elem_of in Hg. apply Hg.
      apply list_elem_of_fmap. exists (s, e'). auto.
    + apply elem_of_orphan_items in Hp as (_ & Eo' & _). congruence.
Qed.

Lemma reconciled_planned_nothing onChain :
  planned cutFacet target (Reconciler.apply_cut (Reconciler.reconcile cutFacet target onChain)
             onChain) = [].
Proof.
  apply elem_of_nil_inv. intros [[act a] s] Hp.
  apply elem_of_planned in Hp as [Hp | Hp].
  - apply elem_of_registry_items in Hp as (e & Hin & Ha & Hcase).
    pose proof (reconciled_registered onChain s e a Hin Ha) as Hs.
    destruct Hcase as [[Eo _] | (o & Eo & Hne & _)]; congruence.
  - apply elem_of_orphan_items in Hp as (_ & Eo & Hg & Hcut).
    apply Hcut. exact (reconciled_unregistered onChain s a Hg Eo).
Qed.

End Idempotence.

(** C6.  For every target configuration and every on-chain facet state,
    once the operations of a first run of the Reconciler have been applied
    to the chain, a second run against the same target configuration
    yields the empty list. *)
Theorem reconcile_idempotent (cutFacet : Address) (target : list FacetRecord.t)
    (onChain : gmap Selector Address) :
  Reconciler.reconcile cutFacet target
    (Reconciler.apply_cut (Reconciler.reconcile cutFacet target onChain) onChain)
  = [].
Proof.
  unfold Reconciler.reconcile at 1.
  fold (planned cutFacet target
          (Reconciler.apply_cut (Reconciler.reconcile cutFacet target onChain)
             onChain)).
  rewrite reconciled_planned_nothing. reflexivity.
Qed.

(** The first scenario of section 8, on an empty chain. *)
Example scenario_fresh :
  Reconciler.reconcile 0xC [FacetA; FacetB] ∅
  = [ {| CutOperation.action := Add; CutOperation.facetAddress := 0xA;
         CutOperation.selectors := [0x11]%N |};
      {| CutOperation.action := Add; CutOperation.facetAddress := 0xB;
         CutOperation.selectors := [0x22; 0x33]%N |} ].
Proof. vm_compute. reflexivity. Qed.

(** Run a second time against the chain as it was, the Reconciler plans
    the same operations again: the list of the second run is not empty. *)
Lemma second_run_on_same_state_not_empty :
  let onChain : gmap Selector Address := ∅ in
  let first := Reconciler.reconcile 0xC [FacetA; FacetB] onChain in
  let second := Reconciler.reconcile 0xC [FacetA; FacetB] onChain in
  first = second ∧ second ≠ [].
Proof. cbv zeta. split; [reflexivity |]. rewrite scenario_fresh. discriminate. Qed.

(** The second scenario of section 8: FacetA owns both selectors on chain
    and the target moves 0x22 to FacetB. *)
Example scenario_moved :
  Reconciler.reconcile 0xC
    [ {| FacetRecord.name := "FacetA"; FacetRecord.address := 0xA;
         FacetRecord.selectors := [0x11]%N; FacetRecord.priority := 1 |};
      {| FacetRecord.name := "FacetB"; FacetRecord.address := 0xB;
         FacetRecord.selectors := [0x22]%N; FacetRecord.priority := 1 |} ]
    {[ 0x11%N := 0xA%N; 0x22%N := 0xA%N ]}
  = [ {| CutOperation.action := Replace; CutOperation.facetAddress := 0xB;
         CutOperation.selectors := [0x22]%N |} ].
Proof. vm_compute. reflexivity. Qed.

(* ===================================================================== *)
(** * Further properties of the scripts                                   *)
(* ===================================================================== *)

(** ** Results of runs *)

Lemma result_try_catch {A} (m : script A) (h : string → script A) :
  result (try_catch m h)
  = match result m with
    | Thrown e => result (h e)
    | r => r
    end.
Proof. destruct m as [t [a | c | e]]; reflexivity. Qed.

Section ExitsOne.

Lemma exits_one_ret {A} (a : A) : exits_one (mret a).
Proof. intros c [=]. Qed.

Lemma exits_one_throw {A} e : exits_one (@throw A e).
Proof. intros c [=]. Qed.

Lemma exits_one_exit {A} : exits_one (@exit A 1).
Proof. intros c [= <-]. reflexivity. Qed.

Lemma exits_one_emit e : exits_one (emit e).
Proof. intros c [=]. Qed.

Lemma exits_one_call {A} e (a : answer A) : exits_one (call e a).
Proof. intros c. destruct a; intros [=]. Qed.

Lemma exits_one_bind {A B} (m : script A) (f : A → script B) :
  exits_one m →
  (∀ a, result m = Returned a → exits_one (f a)) →
  exits_one (m ≫= f).
Proof.
  intros Hm Hf c. rewrite result_bind.
  destruct (result m) as [a | c' | e] eqn:E.
  - apply Hf. reflexivity.
  - intros [= <-]. apply Hm. exact E.
  - discriminate.
Qed.

Lemma exits_one_try_catch {A} (m : script A) (h : string → script A) :
  exits_one m → (∀ e, exits_one (h e)) → exits_one (try_catch m h).
Proof.
  intros Hm Hh c. rewrite result_try_catch.
  destruct (result m) as [a | c' | e] eqn:E.
  - discriminate.
  - intros [= <-]. apply Hm. exact E.
  - apply Hh.
Qed.

Lemma exits_one_for_each {A} (xs : list A) (f : A → script unit) :
  (∀ x, exits_one (f x)) → exits_one (for_each xs f).
Proof.
  intros Hf. induction xs as [| x xs IH]; [apply exits_one_ret |].
  cbn [for_each]. apply exits_one_bind; [apply Hf | intros _ _; exact IH].
Qed.

Lemma exits_one_when (c : bool) (m : script unit) :
  exits_one m → exits_one (when c m).
Proof. intros H. destruct c; [exact H | apply exits_one_ret]. Qed.

End ExitsOne.

Ltac walk_exits :=
  repeat first
    [ apply exits_one_ret | apply exits_one_exit | apply exits_one_throw
    | apply exits_one_when | apply exits_one_for_each; intros ?
    | apply exits_one_try_catch; [| intros ?]
    | apply exits_one_bind; [| intros ? ?]
    | apply exits_one_emit | apply exits_one_call
    | match goal with
      | |- exits_one (if ?c then _ else _) => destruct c
      | |- exits_one (match ?x with _ => _ end) => destruct x
      | |- exits_one (let '(_, _) := ?x in _) => destruct x
      end ].

Lemma fail_with_exits heading verbose err :
  result (fail_with heading verbose err) = Exited 1.
Proof. unfold fail_with. destruct (truthy verbose); reflexivity. Qed.

Lemma guarded_settles (m : script unit) heading verbose :
  exits_one m →
  result (try_catch m (fail_with heading verbose)) = Returned tt
  ∨ result (try_catch m (fail_with heading verbose)) = Exited 1.
Proof.
  intros Hm. rewrite result_try_catch.
  destruct (result m) as [[] | c | e] eqn:E.
  - left. reflexivity.
  - right. rewrite (Hm c E). reflexivity.
  - right. apply fail_with_exits.
Qed.

Lemma printPreInfo_exits heading w config :
  exits_one (printPreInfo heading w config).
Proof. unfold printPreInfo. walk_exits. Qed.

Lemma report_errors_exits errs : exits_one (report_errors errs).
Proof. unfold report_errors. walk_exits. Qed.

Lemma deploy_prepare_exits w env d : exits_one (DeployRpc.prepare w env d).
Proof.
  unfold DeployRpc.prepare, DeployRpc.validateOptions, DeployRpc.createConfig,
    DeployRpc.printPreDeploymentInfo.
  apply exits_one_bind; [apply report_errors_exits | intros _ _].
  apply exits_one_bind; [walk_exits | intros config _].
  apply exits_one_bind; [apply printPreInfo_exits | intros _ _].
  walk_exits.
Qed.

Lemma upgrade_prepare_exits w env u : exits_one (UpgradeRpc.prepare w env u).
Proof.
  unfold UpgradeRpc.prepare, UpgradeRpc.validateOptions, UpgradeRpc.createConfig,
    UpgradeRpc.printPreUpgradeInfo, UpgradeRpc.analyzeUpgrade.
  apply exits_one_bind; [apply report_errors_exits | intros _ _].
  apply exits_one_bind; [walk_exits | intros config _].
  apply exits_one_bind; [apply printPreInfo_exits | intros _ _].
  walk_exits.
Qed.

Lemma verify_run_step_exits w v st : exits_one (VerifyRpc.run_step w v st).
Proof.
  destruct st; cbn [VerifyRpc.run_step];
    unfold VerifyRpc.showContractVerificationInfo; walk_exits.
Qed.

(** X1.  The four main functions never let an exception escape and never
    exit with a code other than 1: a run of [deployDiamond],
    [upgradeDiamond], [checkStatus] or [verifyDeployment] either returns
    or ends the process with exit code 1, whatever the options, the
    environment and the answers of the network and the deployer. *)
Theorem main_functions_settle (w : World) (env : Env)
    (d : DeployRpc.DeploymentOptions) (u : UpgradeRpc.UpgradeOptions)
    (s : StatusRpc.StatusOptions) (v : VerifyRpc.VerifyOptions) :
  (result (DeployRpc.deployDiamond w env d) = Returned tt
   ∨ result (DeployRpc.deployDiamond w env d) = Exited 1)
  ∧ (result (UpgradeRpc.upgradeDiamond w env u) = Returned tt
     ∨ result (UpgradeRpc.upgradeDiamond w env u) = Exited 1)
  ∧ (result (StatusRpc.checkStatus w s) = Returned tt
     ∨ result (StatusRpc.checkStatus w s) = Exited 1)
  ∧ (result (VerifyRpc.verifyDeployment w env v) = Returned tt
     ∨ result (VerifyRpc.verifyDeployment w env v) = Exited 1).
Proof.
  repeat split.
  - apply guarded_settles.
    apply exits_one_bind; [apply deploy_prepare_exits | intros deployer _].
    unfold DeployRpc.deploy_unless_deployed, DeployRpc.report_deployed.
    walk_exits.
  - apply guarded_settles.
    apply exits_one_bind; [apply upgrade_prepare_exits | intros [deployer diamond] _].
    unfold UpgradeRpc.upgrade_if_needed, UpgradeRpc.printUpgradeSummary.
    walk_exits.
  - apply guarded_settles.
    unfold StatusRpc.validateOptions, StatusRpc.showConfiguration,
      StatusRpc.showFacetsDetails.
    apply exits_one_bind; [apply report_errors_exits | intros _ _].
    walk_exits.
  - apply guarded_settles.
    unfold VerifyRpc.validateOptions, VerifyRpc.createConfig.
    apply exits_one_bind; [apply report_errors_exits | intros _ _].
    apply exits_one_bind; [walk_exits | intros config _].
    walk_exits. apply verify_run_step_exits.
Qed.

(** ** Where a deployment can happen *)

Lemma status_showConfiguration_quiet deployer :
  always not_a_deployment (StatusRpc.showConfiguration deployer).
Proof. unfold StatusRpc.showConfiguration. walk; discriminate. Qed.

Lemma status_showFacetsDetails_quiet deployer verbose :
  always not_a_deployment (StatusRpc.showFacetsDetails deployer verbose).
Proof. unfold StatusRpc.showFacetsDetails. walk; discriminate. Qed.

Lemma verify_run_step_quiet w o st :
  always not_a_deployment (VerifyRpc.run_step w o st).
Proof.
  destruct st; cbn [VerifyRpc.run_step];
    unfold VerifyRpc.showContractVerificationInfo; walk; discriminate.
Qed.

(** X2.  The status check and the verification are read-only towards the
    diamond: whatever the options, the environment and the answers they
    get, [checkStatus] and [verifyDeployment] never call the deployer's
    [deployDiamond]. *)
Theorem status_and_verify_never_deploy (w : World) (env : Env)
    (s : StatusRpc.StatusOptions) (v : VerifyRpc.VerifyOptions) :
  (DeployDiamond ∉ trace (StatusRpc.checkStatus w s))
  ∧ (DeployDiamond ∉ trace (VerifyRpc.verifyDeployment w env v)).
Proof.
  split; apply not_in_quiet.
  - unfold StatusRpc.checkStatus, StatusRpc.validateOptions.
    apply always_try_catch; [| intros e; apply fail_with_quiet].
    apply always_bind; [apply report_errors_quiet | intros _ _].
    repeat first
      [ apply status_showConfiguration_quiet
      | apply status_showFacetsDetails_quiet
      | apply always_when
      | apply always_bind; [| intros ? ?]
      | progress (walk; try discriminate) ].
  - unfold VerifyRpc.verifyDeployment, VerifyRpc.validateOptions,
      VerifyRpc.createConfig.
    apply always_try_catch; [| intros e; apply fail_with_quiet].
    apply always_bind; [apply report_errors_quiet | intros _ _].
    repeat first
      [ apply verify_run_step_quiet
      | apply always_for_each; intros ?
      | apply always_bind; [| intros ? ?]
      | progress (walk; try discriminate) ].
Qed.

Lemma deployments_app t1 t2 :
  deployments (t1 ++ t2) = deployments t1 + deployments t2.
Proof. unfold deployments. rewrite List.filter_app, length_app. reflexivity. Qed.

Lemma quiet_deployments {A} (m : script A) :
  always not_a_deployment m → deployments (trace m) = 0.
Proof.
  unfold always, deployments. induction 1 as [| e t He _ IH]; [reflexivity |].
  cbn [List.filter]. destruct e; cbn [is_deployment]; try exact IH.
  exfalso. apply He. reflexivity.
Qed.

Lemma guarded_deployments {A} (m : script A) (f : A → script unit) h (n : nat) :
  always not_a_deployment m →
  (∀ a, result m = Returned a → deployments (trace (f a)) ≤ n) →
  (∀ e, always not_a_deployment (h e)) →
  deployments (trace (try_catch (m ≫= f) h)) ≤ n.
Proof.
  intros Hm Hf Hh. rewrite trace_try_catch, trace_bind, result_bind.
  rewrite !deployments_app, (quiet_deployments m Hm).
  destruct (result m) as [a | c | e] eqn:E.
  - specialize (Hf a eq_refl).
    destruct (result (f a)) as [[] | c | e]; cbn [deployments List.filter length];
      [lia | lia |].
    pose proof (quiet_deployments (h e) (Hh e)). unfold deployments in *. lia.
  - cbn. lia.
  - pose proof (quiet_deployments (h e) (Hh e)). cbn. unfold deployments in *. lia.
Qed.

Lemma call_deployments {A} (a : answer A) (f : A → script unit) :
  (∀ x, always not_a_deployment (f x)) →
  deployments (trace (call DeployDiamond a ≫= f)) = 1.
Proof.
  intros Hf. rewrite trace_bind, deployments_app.
  destruct a as [x | e]; cbn [call trace result fst snd].
  - rewrite (quiet_deployments (f x) (Hf x)). reflexivity.
  - reflexivity.
Qed.

(** X3.  A run of [deployDiamond] or of [upgradeDiamond] calls the
    deployer's [deployDiamond] at most once, whatever the options, the
    environment and the answers it gets; no path retries or repeats
    it. *)
Theorem at_most_one_deployment (w : World) (env : Env)
    (d : DeployRpc.DeploymentOptions) (u : UpgradeRpc.UpgradeOptions) :
  deployments (trace (DeployRpc.deployDiamond w env d)) ≤ 1
  ∧ deployments (trace (UpgradeRpc.upgradeDiamond w env u)) ≤ 1.
Proof.
  split.
  - apply guarded_deployments;
      [apply deploy_prepare_quiet | | intros e; apply fail_with_quiet].
    intros deployer _. unfold DeployRpc.deploy_unless_deployed.
    destruct (isDiamondDeployed deployer).
    + rewrite quiet_deployments; [lia |].
      unfold DeployRpc.report_deployed. walk; discriminate.
    + rewrite trace_bind, deployments_app. cbn [log emit trace result fst snd].
      rewrite call_deployments; [cbn; lia |].
      intros diamond. unfold DeployRpc.report_deployed. walk; discriminate.
  - apply guarded_deployments;
      [apply upgrade_prepare_quiet | | intros e; apply fail_with_quiet].
    intros [deployer diamond] _. unfold UpgradeRpc.upgrade_if_needed.
    destruct (negb _ && _); [rewrite quiet_deployments; [lia | walk; discriminate] |].
    destruct (truthy (UpgradeRpc.dryRun u));
      [rewrite quiet_deployments; [lia | walk; discriminate] |].
    rewrite trace_bind, deployments_app. cbn [log emit trace result fst snd].
    rewrite call_deployments; [cbn; lia |].
    intros upgraded. unfold UpgradeRpc.printUpgradeSummary. walk; discriminate.
Qed.

(** ** What a run has passed when it gets somewhere *)

Lemma ensures_bind {A B} (Q : B → Prop) (m : script A) (f : A → script B) :
  (∀ a, result m = Returned a → ensures Q (f a)) → ensures Q (m ≫= f).
Proof.
  intros Hf b. rewrite result_bind.
  destruct (result m) as [a | c | e]; [apply Hf; reflexivity | discriminate ..].
Qed.

Lemma ensures_ret {A} (Q : A → Prop) (a : A) : Q a → ensures Q (mret a).
Proof. intros H b [= <-]. exact H. Qed.

Lemma ensures_try_catch {A} (Q : A → Prop) (m : script A) h :
  ensures Q m → (∀ e, ensures Q (h e)) → ensures Q (try_catch m h).
Proof.
  intros Hm Hh a. rewrite result_try_catch.
  destruct (result m) as [a' | c | e] eqn:E; [| discriminate | apply Hh].
  intros [= <-]. apply Hm, E.
Qed.

Lemma report_errors_returned errs :
  result (report_errors errs) = Returned tt → errs = [].
Proof.
  destruct errs as [| e errs]; [reflexivity |].
  rewrite report_errors_some by discriminate. discriminate.
Qed.

(** The check of the deployer's validation, as [deployDiamond] and
    [upgradeDiamond] make it, is passed by a valid configuration only. *)
Lemma validity_check_returned (validation : ValidationResult) :
  result (if negb (valid validation)
          then error [Str "Configuration validation failed:"] ;;
               for_each (errors validation) (λ e, error [Str "  - "; Str e]) ;;
               exit 1
          else mret tt) = Returned tt →
  valid validation = true.
Proof.
  destruct (valid validation); [reflexivity |].
  cbn [negb]. rewrite !result_bind, for_each_error. discriminate.
Qed.

Lemma in_guarded_trace {A} (m : script A) (f : A → script unit) h e :
  e ∉ trace m → (∀ err, e ∉ trace (h err)) →
  e ∈ trace (try_catch (m ≫= f) h) →
  ∃ a, result m = Returned a ∧ e ∈ trace (f a).
Proof.
  intros Hm Hh. rewrite trace_try_catch, trace_bind, result_bind.
  rewrite <- app_assoc, !elem_of_app.
  destruct (result m) as [a | c | err].
  - intros [H | [H | H]]; [done | eauto |].
    destruct (result (f a)); [apply elem_of_nil in H as [] ..|].
    exfalso. exact (Hh _ H).
  - intros [H | [H | H]]; [done | apply elem_of_nil in H as [] ..].
  - intros [H | [H | H]]; [done | apply elem_of_nil in H as [] |].
    exfalso. exact (Hh _ H).
Qed.

Lemma deploy_prepare_ensures w env o :
  ensures
    (λ deployer,
       DeployRpc.validation_errors env o = []
       ∧ ∃ config facts validation,
           result (DeployRpc.createConfig w env o) = Returned config
           ∧ queryNetwork w (Setup.rpcUrl config) (Setup.privateKey config)
             = Answers facts
           ∧ getInstance w config = Answers deployer
           ∧ validateConfiguration deployer = Answers validation
           ∧ valid validation = true)
    (DeployRpc.prepare w env o).
Proof.
  unfold DeployRpc.prepare.
  apply ensures_bind. intros [] Hv. apply report_errors_returned in Hv.
  apply ensures_bind. intros config Hc.
  apply ensures_bind. intros [] Hp.
  apply ensures_bind. intros [] _.
  apply ensures_bind. intros deployer Hd. apply call_returned in Hd.
  apply ensures_bind. intros [] _.
  apply ensures_bind. intros validation Hval. apply call_returned in Hval.
  apply ensures_bind. intros [] Hok. apply validity_check_returned in Hok.
  apply ensures_bind. intros [] _.
  apply ensures_ret. split; [exact Hv |].
  assert (∃ facts, queryNetwork w (Setup.rpcUrl config) (Setup.privateKey config)
                   = Answers facts) as [facts Hf].
  { unfold DeployRpc.printPreDeploymentInfo, printPreInfo in Hp.
    destruct (queryNetwork w _ _) as [facts | err]; [eauto |].
    cbn in Hp. discriminate. }
  eauto 10.
Qed.

(** X4.  [deployDiamond] calls the deployer's [deployDiamond] only after
    every check has passed: the options validated without error, the
    configuration was built, the network answered the queries for the
    signer, the deployer was created, its validation of the configuration
    answered valid, and [isDiamondDeployed] returned false. *)
Theorem deployment_only_after_checks (w : World) (env : Env)
    (o : DeployRpc.DeploymentOptions) :
  DeployDiamond ∈ trace (DeployRpc.deployDiamond w env o) →
  DeployRpc.validation_errors env o = []
  ∧ ∃ config facts deployer validation,
      result (DeployRpc.createConfig w env o) = Returned config
      ∧ queryNetwork w (Setup.rpcUrl config) (Setup.privateKey config)
        = Answers facts
      ∧ getInstance w config = Answers deployer
      ∧ validateConfiguration deployer = Answers validation
      ∧ valid validation = true
      ∧ isDiamondDeployed deployer = false.
Proof.
  intros Hin. unfold DeployRpc.deployDiamond in Hin.
  apply in_guarded_trace in Hin as (deployer & Hr & Hin).
  - destruct (deploy_prepare_ensures w env o deployer Hr)
      as (Hv & config & facts & validation & Hc & Hf & Hd & Hval & Hok).
    split; [exact Hv |]. exists config, facts, deployer, validation.
    repeat split; try assumption.
    destruct (isDiamondDeployed deployer) eqn:E; [| reflexivity].
    exfalso. revert Hin. apply not_in_quiet.
    unfold DeployRpc.deploy_unless_deployed, DeployRpc.report_deployed.
    rewrite E. walk; discriminate.
  - apply not_in_quiet, deploy_prepare_quiet.
  - intros err. apply not_in_quiet, fail_with_quiet.
Qed.

Lemma deployment_computed (t : list event) :
  List.existsb is_deployment t = true → DeployDiamond ∈ t.
Proof.
  intros H. apply List.existsb_exists in H as (x & Hx & Hd).
  destruct x; try discriminate. apply list_elem_of_In, Hx.
Qed.

Lemma deployment_only_after_checks_witness :
  DeployRpc.validation_errors ∅ bare_deploy_options = [].
Proof.
  refine (proj1 (deployment_only_after_checks fresh_world ∅ bare_deploy_options _)).
  apply deployment_computed. reflexivity.
Defined.

Lemma deployed_check_returned (deployer : RPCDiamondDeployer) :
  result (if negb (isDiamondDeployed deployer)
          then error [Str "Diamond is not deployed yet. Use deploy-rpc.ts first."] ;;
               exit 1
          else mret tt) = Returned tt →
  isDiamondDeployed deployer = true.
Proof. destruct (isDiamondDeployed deployer); [reflexivity | discriminate]. Qed.

Lemma upgrade_prepare_ensures w env o :
  ensures
    (λ '(deployer, diamond),
       UpgradeRpc.validation_errors env o = []
       ∧ ∃ config validation,
           result (UpgradeRpc.createConfig w env o) = Returned config
           ∧ getInstance w config = Answers deployer
           ∧ isDiamondDeployed deployer = true
           ∧ validateConfiguration deployer = Answers validation
           ∧ valid validation = true
           ∧ getDiamond deployer = Answers diamond)
    (UpgradeRpc.prepare w env o).
Proof.
  unfold UpgradeRpc.prepare.
  apply ensures_bind. intros [] Hv. apply report_errors_returned in Hv.
  apply ensures_bind. intros config Hc.
  apply ensures_bind. intros [] _.
  apply ensures_bind. intros [] _.
  apply ensures_bind. intros [] _.
  apply ensures_bind. intros deployer Hd. apply call_returned in Hd.
  apply ensures_bind. intros [] Hdep. apply deployed_check_returned in Hdep.
  apply ensures_bind. intros [] _.
  apply ensures_bind. intros validation Hval. apply call_returned in Hval.
  apply ensures_bind. intros [] Hok. apply validity_check_returned in Hok.
  apply ensures_bind. intros [] _.
  apply ensures_bind. intros [] _.
  apply ensures_bind. intros diamond Hdm. apply call_returned in Hdm.
  apply ensures_ret. split; [exact Hv |]. eauto 10.
Qed.

(** X5.  [upgradeDiamond] calls the deployer's [deployDiamond] only when
    the options validated without error, the dry-run flag is not set, the
    deployer was created and reports the diamond deployed, its validation
    answered valid, the diamond was read, and an upgrade is needed or
    forced. *)
Theorem upgrade_only_after_checks (w : World) (env : Env)
    (o : UpgradeRpc.UpgradeOptions) :
  DeployDiamond ∈ trace (UpgradeRpc.upgradeDiamond w env o) →
  UpgradeRpc.validation_errors env o = []
  ∧ truthy (UpgradeRpc.dryRun o) = false
  ∧ ∃ config deployer validation diamond,
      result (UpgradeRpc.createConfig w env o) = Returned config
      ∧ getInstance w config = Answers deployer
      ∧ isDiamondDeployed deployer = true
      ∧ validateConfiguration deployer = Answers validation
      ∧ valid validation = true
      ∧ getDiamond deployer = Answers diamond
      ∧ UpgradeRpc.needsUpgrade o (getDeployedDiamondData diamond)
          (getDeployConfig diamond) = true.
Proof.
  intros Hin. unfold UpgradeRpc.upgradeDiamond in Hin.
  apply in_guarded_trace in Hin as ([deployer diamond] & Hr & Hin).
  - destruct (upgrade_prepare_ensures w env o _ Hr)
      as (Hv & config & validation & Hc & Hd & Hdep & Hval & Hok & Hdm).
    unfold UpgradeRpc.upgrade_if_needed in Hin.
    destruct (UpgradeRpc.needsUpgrade o _ _) eqn:En.
    + destruct (truthy (UpgradeRpc.dryRun o)) eqn:Edry.
      * exfalso. revert Hin. apply not_in_quiet.
        cbn [negb andb]. walk; discriminate.
      * split; [exact Hv |]. split; [reflexivity |].
        exists config, deployer, validation, diamond. auto 10.
    + exfalso. revert Hin. apply not_in_quiet.
      rewrite (needsUpgrade_false_force _ _ _ En). cbn [negb andb].
      walk; discriminate.
  - apply not_in_quiet, upgrade_prepare_quiet.
  - intros err. apply not_in_quiet, fail_with_quiet.
Qed.

Lemma upgrade_only_after_checks_witness :
  truthy (UpgradeRpc.dryRun (quick_upgrade_options None None)) = false.
Proof.
  refine (proj1 (proj2 (upgrade_only_after_checks sample_world ∅
                          (quick_upgrade_options None None) _))).
  apply deployment_computed. reflexivity.
Defined.

(** ** createConfig *)

Lemma hardhat_wanted_test (h : option bool) (u : option string) :
  negb (bool_decide (h = Some false)) && falsy u = true ↔ hardhat_wanted h u.
Proof.
  unfold hardhat_wanted, falsy.
  rewrite andb_true_iff, !negb_true_iff, bool_decide_eq_false. reflexivity.
Qed.

Lemma not_consults_nil : ¬ consults_hardhat [].
Proof. intros (d & n & ov & H). apply elem_of_nil in H as []. Qed.

Ltac createConfig_cases h u Hw :=
  destruct (negb (bool_decide (h = Some false)) && falsy u) eqn:Hw;
  [ match goal with
    | |- context [createConfigFromHardhat ?w ?d ?n ?k ?ov] =>
        destruct (createConfigFromHardhat w d n k ov)
    end |].

(** X6.  [createConfig] never fails, in deploy-rpc, upgrade-rpc and
    verify-rpc alike: it returns a configuration whatever the options, the
    environment and the hardhat loader do, an exception of the loader
    being caught.  And it asks for the hardhat configuration exactly when
    [useHardhatConfig] is not [false] and the options carry no RPC URL: an
    RPC URL given as an option switches the hardhat configuration off,
    one set in the environment only does not. *)
Theorem createConfig_returns_and_hardhat_use (w : World) (env : Env)
    (d : DeployRpc.DeploymentOptions) (u : UpgradeRpc.UpgradeOptions)
    (v : VerifyRpc.VerifyOptions) :
  ((∃ config, result (DeployRpc.createConfig w env d) = Returned config)
   ∧ (consults_hardhat (trace (DeployRpc.createConfig w env d))
      ↔ hardhat_wanted (DeployRpc.useHardhatConfig d) (DeployRpc.rpcUrl d)))
  ∧ ((∃ config, result (UpgradeRpc.createConfig w env u) = Returned config)
     ∧ (consults_hardhat (trace (UpgradeRpc.createConfig w env u))
        ↔ hardhat_wanted (UpgradeRpc.useHardhatConfig u) (UpgradeRpc.rpcUrl u)))
  ∧ ((∃ config, result (VerifyRpc.createConfig w env v) = Returned config)
     ∧ (consults_hardhat (trace (VerifyRpc.createConfig w env v))
        ↔ hardhat_wanted (VerifyRpc.useHardhatConfig v) (VerifyRpc.rpcUrl v))).
Proof.
  split; [| split].
  - unfold DeployRpc.createConfig.
    rewrite <- hardhat_wanted_test.
    createConfig_cases (DeployRpc.useHardhatConfig d) (DeployRpc.rpcUrl d) Hw.
    + cbn. split; [eauto |]. split; [reflexivity | intros _].
      eexists _, _, _. apply list_elem_of_further, list_elem_of_here.
    + cbn. split; [eauto |]. split; [reflexivity | intros _].
      eexists _, _, _. apply list_elem_of_further, list_elem_of_here.
    + cbn. split; [eauto |].
      split; [intros H; destruct (not_consults_nil H) | discriminate].
  - unfold UpgradeRpc.createConfig.
    rewrite <- hardhat_wanted_test.
    createConfig_cases (UpgradeRpc.useHardhatConfig u) (UpgradeRpc.rpcUrl u) Hw.
    + cbn. split; [eauto |]. split; [reflexivity | intros _].
      eexists _, _, _. apply list_elem_of_further, list_elem_of_here.
    + cbn. split; [eauto |]. split; [reflexivity | intros _].
      eexists _, _, _. apply list_elem_of_further, list_elem_of_here.
    + cbn. split; [eauto |].
      split; [intros H; destruct (not_consults_nil H) | discriminate].
  - unfold VerifyRpc.createConfig.
    rewrite <- hardhat_wanted_test.
    createConfig_cases (VerifyRpc.useHardhatConfig v) (VerifyRpc.rpcUrl v) Hw.
    + cbn. split; [eauto |]. split; [reflexivity | intros _].
      eexists _, _, _. apply list_elem_of_further, list_elem_of_here.
    + cbn. split; [eauto |]. split; [reflexivity | intros _].
      eexists _, _, _. apply list_elem_of_further, list_elem_of_here.
    + cbn. split; [eauto |].
      split; [intros H; destruct (not_consults_nil H) | discriminate].
Qed.

Lemma finding_nil (c : bool) (msg : string) : finding c msg = [] → c = false.
Proof. destruct c; [discriminate | reflexivity]. Qed.

Lemma deploy_validation_errors_findings env (d : DeployRpc.DeploymentOptions) :
  DeployRpc.validation_errors env d
  = finding (falsy (DeployRpc.diamondName d))
      "Diamond name is required (--diamond-name or first argument)"
    ++ finding (falsy (DeployRpc.networkName d))
         "Network name is required (--network-name or second argument)"
    ++ finding (falsy (DeployRpc.privateKey d) && falsy (env !! "PRIVATE_KEY")
                && falsy (env !! "TEST_PRIVATE_KEY"))
         "Private key is required (--private-key, PRIVATE_KEY, or TEST_PRIVATE_KEY environment variable)"
    ++ finding (bool_decide (DeployRpc.useHardhatConfig d = Some false)
                && (falsy (DeployRpc.rpcUrl d) && falsy (env !! "RPC_URL")))
         "RPC URL is required when hardhat config is disabled (--rpc-url or RPC_URL environment variable)".
Proof.
  unfold DeployRpc.validation_errors. rewrite !push_if_finding.
  destruct (bool_decide (DeployRpc.useHardhatConfig d = Some false));
    cbn [andb finding];
    rewrite ?push_if_finding, ?app_nil_r, <- ?app_assoc; reflexivity.
Qed.

Lemma or_else_truthy (a b : option string) :
  truthy (or_else a b) = truthy a || truthy b.
Proof. unfold or_else. destruct (truthy a) eqn:E; [exact E | reflexivity]. Qed.

Lemma four_findings_nil (c1 c2 c3 c4 : bool) (m1 m2 m3 m4 : string) :
  finding c1 m1 ++ finding c2 m2 ++ finding c3 m3 ++ finding c4 m4 = [] →
  c1 = false ∧ c2 = false ∧ c3 = false ∧ c4 = false.
Proof. destruct c1, c2, c3, c4; cbn; intros H; try discriminate; auto. Qed.

Lemma key_available (k : option string) (env : Env) :
  falsy k && falsy (env !! "PRIVATE_KEY") && falsy (env !! "TEST_PRIVATE_KEY")
  = false →
  truthy (or_else (or_else k (env !! "PRIVATE_KEY")) (env !! "TEST_PRIVATE_KEY"))
  = true.
Proof.
  unfold falsy. rewrite !or_else_truthy.
  destruct (truthy k), (truthy (env !! "PRIVATE_KEY")),
    (truthy (env !! "TEST_PRIVATE_KEY")); cbn; congruence.
Qed.

(** X7.  In legacy mode the validation of the options is enough for a
    complete configuration: when [useHardhatConfig] is [false] and
    [validateOptions] finds nothing, [createConfig] of deploy-rpc and of
    upgrade-rpc returns at once, without any call or output, a
    configuration that names the diamond, the network, the RPC endpoint
    and the signing key. *)
Theorem validated_legacy_config_is_complete (w : World) (env : Env)
    (d : DeployRpc.DeploymentOptions) (u : UpgradeRpc.UpgradeOptions) :
  DeployRpc.useHardhatConfig d = Some false →
  DeployRpc.validation_errors env d = [] →
  UpgradeRpc.useHardhatConfig u = Some false →
  UpgradeRpc.validation_errors env u = [] →
  (∃ config, DeployRpc.createConfig w env d = ([], Returned config)
             ∧ complete config)
  ∧ (∃ config, UpgradeRpc.createConfig w env u = ([], Returned config)
               ∧ complete config).
Proof.
  intros Hd Vd Hu Vu. split.
  - rewrite deploy_validation_errors_findings in Vd.
    apply four_findings_nil in Vd as (Vn & Vnet & Vk & Vr).
    rewrite Hd, bool_decide_eq_true_2 in Vr by reflexivity. cbn [andb] in Vr.
    unfold DeployRpc.createConfig.
    rewrite Hd, bool_decide_eq_true_2 by reflexivity. cbn [negb andb].
    eexists. split; [reflexivity |].
    unfold complete, DeployRpc.legacy_config, falsy in *. cbn.
    rewrite !or_else_truthy.
    apply negb_false_iff in Vn, Vnet.
    repeat split; [exact Vn | exact Vnet | |].
    + destruct (truthy (DeployRpc.rpcUrl d)), (truthy (env !! "RPC_URL"));
        cbn in *; congruence.
    + rewrite <- !or_else_truthy. apply key_available, Vk.
  - unfold UpgradeRpc.validation_errors in Vu.
    rewrite rpc_validation_errors_findings in Vu.
    apply four_findings_nil in Vu as (Vn & Vnet & Vk & Vr).
    rewrite Hu, bool_decide_eq_true_2 in Vr by reflexivity. cbn [andb] in Vr.
    unfold UpgradeRpc.createConfig.
    rewrite Hu, bool_decide_eq_true_2 by reflexivity. cbn [negb andb].
    eexists. split; [reflexivity |].
    unfold complete, UpgradeRpc.legacy_config, falsy in *. cbn.
    rewrite !or_else_truthy.
    apply negb_false_iff in Vn, Vnet.
    repeat split; [exact Vn | | |].
    + destruct (UpgradeRpc.networkName u) as [[| c r] |]; reflexivity.
    + destruct (truthy (UpgradeRpc.rpcUrl u)), (truthy (env !! "RPC_URL"));
        cbn in *; congruence.
    + rewrite <- !or_else_truthy. apply key_available, Vk.
Qed.

Lemma validated_legacy_config_witness :
  (∃ config,
     DeployRpc.createConfig broken_world ∅
       (DeployRpc.legacy_options ∅ legacy_deploy_args) = ([], Returned config)
     ∧ complete config)
  ∧ (∃ config,
       UpgradeRpc.createConfig broken_world ∅
         (UpgradeRpc.legacy_options ∅ legacy_upgrade_args) = ([], Returned config)
       ∧ complete config).
Proof.
  exact (validated_legacy_config_is_complete broken_world ∅
           (DeployRpc.legacy_options ∅ legacy_deploy_args)
           (UpgradeRpc.legacy_options ∅ legacy_upgrade_args)
           eq_refl eq_refl eq_refl eq_refl).
Defined.

Lemma plain_option_falsy (dflt given : option string) :
  truthy dflt = false → truthy given = false →
  truthy (plain_option dflt given) = false.
Proof. intros Hd Hg. destruct given; [exact Hg | exact Hd]. Qed.

(** X8.  The legacy commands do not start without an RPC URL: when
    neither [--rpc-url] nor [RPC_URL] gives one, [deploy-legacy] and
    [upgrade-legacy] report the missing URL among the validation errors
    and exit with code 1, having printed the errors and done nothing
    else. *)
Theorem legacy_commands_require_rpcUrl (w : World) (env : Env)
    (da : DeployRpc.LegacyArgs) (ua : UpgradeRpc.LegacyArgs) :
  truthy (env !! "RPC_URL") = false →
  truthy (DeployRpc.legacy_rpcUrl da) = false →
  truthy (UpgradeRpc.legacy_rpcUrl ua) = false →
  (rpc_url_required
     ∈ DeployRpc.validation_errors env (DeployRpc.legacy_options env da)
   ∧ DeployRpc.deploy_legacy_command w env da
     = (surfaced (DeployRpc.validation_errors env (DeployRpc.legacy_options env da)),
        Exited 1))
  ∧ (rpc_url_required
       ∈ UpgradeRpc.validation_errors env (UpgradeRpc.legacy_options env ua)
     ∧ UpgradeRpc.upgrade_legacy_command w env ua
       = (surfaced (UpgradeRpc.validation_errors env
                      (UpgradeRpc.legacy_options env ua)),
          Exited 1)).
Proof.
  intros He Hd Hu.
  assert (Hin1 : rpc_url_required
            ∈ DeployRpc.validation_errors env (DeployRpc.legacy_options env da)).
  { rewrite deploy_validation_errors_findings.
    cbn [DeployRpc.legacy_options DeployRpc.useHardhatConfig DeployRpc.rpcUrl].
    rewrite bool_decide_eq_true_2 by reflexivity. unfold falsy.
    rewrite (plain_option_falsy _ _ He Hd), He. cbn [negb andb finding].
    rewrite !elem_of_app. right. right. right. apply list_elem_of_here. }
  assert (Hin2 : rpc_url_required
            ∈ UpgradeRpc.validation_errors env (UpgradeRpc.legacy_options env ua)).
  { unfold UpgradeRpc.validation_errors. rewrite rpc_validation_errors_findings.
    cbn [UpgradeRpc.legacy_options UpgradeRpc.useHardhatConfig UpgradeRpc.rpcUrl].
    rewrite bool_decide_eq_true_2 by reflexivity. unfold falsy.
    rewrite (plain_option_falsy _ _ He Hu), He. cbn [negb andb finding].
    rewrite !elem_of_app. right. right. right. apply list_elem_of_here. }
  split; (split; [assumption |]).
  - unfold DeployRpc.deploy_legacy_command, DeployRpc.deployDiamond,
      DeployRpc.prepare.
    apply try_catch_exited, bind_exited, bind_exited, report_errors_some.
    intros E. rewrite E in Hin1. apply elem_of_nil in Hin1 as [].
  - unfold UpgradeRpc.upgrade_legacy_command, UpgradeRpc.upgradeDiamond,
      UpgradeRpc.prepare.
    apply try_catch_exited, bind_exited, bind_exited, report_errors_some.
    intros E. rewrite E in Hin2. apply elem_of_nil in Hin2 as [].
Qed.

Lemma legacy_commands_require_rpcUrl_witness :
  result (DeployRpc.deploy_legacy_command sample_world ∅ legacy_deploy_args_no_url)
  = Exited 1
  ∧ result (UpgradeRpc.upgrade_legacy_command sample_world ∅
              legacy_upgrade_args_no_url) = Exited 1.
Proof.
  assert (He : truthy ((∅ : Env) !! "RPC_URL") = false) by reflexivity.
  destruct (legacy_commands_require_rpcUrl sample_world ∅
              legacy_deploy_args_no_url legacy_upgrade_args_no_url
              He eq_refl eq_refl) as [[_ H1] [_ H2]].
  rewrite H1, H2. split; reflexivity.
Defined.

(** X9.  A [quick] command whose environment lacks [DIAMOND_NAME] or
    [NETWORK_NAME] names each missing variable, shows the example and
    exits with code 1; it does not get to the validation of the options,
    to the network or to the deployer.  This holds for the [quick]
    commands of deploy-rpc, upgrade-rpc and verify-rpc. *)
Theorem quick_commands_require_environment (w : World) (env : Env)
    (dryRun force abi selectors onChain verbose : bool) :
  falsy (env !! "DIAMOND_NAME") || falsy (env !! "NETWORK_NAME") = true →
  DeployRpc.quick_command w env verbose
  = (missing_report env
       "Example: DIAMOND_NAME=ExampleDiamond NETWORK_NAME=sepolia npx ts-node deploy-rpc.ts quick",
     Exited 1)
  ∧ UpgradeRpc.quick_command w env dryRun force verbose
    = (missing_report env
         "Example: DIAMOND_NAME=ExampleDiamond NETWORK_NAME=sepolia npx ts-node upgrade-rpc.ts quick",
       Exited 1)
  ∧ VerifyRpc.quick_command w env abi selectors onChain verbose
    = (missing_report env
         "Example: DIAMOND_NAME=ExampleDiamond NETWORK_NAME=sepolia npx ts-node verify-rpc.ts quick",
       Exited 1).
Proof.
  intros H.
  unfold DeployRpc.quick_command, UpgradeRpc.quick_command,
    VerifyRpc.quick_command, missing_report.
  rewrite H.
  destruct (falsy (env !! "DIAMOND_NAME")), (falsy (env !! "NETWORK_NAME"));
    repeat split; reflexivity.
Qed.

Lemma quick_commands_require_environment_witness :
  result (DeployRpc.quick_command sample_world {[ "DIAMOND_NAME" := "ExampleDiamond" ]}
            false) = Exited 1.
Proof.
  assert (He : falsy (({[ "DIAMOND_NAME" := "ExampleDiamond" ]} : Env) !! "DIAMOND_NAME")
               || falsy (({[ "DIAMOND_NAME" := "ExampleDiamond" ]} : Env)
                           !! "NETWORK_NAME") = true)
    by (vm_compute; reflexivity).
  rewrite (proj1 (quick_commands_require_environment sample_world
                    {[ "DIAMOND_NAME" := "ExampleDiamond" ]}
                    false false false false false false He)).
  reflexivity.
Defined.

(** ** Runs that stop early *)

Lemma never_returns_exits (m : script unit) heading verbose :
  exits_one m → ensures (λ _, False) m →
  result (try_catch m (fail_with heading verbose)) = Exited 1.
Proof.
  intros Hx Hn. destruct (guarded_settles m heading verbose Hx) as [H | H];
    [| exact H].
  exfalso. rewrite result_try_catch in H.
  destruct (result m) as [[] | c | e] eqn:E; [apply (Hn tt E) | discriminate |].
  rewrite fail_with_exits in H. discriminate.
Qed.

Lemma printPreInfo_returned heading w config :
  result (printPreInfo heading w config) = Returned tt →
  ∃ facts,
    queryNetwork w (Setup.rpcUrl config) (Setup.privateKey config) = Answers facts.
Proof.
  unfold printPreInfo.
  destruct (queryNetwork w _ _) as [facts | err]; [eauto |].
  cbn. discriminate.
Qed.

Lemma fail_with_off heading verbose err :
  always off_deployer (fail_with heading verbose err).
Proof. unfold fail_with. walk; reflexivity. Qed.

Lemma printPreInfo_off heading w config :
  always off_deployer (printPreInfo heading w config).
Proof. unfold printPreInfo. walk; reflexivity. Qed.

Lemma report_errors_off errs : always off_deployer (report_errors errs).
Proof. unfold report_errors. walk; reflexivity. Qed.

(** X10.  On a diamond that is not deployed, [upgradeDiamond] and
    [verifyDeployment] stop at their first look at the deployer: when the
    deployer reports nothing deployed, the run ends with exit code 1 and,
    but for creating the deployer, makes no call on it, neither the
    validation of the configuration nor a read of the diamond, a
    verification routine or a deployment. *)
Theorem undeployed_diamond_stops_upgrade_and_verify (w : World) (env : Env)
    (u : UpgradeRpc.UpgradeOptions) (v : VerifyRpc.VerifyOptions) :
  (∀ config deployer,
     getInstance w config = Answers deployer → isDiamondDeployed deployer = false) →
  (result (UpgradeRpc.upgradeDiamond w env u) = Exited 1
   ∧ Forall (λ e, on_deployer e = false) (trace (UpgradeRpc.upgradeDiamond w env u)))
  ∧ (result (VerifyRpc.verifyDeployment w env v) = Exited 1
     ∧ Forall (λ e, on_deployer e = false)
         (trace (VerifyRpc.verifyDeployment w env v))).
Proof.
  intros Hw. split; split.
  - apply never_returns_exits.
    + apply exits_one_bind; [apply upgrade_prepare_exits | intros [d dm] _].
      unfold UpgradeRpc.upgrade_if_needed, UpgradeRpc.printUpgradeSummary.
      walk_exits.
    + apply ensures_bind. intros [d dm] Hr.
      destruct (upgrade_prepare_ensures w env u _ Hr)
        as (_ & config & validation & _ & Hd & Hdep & _).
      rewrite (Hw _ _ Hd) in Hdep. discriminate.
  - change (always off_deployer (UpgradeRpc.upgradeDiamond w env u)).
    unfold UpgradeRpc.upgradeDiamond.
    apply always_try_catch; [| intros e; apply fail_with_off].
    apply always_bind.
    2:{ intros [d dm] Hr. exfalso.
        destruct (upgrade_prepare_ensures w env u _ Hr)
          as (_ & config & validation & _ & Hd & Hdep & _).
        rewrite (Hw _ _ Hd) in Hdep. discriminate. }
    unfold UpgradeRpc.prepare, UpgradeRpc.validateOptions,
      UpgradeRpc.printPreUpgradeInfo.
    apply always_bind; [apply report_errors_off | intros _ _].
    apply always_bind;
      [unfold UpgradeRpc.createConfig; walk; reflexivity | intros config _].
    apply always_bind; [apply printPreInfo_off | intros _ _].
    apply always_bind; [walk; reflexivity | intros _ _].
    apply always_bind; [walk; reflexivity | intros _ _].
    apply always_bind; [walk; reflexivity | intros deployer Hd].
    apply call_returned in Hd.
    apply always_bind; [walk; reflexivity | intros ? Hr].
    rewrite (Hw _ _ Hd) in Hr. discriminate.
  - apply never_returns_exits.
    + unfold VerifyRpc.validateOptions, VerifyRpc.createConfig.
      apply exits_one_bind; [apply report_errors_exits | intros _ _].
      apply exits_one_bind; [walk_exits | intros config _].
      walk_exits. apply verify_run_step_exits.
    + apply ensures_bind. intros _ _. apply ensures_bind. intros config _.
      do 4 (apply ensures_bind; intros _ _).
      apply ensures_bind. intros deployer Hd. apply call_returned in Hd.
      apply ensures_bind. intros ? Hr.
      rewrite (Hw _ _ Hd) in Hr. discriminate.
  - change (always off_deployer (VerifyRpc.verifyDeployment w env v)).
    unfold VerifyRpc.verifyDeployment, VerifyRpc.validateOptions.
    apply always_try_catch; [| intros e; apply fail_with_off].
    apply always_bind; [apply report_errors_off | intros _ _].
    apply always_bind;
      [unfold VerifyRpc.createConfig; walk; reflexivity | intros config _].
    do 4 (apply always_bind; [walk; reflexivity | intros _ _]).
    apply always_bind; [walk; reflexivity | intros deployer Hd].
    apply call_returned in Hd.
    apply always_bind; [walk; reflexivity | intros ? Hr].
    rewrite (Hw _ _ Hd) in Hr. discriminate.
Qed.

Lemma undeployed_diamond_stops_witness :
  result (UpgradeRpc.upgradeDiamond fresh_world ∅ (quick_upgrade_options None None))
  = Exited 1.
Proof.
  refine (proj1 (proj1 (undeployed_diamond_stops_upgrade_and_verify fresh_world ∅
                          (quick_upgrade_options None None)
                          empty_verify_options _))).
  intros config deployer [= <-]. reflexivity.
Defined.

Lemma fail_with_without heading verbose err :
  always without_deployer (fail_with heading verbose err).
Proof. unfold fail_with. walk; split; reflexivity. Qed.

Lemma printPreInfo_without heading w config :
  always without_deployer (printPreInfo heading w config).
Proof. unfold printPreInfo. walk; split; reflexivity. Qed.

Lemma report_errors_without errs : always without_deployer (report_errors errs).
Proof. unfold report_errors. walk; split; reflexivity. Qed.

(** X11.  When the network cannot be reached, [deployDiamond] and
    [upgradeDiamond] end with exit code 1 before the deployer exists: the
    failure of the provider in the pre-flight report stops the run, which
    has neither created the deployer nor made any call on it. *)
Theorem unreachable_network_stops_before_deployer (w : World) (env : Env)
    (d : DeployRpc.DeploymentOptions) (u : UpgradeRpc.UpgradeOptions)
    (err : string) :
  (∀ url key, queryNetwork w url key = Throws err) →
  (result (DeployRpc.deployDiamond w env d) = Exited 1
   ∧ Forall (λ e, on_deployer e = false ∧ creates_deployer e = false)
       (trace (DeployRpc.deployDiamond w env d)))
  ∧ (result (UpgradeRpc.upgradeDiamond w env u) = Exited 1
     ∧ Forall (λ e, on_deployer e = false ∧ creates_deployer e = false)
         (trace (UpgradeRpc.upgradeDiamond w env u))).
Proof.
  intros Hw.
  assert (Hstop : ∀ heading config,
            result (printPreInfo heading w config) = Returned tt → False).
  { intros heading config Hr.
    apply printPreInfo_returned in Hr as [facts Hf].
    rewrite Hw in Hf. discriminate. }
  assert (Hd : always without_deployer (DeployRpc.prepare w env d)
               ∧ ensures (λ _, False) (DeployRpc.prepare w env d)).
  { unfold DeployRpc.prepare, DeployRpc.validateOptions,
      DeployRpc.printPreDeploymentInfo. split.
    - apply always_bind; [apply report_errors_without | intros _ _].
      apply always_bind;
        [unfold DeployRpc.createConfig; walk; split; reflexivity
        | intros config _].
      apply always_bind; [apply printPreInfo_without | intros [] Hr].
      destruct (Hstop _ _ Hr).
    - apply ensures_bind. intros ? _. apply ensures_bind. intros config _.
      apply ensures_bind. intros [] Hr. destruct (Hstop _ _ Hr). }
  assert (Hu : always without_deployer (UpgradeRpc.prepare w env u)
               ∧ ensures (λ _, False) (UpgradeRpc.prepare w env u)).
  { unfold UpgradeRpc.prepare, UpgradeRpc.validateOptions,
      UpgradeRpc.printPreUpgradeInfo. split.
    - apply always_bind; [apply report_errors_without | intros _ _].
      apply always_bind;
        [unfold UpgradeRpc.createConfig; walk; split; reflexivity
        | intros config _].
      apply always_bind; [apply printPreInfo_without | intros [] Hr].
      destruct (Hstop _ _ Hr).
    - apply ensures_bind. intros ? _. apply ensures_bind. intros config _.
      apply ensures_bind. intros [] Hr. destruct (Hstop _ _ Hr). }
  destruct Hd as [Hda Hdn], Hu as [Hua Hun].
  split; split.
  - apply never_returns_exits.
    + apply exits_one_bind; [apply deploy_prepare_exits | intros a Hr].
      destruct (Hdn a Hr).
    + apply ensures_bind. intros a Hr. destruct (Hdn a Hr).
  - change (always without_deployer (DeployRpc.deployDiamond w env d)).
    apply always_try_catch; [| intros e; apply fail_with_without].
    apply always_bind; [exact Hda | intros a Hr]. destruct (Hdn a Hr).
  - apply never_returns_exits.
    + apply exits_one_bind; [apply upgrade_prepare_exits | intros a Hr].
      destruct (Hun a Hr).
    + apply ensures_bind. intros a Hr. destruct (Hun a Hr).
  - change (always without_deployer (UpgradeRpc.upgradeDiamond w env u)).
    apply always_try_catch; [| intros e; apply fail_with_without].
    apply always_bind; [exact Hua | intros a Hr]. destruct (Hun a Hr).
Qed.

Lemma unreachable_network_witness :
  result (DeployRpc.deployDiamond broken_world ∅ bare_deploy_options) = Exited 1.
Proof.
  refine (proj1 (proj1 (unreachable_network_stops_before_deployer broken_world ∅
                          bare_deploy_options (quick_upgrade_options None None)
                          "could not detect network" _))).
  intros url key. reflexivity.
Defined.

(** ** The commands of verify-rpc *)

(** X12.  The [full] command selects all four steps, in the order ABI,
    selectors, on-chain comparison, verification information, whatever
    its command line and the environment; the [quick] command, which has
    no [--verify-contracts] flag, never shows the verification
    information and, given none of its three flags, selects the three
    validations. *)
Theorem full_and_quick_steps (env : Env) (argv : VerifyRpc.VerifyArgs)
    (abi selectors onChain verbose : bool) :
  VerifyRpc.verification_steps (VerifyRpc.full_options env argv)
  = [VerifyRpc.ValidateABIs; VerifyRpc.ValidateSelectors;
     VerifyRpc.CompareOnChainState; VerifyRpc.ShowContractVerificationInfo]
  ∧ (VerifyRpc.ShowContractVerificationInfo
     ∉ VerifyRpc.verification_steps
         (VerifyRpc.quick_options env abi selectors onChain verbose))
  ∧ VerifyRpc.verification_steps
      (VerifyRpc.quick_options env false false false verbose)
    = [VerifyRpc.ValidateABIs; VerifyRpc.ValidateSelectors;
       VerifyRpc.CompareOnChainState].
Proof.
  split; [reflexivity |]. split; [| reflexivity].
  destruct abi, selectors, onChain; cbv -[elem_of];
    rewrite ?elem_of_cons, ?elem_of_nil; intuition discriminate.
Qed.

(** X13.  [verifyDeployment] validates its options as the other scripts
    do: its error list gathers the finding of each of the four checks,
    and when the list is not empty the run prints the heading and one
    line for each error and exits with code 1, with no other event. *)
Theorem verify_validation_reports_and_stops (w : World) (env : Env)
    (v : VerifyRpc.VerifyOptions) :
  VerifyRpc.validation_errors env v ≠ [] →
  VerifyRpc.validation_errors env v
  = finding (falsy (VerifyRpc.diamondName v))
      "Diamond name is required (--diamond-name or DIAMOND_NAME)"
    ++ finding (falsy (VerifyRpc.networkName v))
         "Network name is required (--network-name or NETWORK_NAME)"
    ++ finding (falsy (VerifyRpc.privateKey v) && falsy (env !! "PRIVATE_KEY")
                && falsy (env !! "TEST_PRIVATE_KEY"))
         "Private key is required (--private-key, PRIVATE_KEY, or TEST_PRIVATE_KEY environment variable)"
    ++ finding (bool_decide (VerifyRpc.useHardhatConfig v = Some false)
                && (falsy (VerifyRpc.rpcUrl v) && falsy (env !! "RPC_URL")))
         "RPC URL is required when hardhat config is disabled (--rpc-url or RPC_URL environment variable)"
  ∧ VerifyRpc.verifyDeployment w env v
    = (surfaced (VerifyRpc.validation_errors env v), Exited 1).
Proof.
  intros H. split; [apply rpc_validation_errors_findings |].
  unfold VerifyRpc.verifyDeployment.
  apply try_catch_exited, bind_exited, report_errors_some, H.
Qed.

Lemma verify_validation_witness :
  result (VerifyRpc.verifyDeployment sample_world ∅ empty_verify_options)
  = Exited 1.
Proof.
  assert (H : VerifyRpc.validation_errors ∅ empty_verify_options ≠ [])
    by (vm_compute; discriminate).
  rewrite (proj2 (verify_validation_reports_and_stops sample_world ∅
                    empty_verify_options H)).
  reflexivity.
Defined.

(** ** The analysis of an upgrade *)

Lemma when_log_returns (c : bool) (m : message) :
  result (when c (log m)) = Returned tt.
Proof. destruct c; reflexivity. Qed.

Lemma when_log_trace (c : bool) (m : message) :
  trace (when c (log m)) = if c then [ConsoleLog m] else [].
Proof. destruct c; reflexivity. Qed.

Lemma filter_split_nil {X} (P : X → Prop) `{∀ x, Decision (P x)}
    `{∀ x, Decision (¬ P x)} (l : list X) :
  filter P l = [] → filter (λ x, ¬ P x) l = [] → l = [].
Proof.
  destruct l as [| x l]; [reflexivity |]. rewrite !filter_cons.
  destruct (decide (P x)) as [Hp | Hn].
  - discriminate.
  - rewrite decide_True by exact Hn. discriminate.
Qed.

Lemma length_zero_nil {X} (l : list X) : (length l =? 0) = true ↔ l = [].
Proof. destruct l; cbn; split; congruence. Qed.

Lemma lacks_nil {X} (name : string) :
  lacks ([] : list (string * X)) name = true ↔ name ∉ inherited_names.
Proof.
  unfold lacks. rewrite bool_decide_eq_true. cbn [fmap list_fmap].
  split; [intros [_ H]; exact H | intros H; split; [apply not_elem_of_nil | exact H]].
Qed.

Lemma no_facet_changes (current : list (string * FacetData.t))
    (config : list (string * unit)) :
  (length (filter (λ name, lacks current name = true) config.*1) =? 0)
  && (length (filter (λ name, lacks current name = false) config.*1) =? 0)
  && (length (filter (λ name, lacks config name = true) current.*1) =? 0) = true
  ↔ config = [] ∧ Forall (λ name, name ∈ inherited_names) current.*1.
Proof.
  rewrite !andb_true_iff, !length_zero_nil. split.
  - intros [[Hnew Hupd] Hrem].
    assert (Hc : config = []).
    { apply fmap_nil_inv with (f := fst).
      destruct (config.*1) as [| x l]; [reflexivity |].
      rewrite !filter_cons in Hnew, Hupd.
      destruct (lacks current x);
        [rewrite decide_True in Hnew by reflexivity
        | rewrite decide_True in Hupd by reflexivity]; discriminate. }
    subst config. split; [reflexivity |].
    induction (current.*1) as [| x l IH]; [constructor |].
    rewrite filter_cons in Hrem.
    destruct (decide (lacks [] x = true)) as [_ | Hx]; [discriminate |].
    constructor; [| exact (IH Hrem)].
    rewrite lacks_nil in Hx.
    destruct (decide (x ∈ inherited_names)); [assumption | contradiction].
  - intros [-> Hall]. repeat split; try reflexivity.
    induction Hall as [| x l Hx _ IH]; [reflexivity |].
    rewrite filter_cons, decide_False; [exact IH |].
    rewrite lacks_nil. intros Hn. exact (Hn Hx).
Qed.

(** X14.  [analyzeUpgrade] takes every configured facet that is already
    deployed for potentially updated, and a facet on record for removed
    unless a lookup of its name in the configuration finds something.
    So, once the diamond is read, it reports that no facet changes were
    detected exactly when the configuration holds no facet and every
    facet on record bears a name that any object inherits, such as
    [toString] or [constructor]; with ordinary facet names, exactly when
    neither the record nor the configuration holds a facet. *)
Theorem no_facet_changes_reported_iff (deployer : RPCDiamondDeployer)
    (diamond : Diamond) :
  getDiamond deployer = Answers diamond →
  let recorded :=
    default [] (Deployed.DeployedFacets (getDeployedDiamondData diamond)) in
  let configured := default [] (DeployConfig.facets (getDeployConfig diamond)) in
  (ConsoleLog [Str "  No facet changes detected"]
     ∈ trace (UpgradeRpc.analyzeUpgrade deployer)
   ↔ configured = [] ∧ Forall (λ name, name ∈ inherited_names) recorded.*1)
  ∧ (Forall (λ name, name ∉ inherited_names) recorded.*1 →
     ConsoleLog [Str "  No facet changes detected"]
       ∈ trace (UpgradeRpc.analyzeUpgrade deployer)
     ↔ recorded = [] ∧ configured = []).
Proof.
  intros Hg. cbv zeta.
  assert (Hiff : ConsoleLog [Str "  No facet changes detected"]
                   ∈ trace (UpgradeRpc.analyzeUpgrade deployer)
                 ↔ default [] (DeployConfig.facets (getDeployConfig diamond)) = []
                   ∧ Forall (λ name, name ∈ inherited_names)
                       (default [] (Deployed.DeployedFacets
                                      (getDeployedDiamondData diamond))).*1).
  { rewrite <- no_facet_changes.
    unfold UpgradeRpc.analyzeUpgrade. rewrite Hg.
    repeat (rewrite trace_bind, ?result_bind, ?when_log_returns;
            cbn [call log emit result trace fst snd]).
    rewrite !when_log_trace, !elem_of_app, !elem_of_cons, !elem_of_nil.
    match goal with |- _ ↔ ?c = true => destruct c end;
      repeat match goal with
             | |- context [if ?c then _ else _] => destruct c
             end;
      rewrite ?list_elem_of_singleton, ?elem_of_nil;
      intuition congruence. }
  split; [exact Hiff |].
  intros Hord. rewrite Hiff. split.
  - intros [Hc Hall]. split; [| exact Hc].
    apply fmap_nil_inv with (f := fst).
    destruct ((default [] (Deployed.DeployedFacets
                             (getDeployedDiamondData diamond))).*1)
      as [| x l]; [reflexivity |].
    inversion Hord; inversion Hall; subst. contradiction.
  - intros [-> Hc]. split; [exact Hc | constructor].
Qed.

Lemma no_facet_changes_witness :
  ConsoleLog [Str "  No facet changes detected"]
    ∈ trace (UpgradeRpc.analyzeUpgrade bare_deployer).
Proof.
  apply (proj2 (proj1 (no_facet_changes_reported_iff bare_deployer bare_diamond
                         eq_refl))).
  split; [reflexivity | constructor].
Defined.

(** ** More on the verification of the facets *)

Lemma VerifyContracts_returned h info info' t :
  VerifyDiamond.VerifyContracts h info = (info', (t, Returned tt)) →
  is_Some (Ordered.get (VerifyDiamond.FacetDeployedInfo info) "DiamondCutFacet")
  ∧ info' = {| VerifyDiamond.DiamondAddress := VerifyDiamond.DiamondAddress info;
               VerifyDiamond.DeployerAddress := VerifyDiamond.DeployerAddress info;
               VerifyDiamond.FacetDeployedInfo :=
                 map settled (VerifyDiamond.FacetDeployedInfo info) |}.
Proof.
  unfold VerifyDiamond.VerifyContracts.
  destruct (Ordered.get (VerifyDiamond.FacetDeployedInfo info) "DiamondCutFacet")
    as [cutInfo |]; cbn [mbind option_bind];
    [| cbn; unfold throw; congruence].
  intros H. split; [eauto |].
  assert (∃ first : script unit,
            match result first with
            | Returned _ =>
                let '(facets', run) :=
                  VerifyDiamond.verify_facets h (VerifyDiamond.DiamondAddress info)
                    (VerifyDiamond.FacetDeployedInfo info) in
                ({| VerifyDiamond.DiamondAddress := VerifyDiamond.DiamondAddress info;
                    VerifyDiamond.DeployerAddress := VerifyDiamond.DeployerAddress info;
                    VerifyDiamond.FacetDeployedInfo := facets' |}, first ;; run)
            | _ => (info, first)
            end = (info', (t, Returned tt))) as [first Hf] by eauto.
  clear H. destruct first as [t1 [[] | c | e]]; cbn [result snd] in Hf;
    [| congruence ..].
  destruct (VerifyDiamond.verify_facets h _ _) as [fs [t0 r0]] eqn:E.
  cbn in Hf. injection Hf as <- _ ->.
  apply verify_facets_returned in E as [-> _]. reflexivity.
Qed.

Lemma get_settled (entries : list (string * VerifyDiamond.FacetInfo)) key :
  Ordered.get (map settled entries) key
  = (λ f, (settled (key, f)).2) <$> Ordered.get entries key.
Proof.
  induction entries as [| [k f] rest IH]; [reflexivity |].
  cbn [map Ordered.get settled fst snd].
  destruct (decide (k = key)) as [-> | _]; [reflexivity | exact IH].
Qed.

Lemma verify_facets_verified h da entries :
  Forall (λ entry, VerifyDiamond.verified entry.2 = Some true) entries →
  VerifyDiamond.verify_facets h da entries = (entries, ([], Returned tt)).
Proof.
  induction 1 as [| [n f] rest Hv _ IH]; [reflexivity |].
  cbn [VerifyDiamond.verify_facets]. cbn in Hv. unfold falsy.
  rewrite Hv, IH. reflexivity.
Qed.

(** X15.  Verifying again after a successful run asks for nothing: when
    [VerifyContracts] has returned, a second call on the records it left
    makes no request, for the diamond or for any facet, changes nothing
    and returns, whatever the verification service would answer. *)
Theorem VerifyContracts_again_is_silent (h h' : VerifyDiamond.Hardhat)
    (info info' : VerifyDiamond.INetworkDeployInfo) (t : list event) :
  VerifyDiamond.VerifyContracts h info = (info', (t, Returned tt)) →
  VerifyDiamond.VerifyContracts h' info' = (info', ([], Returned tt)).
Proof.
  intros H. apply VerifyContracts_returned in H as [[cutInfo Hc] ->].
  unfold VerifyDiamond.VerifyContracts.
  cbn [VerifyDiamond.FacetDeployedInfo VerifyDiamond.DiamondAddress
       VerifyDiamond.DeployerAddress].
  rewrite get_settled, Hc. cbn [fmap option_fmap option_map mbind option_bind].
  rewrite settled_verified. unfold falsy. cbn [truthy truthy_option truthy_bool negb].
  cbn [result mret script_ret snd].
  rewrite verify_facets_verified; [reflexivity |].
  apply Forall_forall. intros entry Hin.
  apply list_elem_of_In, in_map_iff in Hin as (e0 & <- & _).
  apply settled_verified.
Qed.

Lemma VerifyContracts_again_witness :
  VerifyDiamond.VerifyContracts never_verifying
    (VerifyDiamond.VerifyContracts always_verifying sample_deploy_info).1
  = ((VerifyDiamond.VerifyContracts always_verifying sample_deploy_info).1,
     ([], Returned tt)).
Proof.
  exact (VerifyContracts_again_is_silent always_verifying never_verifying
           sample_deploy_info
           (VerifyDiamond.VerifyContracts always_verifying sample_deploy_info).1
           (trace (VerifyDiamond.VerifyContracts always_verifying
                     sample_deploy_info).2)
           eq_refl).
Defined.



Lemma verify_facets_requests h da entries :
  Forall (λ e, is_request e = true)
    (trace (VerifyDiamond.verify_facets h da entries).2).
Proof.
  induction entries as [| [n f] entries IH]; [constructor |].
  cbn [VerifyDiamond.verify_facets].
  destruct (falsy (VerifyDiamond.verified f)).
  - destruct (VerifyDiamond.getContractAt h n da) as [[] | e1];
      [| repeat constructor].
    destruct (VerifyDiamond.run_verify h (VerifyDiamond.address f) [])
      as [[] | e2]; [| repeat constructor].
    cbn [call mbind script_bind result trace fst snd app].
    destruct (VerifyDiamond.verify_facets h da entries) as [fs [t0 r0]].
    cbn [fst snd trace] in *. destruct r0; repeat constructor; exact IH.
  - destruct (VerifyDiamond.verify_facets h da entries) as [fs [t0 r0]].
    exact IH.
Qed.

Lemma VerifyContracts_requests h info :
  Forall (λ e, is_request e = true)
    (trace (VerifyDiamond.VerifyContracts h info).2).
Proof.
  unfold VerifyDiamond.VerifyContracts.
  set (first := if falsy _ then _ else _).
  assert (Hf : Forall (λ e, is_request e = true) (trace first)).
  { subst first. destruct (falsy _); [| constructor].
    destruct (Ordered.get _ _) as [cutInfo |]; [| constructor].
    destruct (VerifyDiamond.run_verify h _ _); repeat constructor. }
  pose proof (verify_facets_requests h (VerifyDiamond.DiamondAddress info)
                (VerifyDiamond.FacetDeployedInfo info)) as Hv.
  destruct first as [t1 [[] | c | e]]; cbn [result snd]; try exact Hf.
  destruct (VerifyDiamond.verify_facets h _ _) as [fs [t0 r0]].
  cbn [snd]. rewrite trace_bind. apply Forall_app. split; [exact Hf |].
  exact Hv.
Qed.

(** X17.  A record that lists no [DiamondCutFacet] cannot be verified:
    [VerifyContracts] fails on reading the address of the missing entry
    before it has asked for anything, and leaves the record as it was,
    also when other facets of the record are still unverified. *)
Theorem VerifyContracts_needs_DiamondCutFacet (h : VerifyDiamond.Hardhat)
    (info : VerifyDiamond.INetworkDeployInfo) :
  Ordered.get (VerifyDiamond.FacetDeployedInfo info) "DiamondCutFacet" = None →
  (VerifyDiamond.VerifyContracts h info).1 = info
  ∧ trace (VerifyDiamond.VerifyContracts h info).2 = []
  ∧ ∃ e, result (VerifyDiamond.VerifyContracts h info).2 = Thrown e.
Proof.
  intros Hc. unfold VerifyDiamond.VerifyContracts. rewrite Hc.
  cbn. eauto.
Qed.

Lemma VerifyContracts_needs_DiamondCutFacet_witness :
  (VerifyDiamond.VerifyContracts always_verifying uncut_deploy_info).1
  = uncut_deploy_info
  ∧ trace (VerifyDiamond.VerifyContracts always_verifying uncut_deploy_info).2 = []
  ∧ ∃ e, result (VerifyDiamond.VerifyContracts always_verifying
                   uncut_deploy_info).2 = Thrown e.
Proof.
  exact (VerifyContracts_needs_DiamondCutFacet always_verifying
           uncut_deploy_info eq_refl).
Defined.

(** ** The verification script *)

Lemma Ordered_set_same {V} (m : list (string * V)) key v :
  Ordered.get m key = Some v → Ordered.set m key v = m.
Proof.
  induction m as [| [k old] m IH]; [discriminate |].
  cbn [Ordered.get Ordered.set].
  destruct (decide (k = key)); [congruence |].
  intros H. rewrite (IH H). reflexivity.
Qed.

Lemma Ordered_set_keys {V} (m : list (string * V)) key v :
  is_Some (Ordered.get m key) → (Ordered.set m key v).*1 = m.*1.
Proof.
  induction m as [| [k old] m IH]; [intros [? [=]] |].
  cbn [Ordered.get Ordered.set].
  destruct (decide (k = key)); [reflexivity |].
  intros H. cbn. rewrite (IH H). reflexivity.
Qed.

Lemma Ordered_get_set_ne {V} (m : list (string * V)) key other v :
  other ≠ key → Ordered.get (Ordered.set m key v) other = Ordered.get m other.
Proof.
  intros Hne. induction m as [| [k old] m IH].
  - cbn. destruct (decide (key = other)); congruence.
  - cbn [Ordered.get Ordered.set].
    destruct (decide (k = key)) as [-> |].
    + cbn [Ordered.get]. destruct (decide (key = other)); congruence.
    + cbn [Ordered.get]. rewrite IH. reflexivity.
Qed.

Lemma request_not_routine t name :
  Forall (λ e, is_request e = true) t → Routine name ∉ t.
Proof.
  intros H Hin. rewrite Forall_forall in H. apply H in Hin. discriminate.
Qed.

(** X18.  The verification script writes the deployment records back
    exactly when it runs as the main module on a network other than
    hardhat that has a record, and either the network is localhost, where
    nothing is verified, or the verification of the contracts went
    through: a failed verification writes nothing. *)
Theorem records_written_only_after_verification (isMain : bool)
    (networkName : string)
    (deployments : list (string * VerifyDiamond.INetworkDeployInfo))
    (h : VerifyDiamond.Hardhat) (write : answer unit) :
  Routine "writeDeployedInfo"
    ∈ trace (VerifyDiamond.main isMain networkName deployments h write).2
  ↔ isMain = true
    ∧ networkName ≠ "hardhat"
    ∧ ∃ info, Ordered.get deployments networkName = Some info
              ∧ (networkName = "localhost"
                 ∨ result (VerifyDiamond.VerifyContracts h info).2 = Returned tt).
Proof.
  unfold VerifyDiamond.main.
  destruct isMain; [| cbn; rewrite elem_of_nil; intuition discriminate].
  destruct (Ordered.get deployments networkName) as [info |].
  2:{ split; [| intros (_ & _ & ? & [=] & _)].
      case_bool_decide; cbn;
        rewrite ?elem_of_cons, ?elem_of_nil; intuition discriminate. }
  case_bool_decide as Hlocal.
  - assert (Hh : networkName ≠ "hardhat").
    { intros ->. apply Hlocal. left. }
    assert (Hl : networkName ≠ "localhost").
    { intros ->. apply Hlocal. right. left. }
    transitivity (result (VerifyDiamond.VerifyContracts h info).2 = Returned tt).
    2:{ split.
        - intros Hr. split; [reflexivity |]. split; [exact Hh |].
          exists info. split; [reflexivity | right; exact Hr].
        - intros (_ & _ & i & [= <-] & [? | ?]); [contradiction | assumption]. }
    pose proof (VerifyContracts_requests h info) as Hreq.
    destruct (VerifyDiamond.VerifyContracts h info) as [info' [t r]].
    cbn [snd fst trace result] in *.
    rewrite bool_decide_eq_true_2 by exact Hh.
    pose proof (request_not_routine t "writeDeployedInfo" Hreq) as Hno.
    destruct r as [[] | c | e]; destruct write as [[] | we];
      cbn [try_catch mbind script_bind when call fst snd result trace error
           exit emit mret script_ret app];
      rewrite ?app_nil_r, ?elem_of_app, ?elem_of_cons, ?elem_of_nil;
      intuition discriminate.
  - assert (Hin : networkName ∈ ["hardhat"; "localhost"]).
    { destruct (decide (networkName ∈ ["hardhat"; "localhost"])); [assumption |].
      contradiction. }
    rewrite !elem_of_cons, elem_of_nil in Hin.
    destruct Hin as [-> | [-> | []]].
    + cbn. rewrite elem_of_nil. intuition congruence.
    + destruct write as [[] | we]; cbn;
        rewrite ?elem_of_cons, ?elem_of_nil;
        (split; [intros _; split; [reflexivity | split; [discriminate | eauto]]
                | intros _; left; reflexivity]).
Qed.

(** X19.  The verification script touches the record of its own network
    only: the networks on record and their order stay, the record of every
    other network is as before; when the script is not the main module,
    the network is hardhat or localhost, or the network has no record,
    the records are unchanged and no verification is requested; and no
    exception leaves the script. *)
Theorem main_touches_one_record (isMain : bool) (networkName : string)
    (deployments : list (string * VerifyDiamond.INetworkDeployInfo))
    (h : VerifyDiamond.Hardhat) (write : answer unit) :
  let out := (VerifyDiamond.main isMain networkName deployments h write).1 in
  let run := (VerifyDiamond.main isMain networkName deployments h write).2 in
  out.*1 = deployments.*1
  ∧ (∀ other, other ≠ networkName →
       Ordered.get out other = Ordered.get deployments other)
  ∧ (isMain = false ∨ networkName ∈ ["hardhat"; "localhost"]
     ∨ Ordered.get deployments networkName = None →
     out = deployments ∧ Forall (λ e, is_request e = false) (trace run))
  ∧ (∀ e, result run ≠ Thrown e).
Proof.
  cbv zeta. unfold VerifyDiamond.main.
  destruct isMain.
  2:{ cbn. repeat split; try constructor; discriminate. }
  destruct (Ordered.get deployments networkName) as [info |] eqn:Hg.
  2:{ case_bool_decide; cbn; repeat split; repeat constructor; discriminate. }
  case_bool_decide as Hlocal.
  - destruct (VerifyDiamond.VerifyContracts h info) as [info' [t r]].
    cbn [fst snd].
    split; [apply Ordered_set_keys; eauto |].
    split; [intros other Hne; apply Ordered_get_set_ne, Hne |].
    split; [intros [[=] | [Hin | [=]]]; contradiction |].
    intros e. rewrite result_try_catch, result_bind.
    destruct r as [[] | c | e0]; cbn [result snd]; try discriminate.
    destruct (bool_decide _), write; cbn; discriminate.
  - cbn [fst snd]. rewrite (Ordered_set_same _ _ _ Hg).
    split; [reflexivity |]. split; [reflexivity |].
    split.
    + intros _. split; [reflexivity |].
      destruct (bool_decide _), write as [[] | we]; cbn; repeat constructor.
    + intros e. destruct (bool_decide _), write as [[] | we]; cbn; discriminate.
Qed.

(** ** The check of the deployed diamond *)

Lemma list_facets_returns i fs total :
  result (VerifyDeployed.list_facets i fs total)
  = Returned (total + Z.of_nat (length (selectors_of fs)))%Z.
Proof.
  revert i total. induction fs as [| [a ss] fs IH]; intros i total.
  - cbn. f_equal. lia.
  - cbn [VerifyDeployed.list_facets]. rewrite result_bind. cbn [log emit result snd].
    rewrite IH. f_equal. unfold selectors_of. cbn [fmap list_fmap concat snd].
    rewrite length_app. lia.
Qed.

Lemma list_facets_always (P : event → Prop) i fs total :
  (∀ m, P (ConsoleLog m)) → always P (VerifyDeployed.list_facets i fs total).
Proof.
  intros HP. revert i total. induction fs as [| [a ss] fs IH]; intros i total.
  - constructor.
  - cbn [VerifyDeployed.list_facets].
    apply always_bind; [apply always_emit, HP | intros _ _; apply IH].
Qed.

Lemma test_functions_returns c :
  result (VerifyDeployed.test_functions c) = Returned tt.
Proof.
  destruct c as [gn fs ae ra si ow pv]. unfold VerifyDeployed.test_functions.
  cbn [VerifyDeployed.abiExists VerifyDeployed.readAbi
       VerifyDeployed.supportsInterface VerifyDeployed.owner
       VerifyDeployed.protocolVersion].
  destruct ae; [| reflexivity].
  destruct ra as [[] | ?]; [| reflexivity].
  destruct si as [b | ?]; [| reflexivity].
  destruct ow, pv; reflexivity.
Qed.

Lemma body_result env network c :
  result (VerifyDeployed.body env network c)
  = if falsy (env !! "SEPOLIA_RPC")
    then Thrown "SEPOLIA_RPC not set in environment variables"
    else match VerifyDeployed.getNetwork c with
         | Throws e => Thrown e
         | Answers _ =>
             match VerifyDeployed.facets c with
             | Throws _ => Exited 1
             | Answers _ => Returned tt
             end
         end.
Proof.
  unfold VerifyDeployed.body.
  repeat (rewrite result_bind; cbn [log emit result snd]).
  destruct (falsy _); [reflexivity |]. cbn [mret script_ret result snd].
  repeat (rewrite result_bind; cbn [log emit result snd]).
  destruct (VerifyDeployed.getNetwork c) as [net | e]; [| reflexivity].
  cbn [call result snd].
  repeat (rewrite result_bind; cbn [log emit result snd]).
  rewrite result_try_catch.
  repeat (rewrite result_bind; cbn [log emit result snd]).
  destruct (VerifyDeployed.facets c) as [fs | e]; [| reflexivity].
  cbn [call result snd].
  repeat (rewrite result_bind; cbn [log emit result snd]).
  rewrite list_facets_returns.
  repeat (rewrite result_bind; cbn [log emit result snd]).
  rewrite test_functions_returns. reflexivity.
Qed.

(** X20.  The check of the deployed diamond always ends the process, with
    code 0 or 1, and the code is 0 exactly when [SEPOLIA_RPC] is set, the
    network answers and the loupe lists the facets: whether the ABI file
    is there and whether the calls tried on the diamond succeed has no
    influence on it. *)
Theorem deployed_diamond_check_exit_code (env : Env) (network : option string)
    (c : VerifyDeployed.Chain) :
  (result (VerifyDeployed.main env network c) = Exited 0
   ∨ result (VerifyDeployed.main env network c) = Exited 1)
  ∧ (result (VerifyDeployed.main env network c) = Exited 0
     ↔ truthy (env !! "SEPOLIA_RPC") = true
       ∧ (∃ net, VerifyDeployed.getNetwork c = Answers net)
       ∧ (∃ fs, VerifyDeployed.facets c = Answers fs)).
Proof.
  unfold VerifyDeployed.main.
  rewrite result_try_catch, result_bind, body_result. unfold falsy.
  destruct (truthy (env !! "SEPOLIA_RPC")); cbn [negb].
  2:{ cbn. split; [right; reflexivity |].
      split; [discriminate | intros [[=] _]]. }
  destruct (VerifyDeployed.getNetwork c) as [net | e].
  2:{ cbn. split; [right; reflexivity |].
      split; [discriminate | intros (_ & [? [=]] & _)]. }
  destruct (VerifyDeployed.facets c) as [fs | e].
  2:{ cbn. split; [right; reflexivity |].
      split; [discriminate | intros (_ & _ & [? [=]])]. }
  cbn. split; [left; reflexivity |]. split; [eauto | reflexivity].
Qed.

(** X21.  The network named on the command line of the check is printed
    and otherwise ignored: two runs that differ in it only differ in the
    one line that prints it, they end alike, and a provider is only ever
    created for the endpoint in [SEPOLIA_RPC]. *)
Theorem network_argument_is_only_printed (env : Env) (c : VerifyDeployed.Chain) :
  ∃ before after,
    ∀ network : option string,
      trace (VerifyDeployed.main env network c)
      = before
        ++ ConsoleLog [Str "Network: "; Str (or_default network "sepolia")]
        :: after
      ∧ result (VerifyDeployed.main env network c)
        = result (VerifyDeployed.main env None c)
      ∧ ∀ url, NewJsonRpcProvider url ∈ trace (VerifyDeployed.main env network c) →
               url = env !! "SEPOLIA_RPC".
Proof.
  exists [ConsoleLog [Str "Verifying Diamond deployment..."];
          ConsoleLog [Str "Diamond Address: "; Str VerifyDeployed.diamondAddress]].
  eexists. intros network.
  split; [| split].
  - unfold VerifyDeployed.main.
    rewrite trace_try_catch, result_bind, body_result, trace_bind, body_result.
    unfold VerifyDeployed.body.
    rewrite 3!trace_bind. cbn [log emit result trace fst snd].
    cbn [app]. reflexivity.
  - unfold VerifyDeployed.main.
    rewrite !result_try_catch, !result_bind, !body_result. reflexivity.
  - assert (H : always (λ e, ∀ url, e = NewJsonRpcProvider url →
                             url = env !! "SEPOLIA_RPC")
                  (VerifyDeployed.main env network c)).
    { unfold VerifyDeployed.main, VerifyDeployed.body,
        VerifyDeployed.test_functions, log, error.
      walk; try (intros ? ?; congruence).
      apply list_facets_always. intros ? ? [=]. }
    intros url Hin. unfold always in H. rewrite Forall_forall in H.
    exact (H _ Hin url eq_refl).
Qed.

Lemma in_bind_first {A B} (m : script A) (f : A → script B) e :
  e ∈ trace m → e ∈ trace (m ≫= f).
Proof. intros H. rewrite trace_bind, elem_of_app. left. exact H. Qed.

Lemma in_bind_later {A B} (m : script A) (f : A → script B) a e :
  result m = Returned a → e ∈ trace (f a) → e ∈ trace (m ≫= f).
Proof. intros Hr H. rewrite trace_bind, elem_of_app, Hr. right. exact H. Qed.

Lemma in_try {A} (m : script A) h e :
  e ∈ trace m → e ∈ trace (try_catch m h).
Proof. intros H. rewrite trace_try_catch, elem_of_app. left. exact H. Qed.

(** X22.  When the endpoint is set and the chain answers, the check
    reports the number of facets the loupe lists and, as the total, the
    number of selectors of all these facets together. *)
Theorem selectors_are_totalled (env : Env) (network : option string)
    (c : VerifyDeployed.Chain) (net : string * Z)
    (fs : list (string * list string)) :
  truthy (env !! "SEPOLIA_RPC") = true →
  VerifyDeployed.getNetwork c = Answers net →
  VerifyDeployed.facets c = Answers fs →
  ConsoleLog [Str "Diamond has "; Num (of_Z (Z.of_nat (length fs)));
              Str " facets:"]
    ∈ trace (VerifyDeployed.main env network c)
  ∧ ConsoleLog [Str "Total function selectors: ";
                Num (of_Z (Z.of_nat (length (selectors_of fs))))]
      ∈ trace (VerifyDeployed.main env network c).
Proof.
  intros Hu Hn Hf.
  assert (Hbody : ∀ e,
            e ∈ trace (log [Str "Diamond has "; Num (of_Z (Z.of_nat (length fs)));
                            Str " facets:"] ;;
                       totalSelectors ← VerifyDeployed.list_facets 0 fs 0 ;
                       log [Str "Total function selectors: ";
                            Num (of_Z totalSelectors)]) →
            e ∈ trace (VerifyDeployed.main env network c)).
  { intros e He. unfold VerifyDeployed.main, VerifyDeployed.body.
    apply in_try, in_bind_first.
    do 3 (eapply in_bind_later; [reflexivity |]).
    unfold falsy. rewrite Hu. cbn [negb].
    do 2 (eapply in_bind_later; [reflexivity |]).
    rewrite Hn. eapply in_bind_later; [reflexivity |].
    eapply in_bind_later; [reflexivity |].
    apply in_try. rewrite Hf. eapply in_bind_later; [reflexivity |].
    rewrite trace_bind, elem_of_app in He. destruct He as [He | He].
    { apply in_bind_first. exact He. }
    eapply in_bind_later; [reflexivity |].
    cbn [log emit result snd] in He.
    rewrite trace_bind, list_facets_returns, elem_of_app in He.
    destruct He as [He | He].
    { apply in_bind_first. exact He. }
    eapply in_bind_later; [apply list_facets_returns |].
    apply in_bind_first. exact He. }
  split; apply Hbody.
  - apply in_bind_first. left.
  - eapply in_bind_later; [reflexivity |].
    eapply in_bind_later; [apply list_facets_returns |].
    rewrite Z.add_0_l. left.
Qed.

Lemma selectors_are_totalled_witness :
  ConsoleLog [Str "Diamond has "; Num (of_Z 2); Str " facets:"]
    ∈ trace (VerifyDeployed.main sepolia_env (Some "mainnet") sample_chain)
  ∧ ConsoleLog [Str "Total function selectors: "; Num (of_Z 4)]
      ∈ trace (VerifyDeployed.main sepolia_env (Some "mainnet") sample_chain).
Proof.
  assert (Hu : truthy (sepolia_env !! "SEPOLIA_RPC") = true)
    by (vm_compute; reflexivity).
  exact (selectors_are_totalled sepolia_env (Some "mainnet") sample_chain
           ("sepolia", 11155111%Z)
           [("0x5FbDB2315678afecb367f032d93F642f64180aa3", ["0x1f931c1c"]);
            ("0xe7f1725E7734CE288F8367e1Bb143E90bb3F0512",
             ["0x7a0ed627"; "0xadfca15e"; "0x52ef6b2c"])]
           Hu eq_refl eq_refl).
Defined.

(** ** The status of a diamond that is not deployed *)

Lemma calls_errors (f : string → message) (xs : list string) :
  calls (map (λ x, ConsoleError (f x)) xs) = [].
Proof. induction xs as [| x xs IH]; [reflexivity | exact IH]. Qed.

(** X23.  The status check of a diamond that is not deployed: once the
    options are complete and the deployer is created, and unless the
    configuration is to be shown, the check validates the configuration
    and makes no other call, whatever else was asked for (facets,
    selectors, on-chain validation), and it returns also when the
    configuration is found invalid. *)
Theorem status_of_undeployed_diamond (w : World)
    (options : StatusRpc.StatusOptions) (deployer : RPCDiamondDeployer)
    (validation : ValidationResult) :
  StatusRpc.validation_errors options = [] →
  getInstance w (StatusRpc.createConfig options) = Answers deployer →
  isDiamondDeployed deployer = false →
  validateConfiguration deployer = Answers validation →
  falsy (StatusRpc.showConfig options) = true →
  result (StatusRpc.checkStatus w options) = Returned tt
  ∧ calls (trace (StatusRpc.checkStatus w options))
    = [GetInstance (StatusRpc.createConfig options); ValidateConfiguration].
Proof.
  intros Hv Hi Hd Hc Hs.
  unfold StatusRpc.checkStatus, StatusRpc.validateOptions.
  rewrite Hv, Hi. cbn [call].
  assert (Hshow : truthy (StatusRpc.showConfig options) = false).
  { unfold falsy in Hs. destruct (truthy _); [discriminate | reflexivity]. }
  rewrite Hshow.
  cbn -[truthy StatusRpc.createConfig show_string StatusRpc.show_status].
  rewrite Hd, Hc, !andb_false_r.
  cbn -[truthy StatusRpc.createConfig show_string StatusRpc.show_status].
  destruct (valid validation).
  - cbn -[truthy StatusRpc.createConfig show_string StatusRpc.show_status].
    split; reflexivity.
  - rewrite for_each_error.
    cbn -[truthy StatusRpc.createConfig show_string StatusRpc.show_status calls].
    split; [reflexivity |].
    unfold calls. cbn [List.filter is_output negb].
    rewrite List.filter_app.
    fold (calls (map (λ x, ConsoleError [Str "  - "; Str x]) (errors validation))).
    rewrite calls_errors. reflexivity.
Qed.

Lemma status_of_undeployed_diamond_witness :
  result (StatusRpc.checkStatus unconfigured_world facets_status_options)
  = Returned tt
  ∧ calls (trace (StatusRpc.checkStatus unconfigured_world facets_status_options))
    = [GetInstance (StatusRpc.createConfig facets_status_options);
       ValidateConfiguration].
Proof.
  exact (status_of_undeployed_diamond unconfigured_world facets_status_options
           unconfigured_deployer
           {| valid := false;
              errors := ["Diamond configuration file not found"] |}
           eq_refl eq_refl eq_refl eq_refl eq_refl).
Defined.
